(** * Resilient execution orchestrator: a shallow embedding

    The development embeds the two orchestrators of the
    [assistant-browser] package:

    - [OrchestratorV2] (exponential backoff, per-operation timeouts, error
      classification, metrics), and
    - [Orchestrator] (the earlier, simple retry loop).

    Both are TypeScript classes whose [runFlow] method awaits external
    collaborators (the capture provider, the cache store, the media API
    and the stream clone provider), reads the wall clock and, for the
    backoff jitter, the random source.  The embedding makes these
    explicit: a run is a pure function of the orchestrator object, a
    [world] (clock, console, timers armed, cache contents) and a script
    that says, for every attempt, how each collaborator and the runtime
    behave.

    Conventions of the model:

    - clock readings and durations are whole milliseconds of
      [Date.now()], and the clock never runs backwards; what the clock
      shows to have passed while the run awaits a collaborator or a
      timer, and between the clock readings at the head of an attempt,
      comes from the script;
    - when a timer fires is up to the runtime, not to the delay it was
      armed with (the runtime clamps and truncates the delay, the event
      loop may be late, and the millisecond clock may show less than the
      delay): it comes from the script as well;
    - numbers are doubles without their rounding: a finite value is an
      exact rational, a result too large for a double is an infinity,
      and [NaN] and the infinities follow the rules of IEEE arithmetic;
    - the cache store and the stream clone, which no timeout guards, are
      taken to settle; the capture and the display request may never
      settle: [OrchestratorV2] then times out, the simple [Orchestrator]
      never returns;
    - a loop is a recursion on a bound of its iterations; [runFlow] gives
      it the retry budget, which is always enough. *)

From Stdlib Require Import ZArith QArith Qminmax Qpower Lqa Lia.
From Stdlib Require Import String Ascii DecimalString DecimalZ List Bool.
From stdpp Require Import base option list gmap strings.

Local Open Scope string_scope.
Local Open Scope Z_scope.

(** ** JavaScript strings

    Error descriptions, trace lines and cache keys are strings.  A
    JavaScript string is a sequence of UTF-16 code units; the model keeps
    the strings whose code units are all below 256 (the Latin-1 range),
    one Rocq character for each code unit.  Every string the
    orchestrators build themselves is of this kind; a description with
    other characters, thrown by a collaborator, is outside the model. *)

Module JsString.

(** [c.toLowerCase()] on one code unit below 256: the letters A to Z
    and the capital letters of the Latin-1 supplement (U+00C0 to U+00DE,
    the multiplication sign U+00D7 aside) are 32 below their small
    letters; no other character of the range has a small letter. *)
Definition lower_latin1 (c : ascii) : ascii :=
  let n := N_of_ascii c in
  if (((65 <=? n) && (n <=? 90)) ||
      ((192 <=? n) && (n <=? 222) && negb (n =? 215)))%N
  then ascii_of_N (n + 32) else c.

(** [String.prototype.toLowerCase]. *)
Fixpoint toLowerCase (s : string) : string :=
  match s with
  | EmptyString => EmptyString
  | String c s' => String (lower_latin1 c) (toLowerCase s')
  end.

(** [s.includes(pat)]: [pat] occurs in [s] at some position. *)
Fixpoint includes (s pat : string) : bool :=
  String.prefix pat s ||
  match s with
  | EmptyString => false
  | String _ s' => includes s' pat
  end.

(** Template-literal rendering of an integral number, as in
    [`${Date.now()}`] or [`${ms}ms`]. *)
Definition ofZ (z : Z) : string := NilZero.string_of_int (Z.to_int z).

End JsString.

(** ** JavaScript numbers

    The metrics divide one counter by another, and the backoff delay is
    a product with a power.  The results are doubles: [NaN] for [0/0]
    and for zero times an infinity, an infinity for [x/0] and for a
    result too large for a double.  Finite values are kept as exact
    rationals (the rounding of IEEE doubles is not modelled). *)

Module JsNumber.

Inductive number : Type :=
| Finite (q : Q)
| PosInfinity
| NegInfinity
| NaN.

(** [a / b] for two integral operands. *)
Definition div (a b : Z) : number :=
  if b =? 0 then
    if a =? 0 then NaN
    else if 0 <? a then PosInfinity else NegInfinity
  else Finite (inject_Z a / inject_Z b).

(** [x * k] for a finite constant [k]. *)
Definition mul (x : number) (k : Q) : number :=
  match x with
  | Finite q => Finite (q * k)
  | PosInfinity =>
      if Qlt_le_dec 0 k then PosInfinity
      else if Qlt_le_dec k 0 then NegInfinity else NaN
  | NegInfinity =>
      if Qlt_le_dec 0 k then NegInfinity
      else if Qlt_le_dec k 0 then PosInfinity else NaN
  | NaN => NaN
  end.

(** Numeric equality as [===] has it on finite values; [NaN] and the
    infinities are equal to no finite value. *)
Definition is_finite_eq (x : number) (q : Q) : Prop :=
  match x with
  | Finite p => (p == q)%Q
  | _ => False
  end.

(** The least magnitude that rounds to an infinity instead of to the
    largest double: [2^1024 - 2^970]. *)
Definition overflowThreshold : Q :=
  Eval vm_compute in inject_Z (2 ^ 1024 - 2 ^ 970).

(** The double for a real result: an infinity when the result is too
    large. *)
Definition ofQ (q : Q) : number :=
  if Qle_bool overflowThreshold q then PosInfinity
  else if Qle_bool q (- overflowThreshold) then NegInfinity
  else Finite q.

(** The product of an infinity of the given sign with a finite
    factor. *)
Definition scaleInfinity (positive : bool) (k : Q) : number :=
  if Qle_bool k 0 then
    if Qle_bool 0 k then NaN
    else if positive then NegInfinity else PosInfinity
  else if positive then PosInfinity else NegInfinity.

(** [x * y]. *)
Definition times (x y : number) : number :=
  match x, y with
  | NaN, _ | _, NaN => NaN
  | Finite a, Finite b => ofQ (a * b)
  | Finite a, PosInfinity | PosInfinity, Finite a => scaleInfinity true a
  | Finite a, NegInfinity | NegInfinity, Finite a => scaleInfinity false a
  | PosInfinity, PosInfinity | NegInfinity, NegInfinity => PosInfinity
  | PosInfinity, NegInfinity | NegInfinity, PosInfinity => NegInfinity
  end.

(** [x + y]. *)
Definition plus (x y : number) : number :=
  match x, y with
  | NaN, _ | _, NaN => NaN
  | Finite a, Finite b => ofQ (a + b)
  | PosInfinity, NegInfinity | NegInfinity, PosInfinity => NaN
  | PosInfinity, _ | _, PosInfinity => PosInfinity
  | NegInfinity, _ | _, NegInfinity => NegInfinity
  end.

(** [-x]. *)
Definition negate (x : number) : number :=
  match x with
  | Finite a => Finite (- a)
  | PosInfinity => NegInfinity
  | NegInfinity => PosInfinity
  | NaN => NaN
  end.

(** [x - y]. *)
Definition minus (x y : number) : number := plus x (negate y).

(** [Math.min(x, y)]: [NaN] as soon as one argument is. *)
Definition min (x y : number) : number :=
  match x, y with
  | NaN, _ | _, NaN => NaN
  | NegInfinity, _ | _, NegInfinity => NegInfinity
  | PosInfinity, z | z, PosInfinity => z
  | Finite a, Finite b => Finite (Qmin a b)
  end.

(** [Math.pow(base, exponent)] for a finite base and an integral
    exponent. *)
Definition pow (base : Q) (exponent : Z) : number :=
  if exponent =? 0 then Finite 1
  else if Qeq_bool base 0 then
    if 0 <? exponent then Finite 0 else PosInfinity
  else ofQ (base ^ exponent).

(** The same number: the same special value, or equal finite values. *)
Definition same (x y : number) : Prop :=
  match x, y with
  | Finite a, Finite b => (a == b)%Q
  | PosInfinity, PosInfinity | NegInfinity, NegInfinity | NaN, NaN => True
  | _, _ => False
  end.

End JsNumber.

(** ** The world outside the orchestrator *)

(** Opaque handles for the artifacts the collaborators hand over. *)
Inductive Blob : Type := mkBlob (id : nat).
Inductive MediaStream : Type := mkMediaStream (id : nat).

(** A value thrown (or a rejection reason): an [Error] object with its
    message, or any other value with its [String(...)] rendering. *)
Inductive thrown : Type :=
| ErrorObj (message : string)
| OtherValue (rendered : string).

(** [error instanceof Error ? error.message : String(error)]. *)
Definition errorMessage (e : thrown) : string :=
  match e with
  | ErrorObj m => m
  | OtherValue r => r
  end.

(** How a promise settles. *)
Inductive settled (A : Type) : Type :=
| Resolved (a : A)
| Rejected (e : thrown).
Arguments Resolved {A} a.
Arguments Rejected {A} e.

(** An asynchronous operation of a collaborator: it settles after some
    milliseconds, or it never settles. *)
Inductive async (A : Type) : Type :=
| Settles (after : nat) (r : settled A)
| Hangs.
Arguments Settles {A} after r.
Arguments Hangs {A}.

(** The cache store as one attempt sees it: the Cache API is absent from
    [globalThis]; [caches.open] or [cache.put] throws after some time; or
    the put goes through. *)
Inductive cacheStore : Type :=
| CacheAbsent
| CacheThrows (after : nat) (e : thrown)
| CachePuts (after : nat).

(** What [captureWithSteps] resolves to. *)
Record captured : Type := mkCaptured {
  blob : option Blob;
  capturedSteps : list string
}.

(** The timer of a timeout guard as an attempt meets it: what the clock
    shows to have passed when it fires, and whether it fires before an
    operation that settles within the same millisecond. *)
Record guardTimer : Type := mkGuardTimer {
  firesAfter : nat;
  firesFirst : bool
}.

(** The behaviour of every collaborator and of the runtime during one
    attempt.  [timestampLag] and [keyLag] are what the clock advances
    between the three readings at the head of the attempt (the start of
    the attempt, the timestamp, the cache key); [captureGuard] and
    [displayGuard] are the timers of the two timeout guards; [random] is
    the value [Math.random()] returns if the backoff is computed after
    this attempt, and [retryWait] what the clock shows to have passed
    when the retry timer fires. *)
Record attemptScript : Type := mkAttemptScript {
  timestampLag : nat;
  keyLag : nat;
  capture : async captured;
  captureGuard : guardTimer;
  cache : cacheStore;
  displayMedia : async (option MediaStream);
  displayGuard : guardTimer;
  clone : nat * settled MediaStream;
  random : Q;
  retryWait : nat
}.

(** [CloneStreamModule.cloneAndMimic(stream)].  Its first statement is
    [stream.clone()], a [TypeError] when the stream is [null]; on a live
    stream it behaves as the script says. *)
Definition cloneAndMimic (a : attemptScript) (stream : option MediaStream)
  : nat * settled MediaStream :=
  match stream with
  | Some _ => clone a
  | None =>
      (0%nat,
       Rejected (ErrorObj "Cannot read properties of null (reading 'clone')"))
  end.

(** One line written to the console by an orchestrator.  Each
    constructor is one [console.log]/[warn]/[error] call site with the
    values interpolated in its message. *)
Inductive consoleLine : Type :=
| LogAttempt (retries maxRetries : Z)
| LogSuccess (retries durationMs : Z)
| WarnAttemptFailed (retries : Z) (errorMsg : string) (durationMs : Z)
| LogWaiting (delayMs : JsNumber.number)
| ErrorNonRetryable (errorMsg : string)
| ErrorFailedAfter (retries maxRetries totalTimeMs : Z)
| WarnCacheSkipped
| LogCached (key : string)
| ErrorCacheNonFatal (e : thrown)
| LogStreamReady
| WarnAttemptFailedSimple (retries : Z) (errorMsg : string)
| ErrorFailedAfterSimple (maxRetries : Z)
| WarnCacheUnavailable
| ErrorCacheFailed (e : thrown).

(** The part of the environment a run changes: the clock ([Date.now()],
    in milliseconds), the console, the delays of the retry timers armed so
    far, and the entries of the cache store, oldest first, one for each
    key.  The clock never runs backwards. *)
Record world : Type := mkWorld {
  now : Z;
  console : list consoleLine;
  timers : list JsNumber.number;
  cachePuts : list (string * Blob)
}.

Definition elapse (d : nat) (w : world) : world :=
  {| now := now w + Z.of_nat d; console := console w;
     timers := timers w; cachePuts := cachePuts w |}.

Definition consoleWrite (l : consoleLine) (w : world) : world :=
  {| now := now w; console := (console w ++ [l])%list;
     timers := timers w; cachePuts := cachePuts w |}.

(** The entries of a store but those under [key]. *)
Definition withoutKey (key : string) (entries : list (string * Blob))
  : list (string * Blob) :=
  List.filter (fun entry => negb (String.eqb (fst entry) key)) entries.

(** [cache.put(key, response)]: the entry stored under the same key, if
    there is one, is removed, and the new entry is added. *)
Definition putEntry (key : string) (b : Blob) (entries : list (string * Blob))
  : list (string * Blob) :=
  (withoutKey key entries ++ [(key, b)])%list.

Definition cachePut (key : string) (b : Blob) (w : world) : world :=
  {| now := now w; console := console w;
     timers := timers w; cachePuts := putEntry key b (cachePuts w) |}.

(** [await new Promise(resolve => setTimeout(resolve, delayMs))]: the
    timer is armed with [delayMs]; [elapsed] is what the clock shows to
    have passed when the run goes on. *)
Definition sleep (delayMs : JsNumber.number) (elapsed : nat) (w : world)
  : world :=
  {| now := now w + Z.of_nat elapsed;
     console := console w;
     timers := (timers w ++ [delayMs])%list;
     cachePuts := cachePuts w |}.

(** The outcome of running a loop with a bound on its iterations. *)
Inductive run (A : Type) : Type :=
| Returns (a : A)
| NeverSettles
| OutOfFuel.
Arguments Returns {A} a.
Arguments NeverSettles {A}.
Arguments OutOfFuel {A}.

(** ** OrchestratorV2 *)

Module OrchestratorV2.

Record RetryPolicy : Type := mkRetryPolicy {
  maxRetries : Z;
  initialDelayMs : Q;
  maxDelayMs : Q;
  backoffMultiplier : Q
}.

(** [Partial<RetryPolicy>], every key it has holding a number: [None]
    is a key that is absent.  A key that is present and holds
    [undefined] would overwrite the field with [undefined]; a
    [RetryPolicy] has numbers only, and such partial policies are left
    out. *)
Record PartialRetryPolicy : Type := mkPartialRetryPolicy {
  maxRetries_opt : option Z;
  initialDelayMs_opt : option Q;
  maxDelayMs_opt : option Q;
  backoffMultiplier_opt : option Q
}.

(** One record of the history.  [timestamp] is the instant that
    [new Date().toISOString()] renders. *)
Record OrchestratorContextV2 : Type := mkContext {
  attempt : Z;
  timestamp : Z;
  steps : list string;
  cacheKey : string;
  success : bool;
  durationMs : Z;
  error : option string
}.

Record Metrics : Type := mkMetrics {
  totalAttempts : Z;
  successfulAttempts : Z;
  totalTimeMs : Z
}.

(** The private fields of the instance. *)
Record t : Type := mkOrchestrator {
  context : list OrchestratorContextV2;
  retryPolicy : RetryPolicy;
  operationTimeout : Z;
  metrics : Metrics
}.

(** The field initialisers of the class. *)
Definition getInstance : t :=
  {| context := [];
     retryPolicy := {| maxRetries := 3; initialDelayMs := 500;
                       maxDelayMs := 5000; backoffMultiplier := 2 |};
     operationTimeout := 30000;
     metrics := {| totalAttempts := 0; successfulAttempts := 0;
                   totalTimeMs := 0 |} |}.

Definition setRetryPolicy (policy : PartialRetryPolicy) (o : t) : t :=
  let old := retryPolicy o in
  {| context := context o;
     retryPolicy :=
       {| maxRetries := default (maxRetries old) (maxRetries_opt policy);
          initialDelayMs :=
            default (initialDelayMs old) (initialDelayMs_opt policy);
          maxDelayMs := default (maxDelayMs old) (maxDelayMs_opt policy);
          backoffMultiplier :=
            default (backoffMultiplier old) (backoffMultiplier_opt policy) |};
     operationTimeout := operationTimeout o;
     metrics := metrics o |}.

Definition setOperationTimeout (ms : Z) (o : t) : t :=
  {| context := context o; retryPolicy := retryPolicy o;
     operationTimeout := ms; metrics := metrics o |}.

(** The clamped exponential part of the delay. *)
Definition exponentialDelay (p : RetryPolicy) (attempt : Z)
  : JsNumber.number :=
  JsNumber.min
    (JsNumber.times (JsNumber.Finite (initialDelayMs p))
                    (JsNumber.pow (backoffMultiplier p) (attempt - 1)))
    (JsNumber.Finite (maxDelayMs p)).

(** [calculateDelay(attempt)], with [rnd] the value of [Math.random()]. *)
Definition calculateDelay (p : RetryPolicy) (attempt : Z) (rnd : Q)
  : JsNumber.number :=
  let exponentialDelay := exponentialDelay p attempt in
  let jitter :=
    JsNumber.times
      (JsNumber.times exponentialDelay (JsNumber.Finite (2 # 10)))
      (JsNumber.minus
         (JsNumber.times (JsNumber.Finite rnd) (JsNumber.Finite 2))
         (JsNumber.Finite 1)) in
  JsNumber.plus exponentialDelay jitter.

Definition timeoutError (ms : Z) : thrown :=
  ErrorObj ("Operation timeout after " +:+ JsString.ofZ ms +:+ "ms").

(** The operation settles before the timer of the guard fires. *)
Definition operationFirst (after : nat) (guard : guardTimer) : bool :=
  (after <? firesAfter guard)%nat ||
  ((after =? firesAfter guard)%nat && negb (firesFirst guard)).

(** [withTimeout(promise, ms)]: the race between the operation and a
    timer armed with [ms] milliseconds, which rejects with a description
    that quotes [ms].  The result is what the clock shows to have passed
    when the race is over and how it settles: as the operation does when
    the operation settles first, with the timeout error when the timer
    fires first.  The timer always fires, the operation may never
    settle. *)
Definition withTimeout {A : Type} (promise : async A) (ms : Z)
    (guard : guardTimer) : nat * settled A :=
  match promise with
  | Settles after r =>
      if operationFirst after guard then (after, r)
      else (firesAfter guard, Rejected (timeoutError ms))
  | Hangs => (firesAfter guard, Rejected (timeoutError ms))
  end.

Definition retryablePatterns : list string :=
  ["timeout"; "network"; "FAILED_TO_START_DEVICE"; "NotFoundError";
   "temporary"].

Definition isRetryableError (errorMsg : string) : bool :=
  existsb
    (fun pattern =>
       JsString.includes (JsString.toLowerCase errorMsg)
                         (JsString.toLowerCase pattern))
    retryablePatterns.

(** [cacheScreenshot(key, blob)]: never throws. *)
Definition cacheScreenshot (store : cacheStore) (key : string) (b : Blob)
    (w : world) : world :=
  match store with
  | CacheAbsent => consoleWrite WarnCacheSkipped w
  | CachePuts after =>
      consoleWrite (LogCached key) (cachePut key b (elapse after w))
  | CacheThrows after e =>
      consoleWrite (ErrorCacheNonFatal e) (elapse after w)
  end.

(** The body of the [try] block up to the point where the attempt is
    known to have gone through: the world after it, and either the
    trace of the attempt or what was thrown. *)
Definition pipeline (o : t) (a : attemptScript) (key : string) (w : world)
  : world * settled (list string) :=
  let '(d, r) :=
    withTimeout (capture a) (operationTimeout o) (captureGuard a) in
  let w := elapse d w in
  match r with
  | Rejected e => (w, Rejected e)
  | Resolved c =>
      match blob c with
      | None =>
          (w, Rejected (ErrorObj "Screenshot blob is null - capture failed"))
      | Some b =>
          let w := cacheScreenshot (cache a) key b w in
          let steps :=
            (capturedSteps c ++ ["Step 6: Screenshot cached successfully"])%list
          in
          let '(d, r) :=
            withTimeout (displayMedia a) (operationTimeout o)
                        (displayGuard a) in
          let w := elapse d w in
          match r with
          | Rejected e => (w, Rejected e)
          | Resolved None =>
              (w, Rejected (ErrorObj "Failed to get media stream"))
          | Resolved (Some stream) =>
              let '(d, r) := cloneAndMimic a (Some stream) in
              let w := elapse d w in
              match r with
              | Rejected e => (w, Rejected e)
              | Resolved _ =>
                  (w, Resolved
                        (steps ++
                         ["Step 7: Stream cloned and action listeners attached"])%list)
              end
          end
      end
  end.

Definition pushContext (r : OrchestratorContextV2) (o : t) : t :=
  {| context := (context o ++ [r])%list; retryPolicy := retryPolicy o;
     operationTimeout := operationTimeout o; metrics := metrics o |}.

Definition setMetrics (m : Metrics) (o : t) : t :=
  {| context := context o; retryPolicy := retryPolicy o;
     operationTimeout := operationTimeout o; metrics := m |}.

(** One iteration of the [while] loop, [retries] being the counter
    after [retries++].  The clock is read three times at its head, for
    the start of the attempt, for the timestamp and for the cache key.
    The booleans are the new value of [success] and whether the
    iteration ended in [break]. *)
Definition iteration (a : attemptScript) (retries : Z) (o : t) (w : world)
  : t * world * bool * bool :=
  let o :=
    setMetrics {| totalAttempts := totalAttempts (metrics o) + 1;
                  successfulAttempts := successfulAttempts (metrics o);
                  totalTimeMs := totalTimeMs (metrics o) |} o in
  let attemptStartTime := now w in
  let w := elapse (timestampLag a) w in
  let timestamp := now w in
  let w := elapse (keyLag a) w in
  let cacheKey := "/screenshot-" +:+ JsString.ofZ (now w) in
  let w := consoleWrite (LogAttempt retries (maxRetries (retryPolicy o))) w in
  match pipeline o a cacheKey w with
  | (w, Resolved steps) =>
      let durationMs := now w - attemptStartTime in
      let o :=
        pushContext {| attempt := retries; timestamp := timestamp;
                       steps := steps; cacheKey := cacheKey;
                       success := true; durationMs := durationMs;
                       error := None |} o in
      let o :=
        setMetrics {| totalAttempts := totalAttempts (metrics o);
                      successfulAttempts := successfulAttempts (metrics o) + 1;
                      totalTimeMs := totalTimeMs (metrics o) |} o in
      let w := consoleWrite (LogSuccess retries durationMs) w in
      (o, w, true, false)
  | (w, Rejected e) =>
      let errorMsg := errorMessage e in
      let durationMs := now w - attemptStartTime in
      let w := consoleWrite (WarnAttemptFailed retries errorMsg durationMs) w in
      let o :=
        pushContext {| attempt := retries; timestamp := timestamp;
                       steps := ["Error: " +:+ errorMsg];
                       cacheKey := cacheKey;
                       success := false; durationMs := durationMs;
                       error := Some errorMsg |} o in
      if isRetryableError errorMsg && (retries <? maxRetries (retryPolicy o))
      then
        let delayMs := calculateDelay (retryPolicy o) retries (random a) in
        let w := consoleWrite (LogWaiting delayMs) w in
        let w := sleep delayMs (retryWait a) w in
        (o, w, false, false)
      else if negb (isRetryableError errorMsg) then
        let w := consoleWrite (ErrorNonRetryable errorMsg) w in
        (o, w, false, true)
      else (o, w, false, false)
  end.

(** The [while (!success && retries < maxRetries)] loop.  [script] gives
    the behaviour of the collaborators during attempt number [retries]. *)
Fixpoint attemptLoop (fuel : nat) (script : Z -> attemptScript)
    (retries : Z) (success : bool) (o : t) (w : world)
  : run (t * world * Z * bool) :=
  if negb success && (retries <? maxRetries (retryPolicy o)) then
    match fuel with
    | O => OutOfFuel
    | S fuel' =>
        let retries := retries + 1 in
        let '(o, w, success, stop) := iteration (script retries) retries o w in
        if stop then Returns (o, w, retries, success)
        else attemptLoop fuel' script retries success o w
    end
  else Returns (o, w, retries, success).

Definition runFlowWithin (fuel : nat) (script : Z -> attemptScript)
    (o : t) (w : world) : run (t * world * bool) :=
  let startTime := now w in
  match attemptLoop fuel script 0 false o w with
  | Returns (o, w, retries, success) =>
      let o :=
        setMetrics {| totalAttempts := totalAttempts (metrics o);
                      successfulAttempts := successfulAttempts (metrics o);
                      totalTimeMs := now w - startTime |} o in
      let w :=
        if success then w
        else consoleWrite
               (ErrorFailedAfter retries (maxRetries (retryPolicy o))
                                 (totalTimeMs (metrics o))) w in
      Returns (o, w, success)
  | NeverSettles => NeverSettles
  | OutOfFuel => OutOfFuel
  end.

(** [runFlow()]: the loop makes at most [maxRetries] iterations. *)
Definition runFlow (script : Z -> attemptScript) (o : t) (w : world)
  : run (t * world * bool) :=
  runFlowWithin (Z.to_nat (maxRetries (retryPolicy o))) script o w.

(** The object [getMetrics()] returns. *)
Record MetricsSnapshot : Type := mkMetricsSnapshot {
  snapTotalAttempts : Z;
  snapSuccessfulAttempts : Z;
  snapTotalTimeMs : Z;
  successRate : JsNumber.number;
  avgTimePerAttemptMs : JsNumber.number
}.

Definition getMetrics (o : t) : MetricsSnapshot :=
  let m := metrics o in
  {| snapTotalAttempts := totalAttempts m;
     snapSuccessfulAttempts := successfulAttempts m;
     snapTotalTimeMs := totalTimeMs m;
     successRate :=
       JsNumber.mul
         (JsNumber.div (successfulAttempts m) (totalAttempts m)) 100;
     avgTimePerAttemptMs :=
       JsNumber.div (totalTimeMs m) (totalAttempts m) |}.

Definition getContext (o : t) : list OrchestratorContextV2 := context o.

Definition clearContext (o : t) : t :=
  {| context := []; retryPolicy := retryPolicy o;
     operationTimeout := operationTimeout o;
     metrics := {| totalAttempts := 0; successfulAttempts := 0;
                   totalTimeMs := 0 |} |}.

Definition getLastCacheKey (o : t) : option string :=
  let successful := filter (fun c => success c = true) (context o) in
  if bool_decide (0 < length successful)%nat
  then cacheKey <$> last successful
  else None.

End OrchestratorV2.

(** ** Orchestrator, the simple variant *)

Module Orchestrator.

Record OrchestratorContext : Type := mkContext {
  attempt : Z;
  timestamp : Z;
  steps : list string;
  cacheKey : string;
  success : bool
}.

Record t : Type := mkOrchestrator {
  context : list OrchestratorContext;
  maxRetries : Z
}.

Definition getInstance : t := {| context := []; maxRetries := 3 |}.

Definition setMaxRetries (retries : Z) (o : t) : t :=
  {| context := context o; maxRetries := retries |}.

Definition cacheScreenshot (store : cacheStore) (key : string) (b : Blob)
    (w : world) : world :=
  match store with
  | CacheAbsent => consoleWrite WarnCacheUnavailable w
  | CachePuts after =>
      consoleWrite (LogCached key) (cachePut key b (elapse after w))
  | CacheThrows after e =>
      consoleWrite (ErrorCacheFailed e) (elapse after w)
  end.

(** The body of the [try] block.  No step is guarded by a timeout: a
    collaborator that never settles leaves the run pending for ever. *)
Definition pipeline (a : attemptScript) (key : string) (w : world)
  : run (world * settled (list string)) :=
  match capture a with
  | Hangs => NeverSettles
  | Settles d (Rejected e) => Returns (elapse d w, Rejected e)
  | Settles d (Resolved c) =>
      let w := elapse d w in
      match blob c with
      | Some b =>
          let w := cacheScreenshot (cache a) key b w in
          match displayMedia a with
          | Hangs => NeverSettles
          | Settles d (Rejected e) => Returns (elapse d w, Rejected e)
          | Settles d (Resolved stream) =>
              let w := elapse d w in
              let '(d, r) := cloneAndMimic a stream in
              let w := elapse d w in
              match r with
              | Rejected e => Returns (w, Rejected e)
              | Resolved _ =>
                  Returns (consoleWrite LogStreamReady w,
                           Resolved (capturedSteps c))
              end
          end
      | None =>
          Returns (w, Rejected (ErrorObj "Failed to capture screenshot"))
      end
  end.

Definition pushContext (r : OrchestratorContext) (o : t) : t :=
  {| context := (context o ++ [r])%list; maxRetries := maxRetries o |}.

(** One iteration of the loop, [retries] being the counter after
    [retries++]; the clock is read for the timestamp and again for the
    cache key.  The boolean is the new value of [success]. *)
Definition iteration (a : attemptScript) (retries : Z) (o : t) (w : world)
  : run (t * world * bool) :=
  let w := consoleWrite (LogAttempt retries (maxRetries o)) w in
  let timestamp := now w in
  let w := elapse (keyLag a) w in
  let cacheKey := "/screenshot-" +:+ JsString.ofZ (now w) in
  match pipeline a cacheKey w with
  | Returns (w, Resolved steps) =>
      let o :=
        pushContext {| attempt := retries; timestamp := timestamp;
                       steps := steps; cacheKey := cacheKey;
                       success := true |} o in
      Returns (o, w, true)
  | Returns (w, Rejected e) =>
      let errorMsg := errorMessage e in
      let w := consoleWrite (WarnAttemptFailedSimple retries errorMsg) w in
      let o :=
        pushContext {| attempt := retries; timestamp := timestamp;
                       steps := ["Error: " +:+ errorMsg];
                       cacheKey := cacheKey; success := false |} o in
      if retries <? maxRetries o then
        Returns (o,
                 sleep (JsNumber.Finite (inject_Z (1000 * retries)))
                       (retryWait a) w,
                 false)
      else Returns (o, w, false)
  | NeverSettles => NeverSettles
  | OutOfFuel => OutOfFuel
  end.

Fixpoint attemptLoop (fuel : nat) (script : Z -> attemptScript)
    (retries : Z) (success : bool) (o : t) (w : world)
  : run (t * world * bool) :=
  if negb success && (retries <? maxRetries o) then
    match fuel with
    | O => OutOfFuel
    | S fuel' =>
        let retries := retries + 1 in
        match iteration (script retries) retries o w with
        | Returns (o, w, success) =>
            attemptLoop fuel' script retries success o w
        | NeverSettles => NeverSettles
        | OutOfFuel => OutOfFuel
        end
    end
  else Returns (o, w, success).

(** [runFlow()] returns nothing; the model returns the instance and the
    world after the run. *)
Definition runFlowWithin (fuel : nat) (script : Z -> attemptScript)
    (o : t) (w : world) : run (t * world) :=
  match attemptLoop fuel script 0 false o w with
  | Returns (o, w, success) =>
      Returns (o, if success then w
                  else consoleWrite (ErrorFailedAfterSimple (maxRetries o)) w)
  | NeverSettles => NeverSettles
  | OutOfFuel => OutOfFuel
  end.

Definition runFlow (script : Z -> attemptScript) (o : t) (w : world)
  : run (t * world) :=
  runFlowWithin (Z.to_nat (maxRetries o)) script o w.

Definition getContext (o : t) : list OrchestratorContext := context o.

Definition clearContext (o : t) : t :=
  {| context := []; maxRetries := maxRetries o |}.

Definition getLastCacheKey (o : t) : option string :=
  let successful := filter (fun c => success c = true) (context o) in
  if bool_decide (0 < length successful)%nat
  then cacheKey <$> last successful
  else None.

End Orchestrator.

(** ** Arrays and objects on the heap

    [getContext] returns [[...this.context]]: a new array holding the same
    references.  To reason about what a caller can do with it, arrays and
    the objects they refer to live in a heap, and a variable holds a
    location. *)

Module JsHeap.

Record heap (R : Type) : Type := mkHeap {
  arrays : gmap positive (list positive);
  objects : gmap positive R
}.
Arguments mkHeap {R} arrays objects.
Arguments arrays {R} h.
Arguments objects {R} h.

Section WithElements.
Context {R : Type}.

(** The objects an array refers to, in order. *)
Definition elements (h : heap R) (a : positive) : list R :=
  omap (fun r => objects h !! r) (default [] (arrays h !! a)).

(** [[...a]]: allocates an array with the references of [a]. *)
Definition spread (a : positive) (h : heap R) : positive * heap R :=
  let copy := fresh (dom (arrays h)) in
  (copy,
   {| arrays := <[copy := default [] (arrays h !! a)]> (arrays h);
      objects := objects h |}).

(** Any mutation of the array at [a] ([push], [pop], [splice], [sort],
    an assignment to an index or to [length], ...): the array is the
    same object, with other contents. *)
Definition mutateArray (a : positive) (contents : list positive)
    (h : heap R) : heap R :=
  {| arrays := <[a := contents]> (arrays h); objects := objects h |}.

(** Any assignment to the fields of the object at [r]. *)
Definition mutateObject (r : positive) (v : R) (h : heap R) : heap R :=
  {| arrays := arrays h; objects := <[r := v]> (objects h) |}.
End WithElements.

End JsHeap.

(** The instance of [OrchestratorV2] with its history on the heap, and
    its read accessors as methods: each returns its result and the
    instance and heap it leaves behind. *)

Module OrchestratorV2Heap.

Import OrchestratorV2.

Record instance : Type := mkInstance {
  contextRef : positive;
  retryPolicyField : RetryPolicy;
  operationTimeoutField : Z;
  metricsField : Metrics
}.

Abbreviation heap := (JsHeap.heap OrchestratorContextV2).

(** The instance as a value: the history read through the heap. *)
Definition view (i : instance) (h : heap) : OrchestratorV2.t :=
  {| context := JsHeap.elements h (contextRef i);
     retryPolicy := retryPolicyField i;
     operationTimeout := operationTimeoutField i;
     metrics := metricsField i |}.

Definition getContext (i : instance) (h : heap)
  : positive * instance * heap :=
  let '(copy, h') := JsHeap.spread (contextRef i) h in
  (copy, i, h').

Definition getMetrics (i : instance) (h : heap)
  : MetricsSnapshot * instance * heap :=
  (OrchestratorV2.getMetrics (view i h), i, h).

Definition getLastCacheKey (i : instance) (h : heap)
  : option string * instance * heap :=
  (OrchestratorV2.getLastCacheKey (view i h), i, h).

End OrchestratorV2Heap.

(** ** Vocabulary of the specification, read off the code's data *)

(** The outcome of an attempt as the history records it: the [success]
    flag and, for a failure, the class of its description. *)
Inductive Outcome : Type := Success | RetryableFailure | FatalFailure.

Definition outcome (r : OrchestratorV2.OrchestratorContextV2) : Outcome :=
  if OrchestratorV2.success r then Success
  else match OrchestratorV2.error r with
       | Some msg =>
           if OrchestratorV2.isRetryableError msg then RetryableFailure
           else FatalFailure
       | None => FatalFailure
       end.

Definition epoch : world :=
  {| now := 0; console := []; timers := []; cachePuts := [] |}.

(** How the [try] block of an attempt ends, whatever the clock shows and
    whatever the cache key is. *)
Definition verdict (o : OrchestratorV2.t) (a : attemptScript)
  : settled (list string) :=
  snd (OrchestratorV2.pipeline o a EmptyString epoch).

(** The same script with another cache store. *)
Definition withCache (store : cacheStore) (a : attemptScript)
  : attemptScript :=
  {| timestampLag := timestampLag a; keyLag := keyLag a;
     capture := capture a; captureGuard := captureGuard a;
     cache := store;
     displayMedia := displayMedia a; displayGuard := displayGuard a;
     clone := clone a; random := random a; retryWait := retryWait a |}.

(** ** ScreenshotModule, the capture provider of the repository *)

Module ScreenshotModule.

(** What [canvas.toBlob(callback, 'image/png')] does: it throws, it
    calls back after some time with a blob or with [null], or it never
    calls back. *)
Inductive toBlobCall : Type :=
| ToBlobThrows (e : thrown)
| ToBlobCallsBack (after : nat) (b : option Blob)
| ToBlobSilent.

(** The browser as [captureWithSteps] meets it: the screen-capture
    prompt (resolving to a stream whose first video track may be
    missing), the frame grabber, whether the canvas hands out a 2D
    context, and what [canvas.toBlob] does. *)
Record browser : Type := mkBrowser {
  getDisplayMedia : async (option nat);
  grabFrame : async nat;
  getContext2d : bool;
  toBlob : toBlobCall
}.

(** The [catch] clause: the error is written to the trace and the
    capture resolves without a blob. *)
Definition caught (steps : list string) (err : thrown) : captured :=
  {| blob := None;
     capturedSteps :=
       (steps ++ ["Error occurred: " +:+ errorMessage err])%list |}.

(** [captureWithSteps()].  The promise of step 5 is returned without
    being awaited: its rejection, when [toBlob] throws inside the
    executor, passes the [catch] clause by and rejects the capture. *)
Definition captureWithSteps (b : browser) : async captured :=
  let steps := ["Step 1: Request screen capture permission"] in
  match getDisplayMedia b with
  | Hangs => Hangs
  | Settles d1 (Rejected err) => Settles d1 (Resolved (caught steps err))
  | Settles d1 (Resolved track) =>
      let steps :=
        (steps ++ ["Step 2: Capture video track from stream"])%list in
      match track with
      | None =>
          Settles d1
            (Resolved (caught steps (ErrorObj "No video track found in stream")))
      | Some _ =>
          let steps :=
            (steps ++ ["Step 3: Grab frame from video track"])%list in
          match grabFrame b with
          | Hangs => Hangs
          | Settles d2 (Rejected err) =>
              Settles (d1 + d2) (Resolved (caught steps err))
          | Settles d2 (Resolved _) =>
              let steps :=
                (steps ++
                 ["Step 4: Draw frame onto canvas with verification marker"])%list
              in
              if getContext2d b then
                let steps :=
                  (steps ++
                   ["Step 5: Convert canvas to Blob for storage"])%list in
                match toBlob b with
                | ToBlobThrows err => Settles (d1 + d2) (Rejected err)
                | ToBlobCallsBack d3 blob =>
                    Settles (d1 + d2 + d3)
                            (Resolved {| blob := blob;
                                         capturedSteps := steps |})
                | ToBlobSilent => Hangs
                end
              else
                Settles (d1 + d2)
                  (Resolved
                     (caught steps
                        (ErrorObj "Unable to get 2D context from canvas")))
          end
      end
  end.

(** [captureSimple()]: the blob of [captureWithSteps], which it awaits
    inside its own [try], or [null] when [captureWithSteps] is
    rejected. *)
Definition captureSimple (b : browser) : async (option Blob) :=
  match captureWithSteps b with
  | Hangs => Hangs
  | Settles d (Resolved c) => Settles d (Resolved (blob c))
  | Settles d (Rejected _) => Settles d (Resolved None)
  end.

(** The five lines of the trace of a capture that went through. *)
Definition fiveSteps : list string :=
  ["Step 1: Request screen capture permission";
   "Step 2: Capture video track from stream";
   "Step 3: Grab frame from video track";
   "Step 4: Draw frame onto canvas with verification marker";
   "Step 5: Convert canvas to Blob for storage"].

End ScreenshotModule.

(** ** Sample collaborators *)

Module Samples.

Definition startOfRun : world :=
  {| now := 1700000000000; console := []; timers := []; cachePuts := [] |}.

(** The timer of a guard armed with the default timeout of 30 seconds,
    firing on time. *)
Definition onTime : guardTimer :=
  {| firesAfter := Z.to_nat 30000; firesFirst := false |}.

(** A browser in which the capture goes through. *)
Definition sharingScreen : ScreenshotModule.browser :=
  {| ScreenshotModule.getDisplayMedia := Settles 900 (Resolved (Some 1%nat));
     ScreenshotModule.grabFrame := Settles 40 (Resolved 1%nat);
     ScreenshotModule.getContext2d := true;
     ScreenshotModule.toBlob :=
       ScreenshotModule.ToBlobCallsBack 25 (Some (mkBlob 1)) |}.

(** No capture device: the prompt rejects with a [NotFoundError]. *)
Definition noDevice : ScreenshotModule.browser :=
  {| ScreenshotModule.getDisplayMedia :=
       Settles 3 (Rejected (ErrorObj "NotFoundError: Requested device not found"));
     ScreenshotModule.grabFrame := Hangs;
     ScreenshotModule.getContext2d := true;
     ScreenshotModule.toBlob := ScreenshotModule.ToBlobCallsBack 0 None |}.

(** The prompt is never answered. *)
Definition promptIgnored : ScreenshotModule.browser :=
  {| ScreenshotModule.getDisplayMedia := Hangs;
     ScreenshotModule.grabFrame := Hangs;
     ScreenshotModule.getContext2d := true;
     ScreenshotModule.toBlob := ScreenshotModule.ToBlobCallsBack 0 None |}.

(** The canvas is tainted: [toBlob] throws a [SecurityError]. *)
Definition taintedCanvas : ScreenshotModule.browser :=
  {| ScreenshotModule.getDisplayMedia := Settles 900 (Resolved (Some 1%nat));
     ScreenshotModule.grabFrame := Settles 40 (Resolved 1%nat);
     ScreenshotModule.getContext2d := true;
     ScreenshotModule.toBlob :=
       ScreenshotModule.ToBlobThrows
         (ErrorObj "SecurityError: Tainted canvases may not be exported") |}.

(** Every collaborator cooperates. *)
Definition cooperative : attemptScript :=
  {| timestampLag := 0; keyLag := 0;
     capture := ScreenshotModule.captureWithSteps sharingScreen;
     captureGuard := onTime;
     cache := CachePuts 6;
     displayMedia := Settles 700 (Resolved (Some (mkMediaStream 1)));
     displayGuard := onTime;
     clone := (1%nat, Resolved (mkMediaStream 2));
     random := 1 # 2;
     retryWait := 2000 |}.

(** As [cooperative], but the cache store throws on [put]. *)
Definition cacheBroken : attemptScript :=
  withCache (CacheThrows 2 (ErrorObj "QuotaExceededError")) cooperative.

(** The capture provider returns an empty artifact. *)
Definition emptyCapture : attemptScript :=
  {| timestampLag := 0; keyLag := 0;
     capture := ScreenshotModule.captureWithSteps noDevice;
     captureGuard := onTime;
     cache := CachePuts 6;
     displayMedia := Settles 700 (Resolved (Some (mkMediaStream 1)));
     displayGuard := onTime;
     clone := (1%nat, Resolved (mkMediaStream 2));
     random := 1 # 2;
     retryWait := 2000 |}.

(** The capture never settles; the timeout guard cuts it short. *)
Definition captureStalls : attemptScript :=
  {| timestampLag := 0; keyLag := 0;
     capture := ScreenshotModule.captureWithSteps promptIgnored;
     captureGuard := onTime;
     cache := CachePuts 6;
     displayMedia := Settles 700 (Resolved (Some (mkMediaStream 1)));
     displayGuard := onTime;
     clone := (1%nat, Resolved (mkMediaStream 2));
     random := 3 # 4;
     retryWait := 2002 |}.

(** The capture goes through, the second request for the display is
    refused by the user. *)
Definition permissionDenied : attemptScript :=
  {| timestampLag := 0; keyLag := 0;
     capture := ScreenshotModule.captureWithSteps sharingScreen;
     captureGuard := onTime;
     cache := CachePuts 6;
     displayMedia := Settles 50 (Rejected (ErrorObj "Permission denied"));
     displayGuard := onTime;
     clone := (1%nat, Resolved (mkMediaStream 2));
     random := 1 # 2;
     retryWait := 2000 |}.

(** The capture provider fails at once with a network error; the retry
    timer fires two seconds later. *)
Definition networkDown : attemptScript :=
  {| timestampLag := 0; keyLag := 0;
     capture := Settles 0 (Rejected (ErrorObj "network error"));
     captureGuard := onTime;
     cache := CacheAbsent;
     displayMedia := Settles 0 (Rejected (ErrorObj "network error"));
     displayGuard := onTime;
     clone := (1%nat, Resolved (mkMediaStream 2));
     random := 1 # 2;
     retryWait := 2000 |}.


(** Two failures on the network, then success. *)
Definition flaky (attemptNumber : Z) : attemptScript :=
  if attemptNumber <=? 2 then networkDown else cooperative.

(** Two failures on the network, then a capture without an artifact. *)
Definition emptyOnThird (attemptNumber : Z) : attemptScript :=
  if attemptNumber <=? 2 then networkDown else emptyCapture.

End Samples.

(** The instance a run leaves behind (the instance it started from if
    the run does not return). *)
Definition instanceAfter (start : OrchestratorV2.t)
    (r : run (OrchestratorV2.t * world * bool)) : OrchestratorV2.t :=
  match r with
  | Returns (o, _, _) => o
  | _ => start
  end.

Definition worldAfter (start : world)
    (r : run (OrchestratorV2.t * world * bool)) : world :=
  match r with
  | Returns (_, w, _) => w
  | _ => start
  end.

(** The cache key an attempt derives from the clock. *)
Definition keyAt (instant : Z) : string :=
  "/screenshot-" +:+ JsString.ofZ instant.


(** A heap with a history of two records, a failure and a success, and
    the instance that owns it. *)
Module HeapSamples.

Definition failedRecord : OrchestratorV2.OrchestratorContextV2 :=
  {| OrchestratorV2.attempt := 1;
     OrchestratorV2.timestamp := 1700000000000;
     OrchestratorV2.steps := ["Error: Network error"];
     OrchestratorV2.cacheKey := keyAt 1700000000000;
     OrchestratorV2.success := false;
     OrchestratorV2.durationMs := 12;
     OrchestratorV2.error := Some "Network error" |}.

Definition succeededRecord : OrchestratorV2.OrchestratorContextV2 :=
  {| OrchestratorV2.attempt := 2;
     OrchestratorV2.timestamp := 1700000000512;
     OrchestratorV2.steps :=
       ["Step 6: Screenshot cached successfully";
        "Step 7: Stream cloned and action listeners attached"];
     OrchestratorV2.cacheKey := keyAt 1700000000512;
     OrchestratorV2.success := true;
     OrchestratorV2.durationMs := 1672;
     OrchestratorV2.error := None |}.

Definition twoAttempts : JsHeap.heap OrchestratorV2.OrchestratorContextV2 :=
  {| JsHeap.arrays := {[ 1%positive := [10%positive; 11%positive] ]};
     JsHeap.objects :=
       {[ 10%positive := failedRecord; 11%positive := succeededRecord ]} |}.

Definition owner : OrchestratorV2Heap.instance :=
  {| OrchestratorV2Heap.contextRef := 1%positive;
     OrchestratorV2Heap.retryPolicyField :=
       OrchestratorV2.retryPolicy OrchestratorV2.getInstance;
     OrchestratorV2Heap.operationTimeoutField := 30000;
     OrchestratorV2Heap.metricsField :=
       {| OrchestratorV2.totalAttempts := 2;
          OrchestratorV2.successfulAttempts := 1;
          OrchestratorV2.totalTimeMs := 2184 |} |}.

(** [history[1].success = false], through any array that refers to the
    record. *)
Definition markFailed (r : OrchestratorV2.OrchestratorContextV2)
  : OrchestratorV2.OrchestratorContextV2 :=
  {| OrchestratorV2.attempt := OrchestratorV2.attempt r;
     OrchestratorV2.timestamp := OrchestratorV2.timestamp r;
     OrchestratorV2.steps := OrchestratorV2.steps r;
     OrchestratorV2.cacheKey := OrchestratorV2.cacheKey r;
     OrchestratorV2.success := false;
     OrchestratorV2.durationMs := OrchestratorV2.durationMs r;
     OrchestratorV2.error := OrchestratorV2.error r |}.

End HeapSamples.

(** ** Pipelines on which the two orchestrators can be compared *)

(** A settled operation either resolves to something that is there or is
    rejected with a description classified as retryable. *)
Definition presentOrRetryable {A : Type} (present : A -> bool)
    (r : settled A) : bool :=
  match r with
  | Resolved a => present a
  | Rejected e => OrchestratorV2.isRetryableError (errorMessage e)
  end.

(** The operation settles before the timer of its guard fires. *)
Definition settlesBefore {A : Type} (guard : guardTimer) (present : A -> bool)
    (p : async A) : bool :=
  match p with
  | Settles after r =>
      OrchestratorV2.operationFirst after guard &&
      presentOrRetryable present r
  | Hangs => false
  end.

Definition isSome {A : Type} (x : option A) : bool :=
  match x with Some _ => true | None => false end.

(** Capture and display request settle before the timers of their
    timeout guards fire, with a blob and a stream when they resolve, and
    no collaborator is rejected with a description that matches no
    retryable marker. *)
Definition comparable (a : attemptScript) : bool :=
  settlesBefore (captureGuard a) (fun c => isSome (blob c)) (capture a) &&
  settlesBefore (displayGuard a) isSome (displayMedia a) &&
  presentOrRetryable (fun _ => true) (snd (clone a)).

(** What the two kinds of record have in common for the comparison: the
    number of the attempt and whether it succeeded. *)
Definition simpleOutcome (r : Orchestrator.OrchestratorContext) : Z * bool :=
  (Orchestrator.attempt r, Orchestrator.success r).

Definition configurableOutcome (r : OrchestratorV2.OrchestratorContextV2)
  : Z * bool :=
  (OrchestratorV2.attempt r, OrchestratorV2.success r).

(** The default instance after
    [setRetryPolicy({ initialDelayMs: 1000, backoffMultiplier: 1 })]: the
    policy under which the exponential part of every delay is 1000 ms. *)
Definition withFixedDelay : OrchestratorV2.t :=
  OrchestratorV2.setRetryPolicy
    {| OrchestratorV2.maxRetries_opt := None;
       OrchestratorV2.initialDelayMs_opt := Some 1000%Q;
       OrchestratorV2.maxDelayMs_opt := None;
       OrchestratorV2.backoffMultiplier_opt := Some 1%Q |}
    OrchestratorV2.getInstance.

(** ** Measures used to state further properties *)

(** The sum of the durations recorded in a history. *)
Definition totalDuration (l : list OrchestratorV2.OrchestratorContextV2) : Z :=
  fold_right (fun r acc => OrchestratorV2.durationMs r + acc) 0 l.

(** The number of successful records of a history. *)
Definition successes (l : list OrchestratorV2.OrchestratorContextV2) : Z :=
  Z.of_nat (length (filter (fun c => OrchestratorV2.success c = true) l)).

(** The counters of the metrics agree with the history. *)
Definition countersMatchHistory (o : OrchestratorV2.t) : Prop :=
  OrchestratorV2.totalAttempts (OrchestratorV2.metrics o) =
    Z.of_nat (length (OrchestratorV2.context o)) /\
  OrchestratorV2.successfulAttempts (OrchestratorV2.metrics o) =
    successes (OrchestratorV2.context o).

(** The delay [runFlow] waits after the failed attempt a record stands
    for. *)
Definition waitAfter (p : OrchestratorV2.RetryPolicy)
    (script : Z -> attemptScript)
    (r : OrchestratorV2.OrchestratorContextV2) : JsNumber.number :=
  OrchestratorV2.calculateDelay p (OrchestratorV2.attempt r)
    (random (script (OrchestratorV2.attempt r))).

(** [{ ...first, ...second }] on two partial policies. *)
Definition spreadPartial (first second : OrchestratorV2.PartialRetryPolicy)
  : OrchestratorV2.PartialRetryPolicy :=
  let pick {A} (x y : option A) : option A :=
    match y with Some _ => y | None => x end in
  {| OrchestratorV2.maxRetries_opt :=
       pick (OrchestratorV2.maxRetries_opt first)
            (OrchestratorV2.maxRetries_opt second);
     OrchestratorV2.initialDelayMs_opt :=
       pick (OrchestratorV2.initialDelayMs_opt first)
            (OrchestratorV2.initialDelayMs_opt second);
     OrchestratorV2.maxDelayMs_opt :=
       pick (OrchestratorV2.maxDelayMs_opt first)
            (OrchestratorV2.maxDelayMs_opt second);
     OrchestratorV2.backoffMultiplier_opt :=
       pick (OrchestratorV2.backoffMultiplier_opt first)
            (OrchestratorV2.backoffMultiplier_opt second) |}.

(** The ways a run of [OrchestratorV2] ends, read off the records it
    appended: no attempt at all; or some retryable failures followed by a
    last record that is a success, a fatal failure, or the retryable
    failure that used up the budget. *)
Definition runEnding (maxRetries : Z) (returned : bool)
    (new : list OrchestratorV2.OrchestratorContextV2) : Prop :=
  (new = [] /\ returned = false /\ maxRetries <= 0) \/
  exists front r,
    new = (front ++ [r])%list /\
    Forall (fun x => outcome x = RetryableFailure) front /\
    ((returned = true /\ outcome r = Success) \/
     (returned = false /\ outcome r = FatalFailure) \/
     (returned = false /\ outcome r = RetryableFailure /\
      Z.of_nat (length new) = maxRetries)).

(** The instant of the clock reading a record's cache key was derived
    from: the reading that follows the one of the timestamp. *)
Definition keyInstant (script : Z -> attemptScript)
    (r : OrchestratorV2.OrchestratorContextV2) : Z :=
  OrchestratorV2.timestamp r +
  Z.of_nat (keyLag (script (OrchestratorV2.attempt r))).

(** The instant of the clock reading at the start of a record's
    attempt: the reading that precedes the one of the timestamp. *)
Definition attemptStart (script : Z -> attemptScript)
    (r : OrchestratorV2.OrchestratorContextV2) : Z :=
  OrchestratorV2.timestamp r -
  Z.of_nat (timestampLag (script (OrchestratorV2.attempt r))).

(** What the clock says about a record of a run that started at
    [started] and has reached [reached]. *)
Definition withinRun (script : Z -> attemptScript)
    (started reached : Z) (r : OrchestratorV2.OrchestratorContextV2) : Prop :=
  OrchestratorV2.cacheKey r = keyAt (keyInstant script r) /\
  started <= attemptStart script r /\
  0 <= OrchestratorV2.durationMs r /\
  attemptStart script r + OrchestratorV2.durationMs r <= reached.

(** A record says how the attempt it stands for ended: with the trace of
    the attempt, or with the description of what was thrown. *)
Definition recordsVerdict (o : OrchestratorV2.t) (script : Z -> attemptScript)
    (r : OrchestratorV2.OrchestratorContextV2) : Prop :=
  match verdict o (script (OrchestratorV2.attempt r)) with
  | Resolved st =>
      OrchestratorV2.success r = true /\ OrchestratorV2.steps r = st /\
      OrchestratorV2.error r = None
  | Rejected e =>
      OrchestratorV2.success r = false /\
      OrchestratorV2.steps r = ["Error: " +:+ errorMessage e] /\
      OrchestratorV2.error r = Some (errorMessage e)
  end.

(** What a run that started from [o] and [w] and returned leaves behind:
    the instance [o'], the world [w'], the value returned and the
    records appended. *)
Definition runSummary (script : Z -> attemptScript)
    (o : OrchestratorV2.t) (w : world) (o' : OrchestratorV2.t) (w' : world)
    (returned : bool) (new : list OrchestratorV2.OrchestratorContextV2)
  : Prop :=
  let policy := OrchestratorV2.retryPolicy o in
  OrchestratorV2.context o' = (OrchestratorV2.context o ++ new)%list /\
  OrchestratorV2.retryPolicy o' = policy /\
  OrchestratorV2.operationTimeout o' = OrchestratorV2.operationTimeout o /\
  Z.of_nat (length new) <= Z.max 0 (OrchestratorV2.maxRetries policy) /\
  map OrchestratorV2.attempt new = map Z.of_nat (seq 1 (length new)) /\
  OrchestratorV2.totalAttempts (OrchestratorV2.metrics o') =
    OrchestratorV2.totalAttempts (OrchestratorV2.metrics o) +
    Z.of_nat (length new) /\
  OrchestratorV2.successfulAttempts (OrchestratorV2.metrics o') =
    OrchestratorV2.successfulAttempts (OrchestratorV2.metrics o) +
    (if returned then 1 else 0) /\
  runEnding (OrchestratorV2.maxRetries policy) returned new /\
  Forall (recordsVerdict o script) new /\
  now w <= now w' /\
  Forall (withinRun script (now w) (now w')) new /\
  totalDuration new <= now w' - now w /\
  timers w' =
    (timers w ++ map (waitAfter policy script) (removelast new))%list.


(** [{}] as a partial policy. *)
Definition nothingToSet : OrchestratorV2.PartialRetryPolicy :=
  {| OrchestratorV2.maxRetries_opt := None;
     OrchestratorV2.initialDelayMs_opt := None;
     OrchestratorV2.maxDelayMs_opt := None;
     OrchestratorV2.backoffMultiplier_opt := None |}.

(** How the [try] block of an attempt of the simple orchestrator ends,
    whatever the clock shows and whatever the cache key is. *)
Definition simpleVerdict (a : attemptScript) : run (settled (list string)) :=
  match Orchestrator.pipeline a EmptyString epoch with
  | Returns (_, v) => Returns v
  | NeverSettles => NeverSettles
  | OutOfFuel => OutOfFuel
  end.

(** The instant of the clock reading a record of the simple
    orchestrator has its cache key from: the reading that follows the
    one of the timestamp. *)
Definition simpleKeyInstant (script : Z -> attemptScript)
    (r : Orchestrator.OrchestratorContext) : Z :=
  Orchestrator.timestamp r +
  Z.of_nat (keyLag (script (Orchestrator.attempt r))).

(** The delay the simple orchestrator waits after the failed attempt a
    record stands for. *)
Definition simpleWaitAfter (r : Orchestrator.OrchestratorContext)
  : JsNumber.number :=
  JsNumber.Finite (inject_Z (1000 * Orchestrator.attempt r)).

(** ** CloneStreamModule, the stream collaborator of the repository

    The module registers [keydown] handlers on the document and keeps a
    log of actions.  The page is modelled by what the module reads and
    changes of it: the focused element, the elements selectors find, the
    handlers the module has registered on the document (each call of
    [cloneAndMimic] creates a new closure, so every registration counts),
    and the clicks it has triggered.  A selector finds an element, finds
    none, or is not a valid selector, in which case [querySelector]
    throws.  Elements are taken to be in the document, so that a
    bubbling event dispatched on one of them reaches the handlers of the
    document; the page's own handlers are not modelled. *)

Module CloneStreamModule.

(** What the module reads of an element. *)
Record element : Type := mkElement {
  tagName : string;
  id : string
}.

Record ActionLog : Type := mkActionLog {
  timestamp : Z;
  action : string;
  target : option string;
  context : option (list (string * string))
}.

Inductive consoleLine : Type :=
| LogMimicClick (tag ident : string)
| LogActionLine (log : ActionLog)
| WarnNoTarget (key : string).

Record page : Type := mkPage {
  now : Z;
  activeElement : option element;
  querySelector : string -> settled (option element);
  keydownHandlers : nat;
  clicks : list element;
  console : list consoleLine
}.

Record t : Type := mkModule {
  actionLogs : list ActionLog
}.

Definition getInstance : t := {| actionLogs := [] |}.

Definition consoleWrite (l : consoleLine) (p : page) : page :=
  {| now := now p; activeElement := activeElement p;
     querySelector := querySelector p;
     keydownHandlers := keydownHandlers p; clicks := clicks p;
     console := (console p ++ [l])%list |}.

Definition addKeydownListener (p : page) : page :=
  {| now := now p; activeElement := activeElement p;
     querySelector := querySelector p;
     keydownHandlers := S (keydownHandlers p); clicks := clicks p;
     console := console p |}.

Definition click (el : element) (p : page) : page :=
  {| now := now p; activeElement := activeElement p;
     querySelector := querySelector p;
     keydownHandlers := keydownHandlers p;
     clicks := (clicks p ++ [el])%list;
     console := console p |}.

(** [el.id || el.tagName]: the empty string is falsy. *)
Definition idOrTagName (el : element) : string :=
  match id el with
  | EmptyString => tagName el
  | s => s
  end.

Definition logAction (action : string) (target : option string)
    (context : option (list (string * string))) (m : t) (p : page)
  : t * page :=
  let log := {| timestamp := now p; action := action;
                target := target; context := context |} in
  ({| actionLogs := (actionLogs m ++ [log])%list |},
   consoleWrite (LogActionLine log) p).

(** The closure [keydownHandler] of [cloneAndMimic], run on an event
    with the given key. *)
Definition keydownHandler (key : string) (m : t) (p : page) : t * page :=
  if String.eqb key "Enter" || String.eqb key " " then
    match activeElement p with
    | Some el =>
        let p := consoleWrite (LogMimicClick (tagName el) (id el)) p in
        let '(m, p) :=
          logAction "keyboard_click" (Some (idOrTagName el))
                    (Some [("key", key); ("element", tagName el)]) m p in
        (m, click el p)
    | None => (m, p)
    end
  else (m, p).

(** [cloneAndMimic(stream)]; the argument is what [stream.clone()] does.
    The clone comes first: when it throws, no handler is registered. *)
Definition cloneAndMimic (cloned : settled MediaStream) (p : page)
  : settled MediaStream * page :=
  match cloned with
  | Resolved clonedStream => (Resolved clonedStream, addKeydownListener p)
  | Rejected e => (Rejected e, p)
  end.

(** A [keydown] event that reaches the document runs the handlers
    registered there, one after the other. *)
Fixpoint dispatchKeydown (handlers : nat) (key : string) (m : t) (p : page)
  : t * page :=
  match handlers with
  | O => (m, p)
  | S handlers' =>
      let '(m, p) := keydownHandler key m p in
      dispatchKeydown handlers' key m p
  end.

(** The target [mimicKeyPress] dispatches the event on: an absent or
    empty selector is falsy and selects the focused element. *)
Definition targetOf (targetSelector : option string) (p : page)
  : settled (option element) :=
  match targetSelector with
  | None | Some EmptyString => Resolved (activeElement p)
  | Some selector => querySelector p selector
  end.

(** [mimicKeyPress(key, targetSelector?)]: how its promise settles, and
    the module and the page it leaves. *)
Definition mimicKeyPress (key : string) (targetSelector : option string)
    (m : t) (p : page) : settled unit * t * page :=
  match targetOf targetSelector p with
  | Rejected e => (Rejected e, m, p)
  | Resolved None => (Resolved tt, m, consoleWrite (WarnNoTarget key) p)
  | Resolved (Some el) =>
      let '(m, p) := dispatchKeydown (keydownHandlers p) key m p in
      let '(m, p) :=
        logAction "mimic_keypress" (Some (idOrTagName el))
                  (Some [("key", key)]) m p in
      (Resolved tt, m, p)
  end.

Definition getActionLogs (m : t) : list ActionLog := actionLogs m.

Definition clearLogs (m : t) : t := {| actionLogs := [] |}.

(** The page after a series of calls of [cloneAndMimic]. *)
Definition afterClones (cloned : list (settled MediaStream)) (p : page)
  : page :=
  fold_left (fun p c => snd (cloneAndMimic c p)) cloned p.

(** The entry a handler logs for a click on the focused element. *)
Definition clickLog (key : string) (el : element) (p : page) : ActionLog :=
  {| timestamp := now p; action := "keyboard_click";
     target := Some (idOrTagName el);
     context := Some [("key", key); ("element", tagName el)] |}.

(** The entry [mimicKeyPress] logs for its target. *)
Definition pressLog (key : string) (el : element) (p : page) : ActionLog :=
  {| timestamp := now p; action := "mimic_keypress";
     target := Some (idOrTagName el);
     context := Some [("key", key)] |}.

(** Whether the handlers react to the key. *)
Definition triggers (key : string) : bool :=
  String.eqb key "Enter" || String.eqb key " ".

End CloneStreamModule.

(** The number of calls of [cloneAndMimic] in which [stream.clone()]
    returned. *)
Definition registrations (cloned : list (settled MediaStream)) : nat :=
  length (List.filter
            (fun c => match c with Resolved _ => true | Rejected _ => false end)
            cloned).

(** A page with a focused button and a text field that the selector
    [#name] finds; [#] alone is not a selector; no handler is registered
    yet. *)
Definition pageWithButton : CloneStreamModule.page :=
  {| CloneStreamModule.now := 1700000000000;
     CloneStreamModule.activeElement :=
       Some (CloneStreamModule.mkElement "BUTTON" "");
     CloneStreamModule.querySelector :=
       fun selector =>
         if String.eqb selector "#name"
         then Resolved (Some (CloneStreamModule.mkElement "INPUT" "name"))
         else if String.eqb selector "#"
         then Rejected (ErrorObj "'#' is not a valid selector")
         else Resolved None;
     CloneStreamModule.keydownHandlers := 0;
     CloneStreamModule.clicks := [];
     CloneStreamModule.console := [] |}.

(** What an attempt puts into the cache under its key: the blob of the
    capture, when the capture hands one over before the timer of its
    guard fires and the store takes it. *)
Definition cachedBy (o : OrchestratorV2.t) (a : attemptScript) (key : string)
  : list (string * Blob) :=
  match OrchestratorV2.withTimeout (capture a)
                                   (OrchestratorV2.operationTimeout o)
                                   (captureGuard a) with
  | (_, Resolved c) =>
      match blob c, cache a with
      | Some b, CachePuts _ => [(key, b)]
      | _, _ => []
      end
  | (_, Rejected _) => []
  end.

(** A series of puts, one after the other. *)
Definition putAll (puts : list (string * Blob))
    (entries : list (string * Blob)) : list (string * Blob) :=
  fold_left (fun stored put => putEntry (fst put) (snd put) stored)
            puts entries.

(** What [cache.match(key)] finds in a store. *)
Definition cacheMatch (key : string) (entries : list (string * Blob))
  : option Blob :=
  snd <$> List.find (fun entry => String.eqb (fst entry) key) entries.

(** * Facts *)

(** ** Cache keys are injective in the clock *)

Section StringFacts.


End StringFacts.

(** ** The attempt loop of OrchestratorV2 *)

Module V2Facts.
Import OrchestratorV2.

Lemma timeout_is_retryable (ms : Z) :
  isRetryableError (errorMessage (timeoutError ms)) = true.
Proof. vm_compute. reflexivity. Qed.

Lemma pipeline_verdict o a key w : snd (pipeline o a key w) = verdict o a.
Proof.
  unfold verdict, pipeline.
  destruct (withTimeout (capture a) _ _) as [d [c|e]]; [|reflexivity].
  destruct (blob c); [|reflexivity].
  destruct (withTimeout (displayMedia a) _ _) as [d' [[s|]|e]]; try reflexivity.
  simpl. destruct (clone a) as [d'' [s'|e]]; reflexivity.
Qed.

Lemma cacheScreenshot_now store key b w :
  now w <= now (cacheScreenshot store key b w).
Proof. destruct store; simpl; lia. Qed.

Lemma cacheScreenshot_timers store key b w :
  timers (cacheScreenshot store key b w) = timers w.
Proof. destruct store; reflexivity. Qed.

Lemma pipeline_now o a key w : now w <= now (fst (pipeline o a key w)).
Proof.
  unfold pipeline.
  destruct (withTimeout (capture a) _ _) as [d [c|e]]; [|simpl; lia].
  destruct (blob c); [|simpl; lia].
  pose proof (cacheScreenshot_now (cache a) key b (elapse d w)) as Hc.
  simpl in Hc.
  destruct (withTimeout (displayMedia a) _ _) as [d' [[s|]|e]]; simpl; try lia.
  destruct (clone a) as [d'' [s'|e]]; simpl; lia.
Qed.

Lemma pipeline_timers o a key w : timers (fst (pipeline o a key w)) = timers w.
Proof.
  unfold pipeline.
  destruct (withTimeout (capture a) _ _) as [d [c|e]]; [|reflexivity].
  destruct (blob c); [|reflexivity].
  destruct (withTimeout (displayMedia a) _ _) as [d' [[s|]|e]]; simpl;
    rewrite ?cacheScreenshot_timers; try reflexivity.
  destruct (clone a) as [d'' [s'|e]]; simpl;
    rewrite ?cacheScreenshot_timers; reflexivity.
Qed.

Lemma verdict_withCache o a store : verdict o (withCache store a) = verdict o a.
Proof.
  unfold verdict, pipeline, withCache; simpl.
  destruct (withTimeout (capture a) _ _) as [d [c|e]]; [|reflexivity].
  destruct (blob c); [|reflexivity].
  destruct (withTimeout (displayMedia a) _ _) as [d' [[s|]|e]]; try reflexivity.
  simpl. destruct (clone a) as [d'' [s'|e]]; reflexivity.
Qed.

Lemma verdict_operationTimeout o o' a :
  operationTimeout o' = operationTimeout o -> verdict o' a = verdict o a.
Proof. unfold verdict, pipeline. now intros ->. Qed.

(** The policy and the timeout are not assigned during a run. *)
Lemma iteration_config a k o w o' w' s stop :
  iteration a k o w = (o', w', s, stop) ->
  retryPolicy o' = retryPolicy o /\ operationTimeout o' = operationTimeout o.
Proof.
  unfold iteration. destruct (pipeline _ _ _ _) as [w1 [steps|e]].
  - intros [= <- _ _ _]. split; reflexivity.
  - cbn [pushContext setMetrics retryPolicy operationTimeout].
    destruct (isRetryableError _ && _); [intros [= <- _ _ _]; split; reflexivity|].
    destruct (negb _); intros [= <- _ _ _]; split; reflexivity.
Qed.

(** The loop as a proof rule: an invariant [I] of the states at the
    loop head, and a postcondition for each way out. *)
Lemma attemptLoop_rule (I : Z -> t -> world -> Prop)
    (Post : t * world * Z * bool -> Prop) (script : Z -> attemptScript) :
  (forall k o w, I k o w -> ~ k < maxRetries (retryPolicy o) ->
                 Post (o, w, k, false)) ->
  (forall k o w o' w' s stop,
      I k o w -> k < maxRetries (retryPolicy o) ->
      iteration (script (k + 1)) (k + 1) o w = (o', w', s, stop) ->
      if stop || s then Post (o', w', k + 1, s) else I (k + 1) o' w') ->
  forall fuel k o w r,
    I k o w -> attemptLoop fuel script k false o w = Returns r -> Post r.
Proof.
  intros Hexit Hstep fuel.
  induction fuel as [|fuel IH]; intros k o w r HI; cbn [attemptLoop negb andb].
  - destruct (Z.ltb_spec k (maxRetries (retryPolicy o))); [discriminate|].
    intros [= <-]. apply Hexit; [assumption | lia].
  - destruct (Z.ltb_spec k (maxRetries (retryPolicy o))) as [Hlt|Hge].
    + destruct (iteration _ _ _ _) as [[[o' w'] s] stop] eqn:Hit.
      specialize (Hstep _ _ _ _ _ _ _ HI Hlt Hit).
      destruct stop; cbn [orb] in Hstep.
      * intros [= <-]. exact Hstep.
      * destruct s; cbn [orb] in Hstep.
        -- destruct fuel; cbn [attemptLoop negb andb]; intros [= <-]; exact Hstep.
        -- apply IH. exact Hstep.
    + intros [= <-]. apply Hexit; [assumption | lia].
Qed.

(** The loop returns once it is given as many iterations as the budget
    leaves. *)
Lemma attemptLoop_returns script fuel k s o w :
  (Z.to_nat (maxRetries (retryPolicy o) - k) <= fuel)%nat ->
  exists r, attemptLoop fuel script k s o w = Returns r.
Proof.
  revert k s o w.
  induction fuel as [|fuel IH]; intros k s o w Hfuel; cbn [attemptLoop].
  - destruct s; cbn [negb andb]; [eauto|].
    destruct (Z.ltb_spec k (maxRetries (retryPolicy o))); [lia | eauto].
  - destruct s; cbn [negb andb]; [eauto|].
    destruct (Z.ltb_spec k (maxRetries (retryPolicy o))); [|eauto].
    destruct (iteration _ _ _ _) as [[[o' w'] s'] stop] eqn:Hit.
    destruct stop; [eauto|].
    apply IH. apply iteration_config in Hit as [-> _]. lia.
Qed.

Lemma runFlow_returns script o w : exists r, runFlow script o w = Returns r.
Proof.
  unfold runFlow, runFlowWithin.
  destruct (attemptLoop_returns script
              (Z.to_nat (maxRetries (retryPolicy o))) 0 false o w)
    as [[[[o' w'] k] s] ->]; [lia | eauto].
Qed.
End V2Facts.

Module V2Steps.
Import OrchestratorV2 V2Facts.

(** What one iteration does, by the way its [try] block ends. *)
Lemma iteration_spec a k o w o' w' s stop :
  iteration a k o w = (o', w', s, stop) ->
  exists r,
    context o' = (context o ++ [r])%list /\
    attempt r = k /\
    timestamp r = now w + Z.of_nat (timestampLag a) /\
    cacheKey r = keyAt (timestamp r + Z.of_nat (keyLag a)) /\
    totalAttempts (metrics o') = totalAttempts (metrics o) + 1 /\
    timestamp r + Z.of_nat (keyLag a) <= now w' /\
    match verdict o a with
    | Resolved st =>
        s = true /\ stop = false /\ success r = true /\ steps r = st /\
        error r = None /\
        successfulAttempts (metrics o') = successfulAttempts (metrics o) + 1 /\
        timers w' = timers w
    | Rejected e =>
        let msg := errorMessage e in
        s = false /\ stop = negb (isRetryableError msg) /\
        success r = false /\ steps r = ["Error: " +:+ msg] /\
        error r = Some msg /\
        successfulAttempts (metrics o') = successfulAttempts (metrics o) /\
        if isRetryableError msg && (k <? maxRetries (retryPolicy o)) then
          let delayMs := calculateDelay (retryPolicy o) k (random a) in
          timers w' = (timers w ++ [delayMs])%list /\
          timestamp r + Z.of_nat (keyLag a) + Z.of_nat (retryWait a) <= now w'
        else timers w' = timers w
    end.
Proof.
  unfold iteration.
  set (o1 := setMetrics _ o).
  set (key := "/screenshot-" +:+ _).
  set (w1 := consoleWrite _ _).
  pose proof (pipeline_verdict o1 a key w1) as Hv.
  pose proof (pipeline_now o1 a key w1) as Hn.
  pose proof (pipeline_timers o1 a key w1) as Ht.
  assert (verdict o1 a = verdict o a) as Hvo by reflexivity.
  rewrite Hvo in Hv. clear Hvo.
  change (now w1) with (now w + Z.of_nat (timestampLag a) +
                        Z.of_nat (keyLag a)) in Hn.
  change (timers w1) with (timers w) in Ht.
  destruct (pipeline o1 a key w1) as [w2 v]. cbn [fst snd] in *.
  subst v. destruct (verdict o a) as [st|e].
  - intros [= <- <- <- <-]. eexists. cbn. repeat split; try reflexivity; auto.
  - cbn [pushContext setMetrics retryPolicy o1].
    destruct (isRetryableError (errorMessage e)) eqn:Hr; cbn [andb negb].
    + destruct (k <? maxRetries (retryPolicy o)) eqn:Hk.
      * intros [= <- <- <- <-]. eexists. cbn.
        repeat split; try reflexivity; cbn in *; try lia.
        all: try now rewrite Ht.
      * intros [= <- <- <- <-]. eexists. cbn.
        repeat split; try reflexivity; auto.
    + intros [= <- <- <- <-]. eexists. cbn.
      repeat split; try reflexivity; auto.
Qed.

(** A stretch of attempts that fail with retryable descriptions, within
    the budget: the loop goes through them one by one and arms a retry
    timer after each of them but the one that uses up the budget. *)
Lemma attemptLoop_through_failures (script : Z -> attemptScript) (n : nat) :
  forall (k : Z) (o : t) (w : world),
    0 <= k ->
    k + Z.of_nat n <= maxRetries (retryPolicy o) ->
    (forall j, k < j <= k + Z.of_nat n ->
       exists e, verdict o (script j) = Rejected e /\
                 isRetryableError (errorMessage e) = true) ->
    exists o' w' new,
      (forall fuel,
          attemptLoop (n + fuel) script k false o w =
          attemptLoop fuel script (k + Z.of_nat n) false o' w') /\
      context o' = (context o ++ new)%list /\
      retryPolicy o' = retryPolicy o /\
      operationTimeout o' = operationTimeout o /\
      length new = n /\
      map attempt new = map (fun i => k + Z.of_nat i) (seq 1 n) /\
      Forall (fun r => success r = false /\ outcome r = RetryableFailure) new /\
      totalAttempts (metrics o') = totalAttempts (metrics o) + Z.of_nat n /\
      successfulAttempts (metrics o') = successfulAttempts (metrics o) /\
      timers w' =
        (timers w ++
         map (waitAfter (retryPolicy o) script)
             (if k + Z.of_nat n <? maxRetries (retryPolicy o) then new
              else removelast new))%list.
Proof.
  induction n as [|n IH]; intros k o w Hk Hmax Hfail.
  - exists o, w, []. rewrite Z.add_0_r, app_nil_r.
    repeat split; try reflexivity; try constructor; try lia.
    destruct (k <? maxRetries (retryPolicy o)); cbn; now rewrite app_nil_r.
  - destruct (Hfail (k + 1)) as (e & He & Hre); [lia|].
    destruct (iteration (script (k + 1)) (k + 1) o w)
      as [[[o1 w1] s] stop] eqn:Hit.
    pose proof (iteration_config _ _ _ _ _ _ _ _ Hit) as [Hp1 Ht1].
    pose proof (iteration_spec _ _ _ _ _ _ _ _ Hit)
      as (r & Hctx & Hatt & _ & _ & Htot & _ & Hv).
    rewrite He in Hv. cbv zeta in Hv. rewrite Hre in Hv.
    cbn [negb andb] in Hv.
    destruct Hv as (-> & -> & Hs & _ & Herr & Hsuc & Htim).
    destruct (IH (k + 1) o1 w1) as
      (o' & w' & new & Hloop & Hctx' & Hp' & Ht' & Hlen & Hatts & Hall &
       Htot' & Hsuc' & Htim');
      [lia | rewrite Hp1; lia | |].
    { intros j Hj. rewrite (verdict_operationTimeout o o1) by exact Ht1.
      apply Hfail. lia. }
    exists o', w', (r :: new). split.
    { intros fuel. cbn [Nat.add attemptLoop negb andb].
      destruct (Z.ltb_spec k (maxRetries (retryPolicy o))); [|lia].
      rewrite Hit, Hloop. f_equal. lia. }
    rewrite Hctx', Hctx, <- app_assoc, Hp', Hp1, Ht', Ht1, Htot', Htot,
      Hsuc', Hsuc.
    cbn [app length map]. rewrite Hlen, Hatt, Hatts.
    split; [reflexivity|]. split; [reflexivity|]. split; [reflexivity|].
    split; [reflexivity|].
    split.
    { change (seq 1 (S n)) with (1%nat :: seq 2 n). cbn [map].
      f_equal. rewrite <- (seq_shift n 1), map_map.
      apply map_ext. intros i. lia. }
    split.
    { constructor; [|exact Hall]. split; [exact Hs|].
      unfold outcome. now rewrite Hs, Herr, Hre. }
    split; [lia|]. split; [reflexivity|].
    rewrite Htim', Hp1.
    assert (Hw : waitAfter (retryPolicy o) script r =
                 calculateDelay (retryPolicy o) (k + 1)
                                (random (script (k + 1))))
      by (unfold waitAfter; rewrite Hatt; reflexivity).
    replace (k + 1 + Z.of_nat n) with (k + Z.of_nat (S n)) by lia.
    destruct (Z.ltb_spec (k + Z.of_nat (S n)) (maxRetries (retryPolicy o)))
      as [Hlt|Hge].
    + destruct (Z.ltb_spec (k + 1) (maxRetries (retryPolicy o))); [|lia].
      destruct Htim as [-> _].
      rewrite <- app_assoc. cbn [map app]. now rewrite Hw.
    + destruct new as [|r' new].
      * cbn [removelast map]. cbn [length] in Hlen. subst n.
        destruct (Z.ltb_spec (k + 1) (maxRetries (retryPolicy o))); [lia|].
        now rewrite Htim.
      * cbn [length] in Hlen.
        destruct (Z.ltb_spec (k + 1) (maxRetries (retryPolicy o))); [|lia].
        destruct Htim as [-> _].
        change (removelast (r :: r' :: new))
          with (r :: removelast (r' :: new)).
        rewrite <- app_assoc. cbn [map app]. now rewrite Hw.
Qed.
End V2Steps.

(** ** Exhaustion of the retry budget *)

Section Exhaustion.
Import OrchestratorV2 V2Facts V2Steps Samples.

(** C1. With [maxRetries = N >= 1] and a pipeline whose every attempt
    fails with a description classified as retryable, [runFlow] makes
    exactly [N] attempts, appends exactly [N] records, numbered 1 to
    [N], each a retryable failure and none a success, and returns
    [false]. *)
Theorem runFlow_exhaustion
    (script : Z -> attemptScript) (o : t) (w : world) (N : Z) :
  maxRetries (retryPolicy o) = N ->
  1 <= N ->
  (forall k, 1 <= k <= N ->
     exists e, verdict o (script k) = Rejected e /\
               isRetryableError (errorMessage e) = true) ->
  exists o' w' new,
    runFlow script o w = Returns (o', w', false) /\
    context o' = (context o ++ new)%list /\
    Z.of_nat (length new) = N /\
    totalAttempts (metrics o') = totalAttempts (metrics o) + N /\
    successfulAttempts (metrics o') = successfulAttempts (metrics o) /\
    map attempt new = map Z.of_nat (seq 1 (Z.to_nat N)) /\
    Forall (fun r => success r = false /\ outcome r = RetryableFailure) new.
Proof.
  intros HN Hpos Hfail.
  pose (I := fun (k : Z) (o' : t) (_ : world) =>
    retryPolicy o' = retryPolicy o /\
    operationTimeout o' = operationTimeout o /\
    0 <= k <= N /\
    exists new,
      context o' = (context o ++ new)%list /\
      Z.of_nat (length new) = k /\
      totalAttempts (metrics o') = totalAttempts (metrics o) + k /\
      successfulAttempts (metrics o') = successfulAttempts (metrics o) /\
      map attempt new = map Z.of_nat (seq 1 (Z.to_nat k)) /\
      Forall (fun r => success r = false /\ outcome r = RetryableFailure) new).
  pose (Post := fun (r : t * world * Z * bool) =>
    let '(o', w', k, s) := r in s = false /\ k = N /\ I k o' w').
  assert (HI0 : I 0 o w).
  { unfold I. repeat split; try lia. exists []. rewrite app_nil_r.
    repeat split; try reflexivity; try lia. constructor. }
  unfold runFlow, runFlowWithin.
  destruct (attemptLoop_returns script
              (Z.to_nat (maxRetries (retryPolicy o))) 0 false o w)
    as [[[[o1 w1] k1] s1] Hloop]; [lia|].
  rewrite Hloop.
  assert (HP : Post (o1, w1, k1, s1)).
  { refine (attemptLoop_rule I Post script _ _ _ _ _ _ _ HI0 Hloop).
    - intros k o' w' HIk Hge. unfold Post. split; [reflexivity|].
      split; [|exact HIk].
      destruct HIk as (Hp & _ & Hk0 & _). rewrite Hp, HN in Hge. lia.
    - intros k o' w' o'' w'' s stop (Hp & Ht & Hk & new & Hctx & Hlen &
                                     Htot & Hsuc & Hatt & Hall) Hlt Hit.
      rewrite Hp, HN in Hlt.
      pose proof (iteration_config _ _ _ _ _ _ _ _ Hit) as [Hp' Ht'].
      apply iteration_spec in Hit
        as (r & Hctx' & Hr1 & _ & _ & Htot' & _ & Hv).
      rewrite (verdict_operationTimeout o o') in Hv by exact Ht.
      destruct (Hfail (k + 1)) as (e & He & Hre); [lia|].
      rewrite He in Hv. cbv zeta in Hv. rewrite Hre in Hv.
      destruct Hv as (-> & -> & Hs & _ & Herr & Hsuc' & _).
      cbn [negb orb]. unfold I.
      split; [congruence|]. split; [congruence|]. split; [lia|].
      exists (new ++ [r])%list.
      rewrite Hctx', Hctx, <- app_assoc, length_app, map_app, Hatt.
      cbn [length map].
      replace (Z.to_nat (k + 1)) with (S (Z.to_nat k)) by lia.
      rewrite seq_S, map_app. cbn [map].
      repeat split; try lia.
      + rewrite Hr1. do 2 f_equal. lia.
      + apply Forall_app. split; [exact Hall|].
        constructor; [|constructor]. split; [exact Hs|].
        unfold outcome. now rewrite Hs, Herr, Hre. }
  destruct HP as (-> & -> & _ & _ & _ & new & Hctx & Hlen & Htot & Hsuc &
                  Hatt & Hall).
  eexists _, _, new. split; [reflexivity|].
  cbn [setMetrics context metrics totalAttempts successfulAttempts].
  repeat split; assumption.
Qed.

Lemma runFlow_exhaustion_witness :
  exists o' w' new,
    runFlow (fun _ => captureStalls) getInstance startOfRun =
      Returns (o', w', false) /\
    context o' = (context getInstance ++ new)%list /\
    Z.of_nat (length new) = 3 /\
    totalAttempts (metrics o') = totalAttempts (metrics getInstance) + 3 /\
    successfulAttempts (metrics o') = successfulAttempts (metrics getInstance) /\
    map attempt new = map Z.of_nat (seq 1 (Z.to_nat 3)) /\
    Forall (fun r => success r = false /\ outcome r = RetryableFailure) new.
Proof.
  apply (runFlow_exhaustion (fun _ => captureStalls) getInstance startOfRun 3).
  - reflexivity.
  - lia.
  - intros k _. exists (timeoutError 30000). split; vm_compute; reflexivity.
Defined.
End Exhaustion.

(** ** Runs that end with their first attempt *)

Section FirstAttempt.
Import OrchestratorV2 V2Facts V2Steps Samples.

(** A run with a budget of at least one attempt that ends with its
    first iteration, by success or by [break]. *)
Lemma runFlow_first_attempt script o w o1 w1 s stop :
  1 <= maxRetries (retryPolicy o) ->
  iteration (script 1) 1 o w = (o1, w1, s, stop) ->
  stop || s = true ->
  exists o' w',
    runFlow script o w = Returns (o', w', s) /\
    context o' = context o1 /\
    totalAttempts (metrics o') = totalAttempts (metrics o1) /\
    successfulAttempts (metrics o') = successfulAttempts (metrics o1) /\
    timers w' = timers w1 /\ cachePuts w' = cachePuts w1.
Proof.
  intros Hmax Hit Hend. unfold runFlow, runFlowWithin.
  destruct (Z.to_nat (maxRetries (retryPolicy o))) as [|fuel] eqn:Hf; [lia|].
  cbn [attemptLoop negb andb].
  destruct (Z.ltb_spec 0 (maxRetries (retryPolicy o))); [|lia].
  change (0 + 1) with 1. rewrite Hit.
  destruct stop.
  - eexists _, _. split; [reflexivity|]. destruct s; repeat split; reflexivity.
  - cbn [orb] in Hend. subst s.
    destruct fuel; cbn [attemptLoop negb andb];
      eexists _, _; (split; [reflexivity|]); repeat split; reflexivity.
Qed.

(** C2. When the first attempt fails with a description that matches no
    retryable marker, [runFlow] appends exactly one record, a fatal
    failure, arms no retry timer whatever the remaining budget, and
    returns [false]. *)
Theorem runFlow_fatal_short_circuit
    (script : Z -> attemptScript) (o : t) (w : world) (e : thrown) :
  1 <= maxRetries (retryPolicy o) ->
  verdict o (script 1) = Rejected e ->
  isRetryableError (errorMessage e) = false ->
  exists o' w' r,
    runFlow script o w = Returns (o', w', false) /\
    context o' = (context o ++ [r])%list /\
    attempt r = 1 /\ success r = false /\
    error r = Some (errorMessage e) /\
    outcome r = FatalFailure /\
    totalAttempts (metrics o') = totalAttempts (metrics o) + 1 /\
    timers w' = timers w.
Proof.
  intros Hmax He Hfatal.
  destruct (iteration (script 1) 1 o w) as [[[o1 w1] s] stop] eqn:Hit.
  pose proof (iteration_spec _ _ _ _ _ _ _ _ Hit)
    as (r & Hctx & Hatt & _ & _ & Htot & _ & Hv).
  rewrite He in Hv. cbv zeta in Hv. rewrite Hfatal in Hv.
  cbn [andb negb] in Hv.
  destruct Hv as (-> & -> & Hs & _ & Herr & _ & Htim).
  destruct (runFlow_first_attempt script o w o1 w1 false true Hmax Hit eq_refl)
    as (o' & w' & Hrun & Hc' & Ht' & _ & Htim' & _).
  exists o', w', r. repeat split; try congruence.
  unfold outcome. now rewrite Hs, Herr, Hfatal.
Qed.

Lemma runFlow_fatal_short_circuit_witness :
  exists o' w' r,
    runFlow (fun _ => permissionDenied) getInstance startOfRun =
      Returns (o', w', false) /\
    context o' = (context getInstance ++ [r])%list /\
    attempt r = 1 /\ success r = false /\
    error r = Some "Permission denied" /\
    outcome r = FatalFailure /\
    totalAttempts (metrics o') = totalAttempts (metrics getInstance) + 1 /\
    timers w' = timers startOfRun.
Proof.
  apply (runFlow_fatal_short_circuit (fun _ => permissionDenied) getInstance
           startOfRun (ErrorObj "Permission denied")).
  - vm_compute. discriminate.
  - vm_compute. reflexivity.
  - vm_compute. reflexivity.
Defined.

(** C3. When the cache store throws at every attempt while the
    capture, the request for the display and the stream clone go
    through, the two guarded steps settling before the timers of their
    guards fire, [runFlow] returns [true] and appends a record with a
    success outcome, nothing having been put into the cache; and for any
    script the way an attempt ends is the same whatever the cache store
    does. *)
Theorem runFlow_cache_failure_invisible
    (script : Z -> attemptScript) (o : t) (w : world)
    (d1 d2 d3 : nat) (b : Blob) (st : list string)
    (s s' : MediaStream) :
  1 <= maxRetries (retryPolicy o) ->
  (forall k, exists d e, cache (script k) = CacheThrows d e) ->
  capture (script 1) =
    Settles d1 (Resolved {| blob := Some b; capturedSteps := st |}) ->
  operationFirst d1 (captureGuard (script 1)) = true ->
  displayMedia (script 1) = Settles d2 (Resolved (Some s)) ->
  operationFirst d2 (displayGuard (script 1)) = true ->
  clone (script 1) = (d3, Resolved s') ->
  (exists o' w' r,
     runFlow script o w = Returns (o', w', true) /\
     context o' = (context o ++ [r])%list /\
     attempt r = 1 /\ success r = true /\ error r = None /\
     outcome r = Success /\
     successfulAttempts (metrics o') = successfulAttempts (metrics o) + 1 /\
     cachePuts w' = cachePuts w) /\
  (forall a store, verdict o (withCache store a) = verdict o a).
Proof.
  intros Hmax Hcache Hcap Hd1 Hmedia Hd2 Hclone.
  split; [|intros a store; apply verdict_withCache].
  destruct (Hcache 1) as (dc & ec & Hthrows).
  edestruct (runFlow_first_attempt script o w) as
    (o' & w' & Hrun & Hc' & _ & Hsuc' & _ & Hputs);
    [exact Hmax| | |].
  { unfold iteration, pipeline.
    rewrite Hcap, Hmedia, Hthrows.
    cbn [withTimeout setMetrics operationTimeout].
    rewrite Hd1, Hd2.
    cbn [blob cloneAndMimic]. rewrite Hclone. reflexivity. }
  { reflexivity. }
  eexists o', w', _. split; [exact Hrun|].
  split; [rewrite Hc'; reflexivity|].
  repeat split; try reflexivity.
  - rewrite Hsuc'. reflexivity.
  - rewrite Hputs. reflexivity.
Qed.

Lemma runFlow_cache_failure_invisible_witness :
  (exists o' w' r,
     runFlow (fun _ => cacheBroken) getInstance startOfRun =
       Returns (o', w', true) /\
     context o' = (context getInstance ++ [r])%list /\
     attempt r = 1 /\ success r = true /\ error r = None /\
     outcome r = Success /\
     successfulAttempts (metrics o') =
       successfulAttempts (metrics getInstance) + 1 /\
     cachePuts w' = cachePuts startOfRun) /\
  (forall a store,
      verdict getInstance (withCache store a) = verdict getInstance a).
Proof.
  eapply (runFlow_cache_failure_invisible (fun _ => cacheBroken) getInstance
            startOfRun).
  - vm_compute. discriminate.
  - intros k. eexists _, _. reflexivity.
  - vm_compute. reflexivity.
  - vm_compute. reflexivity.
  - reflexivity.
  - vm_compute. reflexivity.
  - reflexivity.
Defined.
End FirstAttempt.

(** ** The backoff delay *)

Section Numbers.
Import JsNumber.
Local Open Scope Q_scope.

Lemma overflowThreshold_large : 2 < overflowThreshold.
Proof. vm_compute. reflexivity. Qed.

(** A real result of moderate size is the double itself. *)
Lemma ofQ_finite (q : Q) :
  - overflowThreshold < q -> q < overflowThreshold -> ofQ q = Finite q.
Proof.
  intros Hlo Hhi. unfold ofQ.
  destruct (Qle_bool overflowThreshold q) eqn:H1.
  - apply Qle_bool_iff in H1. lra.
  - destruct (Qle_bool q (- overflowThreshold)) eqn:H2; [|reflexivity].
    apply Qle_bool_iff in H2. lra.
Qed.

(** A result that is not negative stays as it is or overflows to the
    positive infinity. *)
Lemma ofQ_nonneg (q : Q) :
  0 <= q ->
  (q < overflowThreshold /\ ofQ q = Finite q) \/
  (overflowThreshold <= q /\ ofQ q = PosInfinity).
Proof.
  intros Hq. pose proof overflowThreshold_large as HT. unfold ofQ.
  destruct (Qle_bool overflowThreshold q) eqn:H1.
  - apply Qle_bool_iff in H1. right. split; [exact H1 | reflexivity].
  - assert (Hlt : q < overflowThreshold).
    { apply Qnot_le_lt. intros Hle. apply Qle_bool_iff in Hle. congruence. }
    left. split; [exact Hlt|].
    destruct (Qle_bool q (- overflowThreshold)) eqn:H2; [|reflexivity].
    apply Qle_bool_iff in H2. lra.
Qed.

Lemma scaleInfinity_positive (k : Q) : 0 < k -> scaleInfinity true k = PosInfinity.
Proof.
  intros Hk. unfold scaleInfinity.
  destruct (Qle_bool k 0) eqn:H; [|reflexivity].
  apply Qle_bool_iff in H. lra.
Qed.
End Numbers.

Section Backoff.
Import OrchestratorV2 JsNumber Samples.
Local Open Scope Q_scope.

(** The exponential part of the delay is finite, and at most
    [maxDelayMs], once the initial delay is positive; it is the clamped
    product unless the power itself overflows, and [maxDelayMs] when it
    does. *)
Lemma exponentialDelay_finite (p : RetryPolicy) (i : Z) :
  0 < initialDelayMs p -> initialDelayMs p <= maxDelayMs p ->
  0 < backoffMultiplier p ->
  maxDelayMs p < overflowThreshold ->
  exists base,
    exponentialDelay p i = Finite base /\
    0 < base /\ base <= maxDelayMs p /\
    (backoffMultiplier p ^ (i - 1) < overflowThreshold ->
     base == Qmin (initialDelayMs p * backoffMultiplier p ^ (i - 1))
                  (maxDelayMs p)) /\
    (overflowThreshold <= backoffMultiplier p ^ (i - 1) ->
     base == maxDelayMs p).
Proof.
  intros Hinit Hmax Hmult Hrep.
  pose proof overflowThreshold_large as HT.
  unfold exponentialDelay, pow.
  assert (Hpow : 0 < backoffMultiplier p ^ (i - 1))
    by (apply Qpower_0_lt; exact Hmult).
  destruct (Z.eqb_spec (i - 1) 0) as [Hz|Hnz].
  - (* the first attempt: the power is 1 *)
    rewrite Hz. cbn [times]. rewrite ofQ_finite by lra.
    cbn [min]. eexists. split; [reflexivity|].
    split; [apply Q.min_glb_lt; lra|]. split; [apply Q.le_min_r|].
    split; [intros _; change (backoffMultiplier p ^ 0) with 1; reflexivity|].
    change (backoffMultiplier p ^ 0) with 1. intros Hover. lra.
  - destruct (Qeq_bool (backoffMultiplier p) 0) eqn:Hm0.
    { apply Qeq_bool_iff in Hm0. lra. }
    destruct (ofQ_nonneg (backoffMultiplier p ^ (i - 1))) as [[Hlt ->]|[Hge ->]];
      [lra| |].
    + (* the power is a double *)
      cbn [times].
      destruct (ofQ_nonneg (initialDelayMs p * backoffMultiplier p ^ (i - 1)))
        as [[Hlt' ->]|[Hge' ->]]; [nra| |]; cbn [min].
      * eexists. split; [reflexivity|].
        split; [apply Q.min_glb_lt; nra|]. split; [apply Q.le_min_r|].
        split; [intros _; reflexivity | intros Hover; lra].
      * exists (maxDelayMs p). split; [reflexivity|].
        split; [lra|]. split; [lra|].
        split; [intros _; symmetry; apply Q.min_r; lra | intros _; reflexivity].
    + (* the power overflows *)
      cbn [times]. rewrite scaleInfinity_positive by exact Hinit. cbn [min].
      exists (maxDelayMs p). split; [reflexivity|].
      split; [lra|]. split; [lra|].
      split; [intros Hlt; lra | intros _; reflexivity].
Qed.

(** The jitter on a finite exponential part. *)
Lemma calculateDelay_finite (p : RetryPolicy) (i : Z) (rnd base : Q) :
  exponentialDelay p i = Finite base ->
  0 <= base -> (12 # 10) * base < overflowThreshold ->
  0 <= rnd -> rnd < 1 ->
  exists delay,
    calculateDelay p i rnd = Finite delay /\
    delay == base + base * (2 # 10) * (rnd * 2 - 1).
Proof.
  intros Hbase Hb0 Hb1 Hr0 Hr1.
  pose proof overflowThreshold_large as HT.
  unfold calculateDelay. rewrite Hbase. cbv zeta.
  cbn [times minus negate plus].
  rewrite (ofQ_finite (base * (2 # 10))) by lra.
  rewrite (ofQ_finite (rnd * 2)) by lra.
  unfold minus. cbn [negate plus]. rewrite ofQ_finite by lra.
  cbn [times]. rewrite ofQ_finite by nra.
  cbn [plus]. rewrite ofQ_finite by nra.
  eexists. split; [reflexivity|]. ring.
Qed.




End Backoff.

(** ** The metrics snapshot *)

Section MetricsSnapshot.
Import OrchestratorV2 JsNumber Samples.

(** C4 (as amended). Once at least one attempt has been counted,
    [getMetrics] reports the success rate as the percentage
    [successfulAttempts / totalAttempts * 100] and the average duration
    as [totalTimeMs / totalAttempts]. *)
Theorem getMetrics_after_attempts (o : t) :
  0 < totalAttempts (metrics o) ->
  is_finite_eq (successRate (getMetrics o))
    (inject_Z (successfulAttempts (metrics o)) /
     inject_Z (totalAttempts (metrics o)) * 100) /\
  is_finite_eq (avgTimePerAttemptMs (getMetrics o))
    (inject_Z (totalTimeMs (metrics o)) /
     inject_Z (totalAttempts (metrics o))).
Proof.
  intros Hpos. unfold getMetrics, div; cbn.
  destruct (Z.eqb_spec (totalAttempts (metrics o)) 0); [lia|].
  cbn. split; reflexivity.
Qed.

Lemma getMetrics_after_attempts_witness :
  let o := instanceAfter getInstance (runFlow flaky getInstance startOfRun) in
  is_finite_eq (successRate (getMetrics o))
    (inject_Z (successfulAttempts (metrics o)) /
     inject_Z (totalAttempts (metrics o)) * 100) /\
  is_finite_eq (avgTimePerAttemptMs (getMetrics o))
    (inject_Z (totalTimeMs (metrics o)) /
     inject_Z (totalAttempts (metrics o))).
Proof.
  apply (getMetrics_after_attempts
           (instanceAfter getInstance (runFlow flaky getInstance startOfRun))).
  vm_compute. reflexivity.
Defined.

(** On a cleared ledger both quotients are [0/0], that is [NaN], not 0;
    and after one success in three attempts the rate is a third of a
    hundred, not a third. *)
Lemma getMetrics_counterexample :
  let o := instanceAfter getInstance (runFlow flaky getInstance startOfRun) in
  (successRate (getMetrics (clearContext o)) = NaN /\
   avgTimePerAttemptMs (getMetrics (clearContext o)) = NaN /\
   ~ is_finite_eq (successRate (getMetrics (clearContext o))) 0 /\
   ~ is_finite_eq (avgTimePerAttemptMs (getMetrics (clearContext o))) 0) /\
  (totalAttempts (metrics o) = 3 /\ successfulAttempts (metrics o) = 1 /\
   ~ is_finite_eq (successRate (getMetrics o)) (1 # 3)).
Proof.
  cbv zeta. split.
  - repeat split; try reflexivity; intros [].
  - repeat split; try reflexivity. vm_compute. discriminate.
Qed.
End MetricsSnapshot.

(** ** A capture without an artifact *)

Section EmptyCapture.
Import OrchestratorV2 Samples.

(** A capture that resolves without a blob before the timer of its
    guard fires makes the attempt throw a fixed description. *)
Lemma empty_capture_verdict o a d c :
  capture a = Settles d (Resolved c) ->
  operationFirst d (captureGuard a) = true ->
  blob c = None ->
  verdict o a = Rejected (ErrorObj "Screenshot blob is null - capture failed").
Proof.
  intros Hc Hd Hb. unfold verdict, pipeline. rewrite Hc. cbn [withTimeout].
  rewrite Hd. now rewrite Hb.
Qed.

(** C6 (as amended). When the capture provider resolves without a blob
    (and without throwing, before the timer of the timeout guard fires),
    on the first attempt or after attempts that failed with retryable
    descriptions, the attempt fails with the description "Screenshot blob
    is null - capture failed"; the description matches no retryable
    marker, so the record is a fatal failure, it is the last record of
    the run, no retry timer is armed after it whatever budget remains,
    and [runFlow] returns [false]. *)
Theorem runFlow_empty_capture_is_fatal
    (script : Z -> attemptScript) (o : t) (w : world)
    (n : Z) (d : nat) (c : captured) :
  1 <= n <= maxRetries (retryPolicy o) ->
  (forall k, 1 <= k < n ->
     exists e, verdict o (script k) = Rejected e /\
               isRetryableError (errorMessage e) = true) ->
  capture (script n) = Settles d (Resolved c) ->
  operationFirst d (captureGuard (script n)) = true ->
  blob c = None ->
  isRetryableError "Screenshot blob is null - capture failed" = false /\
  exists o' w' front r,
    runFlow script o w = Returns (o', w', false) /\
    context o' = (context o ++ front ++ [r])%list /\
    Z.of_nat (length front) = n - 1 /\
    Forall (fun x => outcome x = RetryableFailure) front /\
    attempt r = n /\ success r = false /\
    error r = Some "Screenshot blob is null - capture failed" /\
    outcome r = FatalFailure /\
    totalAttempts (metrics o') = totalAttempts (metrics o) + n /\
    timers w' =
      (timers w ++ map (waitAfter (retryPolicy o) script) front)%list.
Proof.
  intros Hn Hbefore Hcap Hd Hblob.
  assert (Hfatal :
    isRetryableError "Screenshot blob is null - capture failed" = false)
    by (vm_compute; reflexivity).
  split; [exact Hfatal|].
  destruct (V2Steps.attemptLoop_through_failures script (Z.to_nat (n - 1))
              0 o w)
    as (o1 & w1 & front & Hloop & Hctx & Hp & Ht & Hlen & _ & Hall & Htot &
        _ & Htim);
    [lia | lia | intros j Hj; apply Hbefore; lia |].
  pose proof (empty_capture_verdict o1 (script n) d c Hcap Hd Hblob) as He.
  destruct (iteration (script n) n o1 w1) as [[[o2 w2] s] stop] eqn:Hit.
  pose proof (V2Steps.iteration_spec _ _ _ _ _ _ _ _ Hit)
    as (r & Hctx2 & Hatt & _ & _ & Htot2 & _ & Hv).
  rewrite He in Hv. cbv zeta in Hv. cbn [errorMessage] in Hv.
  rewrite Hfatal in Hv. cbn [andb negb] in Hv.
  destruct Hv as (-> & -> & Hs & _ & Herr & _ & Htim2).
  unfold runFlow, runFlowWithin.
  specialize (Hloop (Z.to_nat (maxRetries (retryPolicy o) - (n - 1)))).
  replace (Z.to_nat (n - 1) +
           Z.to_nat (maxRetries (retryPolicy o) - (n - 1)))%nat
    with (Z.to_nat (maxRetries (retryPolicy o))) in Hloop by lia.
  rewrite Hloop.
  destruct (Z.to_nat (maxRetries (retryPolicy o) - (n - 1))) as [|f] eqn:Hf;
    [lia|].
  cbn [attemptLoop negb andb]. rewrite Hp.
  destruct (Z.ltb_spec (0 + Z.of_nat (Z.to_nat (n - 1)))
              (maxRetries (retryPolicy o))); [|lia].
  replace (0 + Z.of_nat (Z.to_nat (n - 1)) + 1) with n by lia.
  rewrite Hit.
  eexists _, _, front, r. split; [reflexivity|].
  cbn [setMetrics context metrics totalAttempts consoleWrite timers].
  split; [now rewrite Hctx2, Hctx, app_assoc|].
  split; [lia|].
  split; [eapply Forall_impl; [exact Hall|]; cbn beta; tauto|].
  split; [exact Hatt|]. split; [exact Hs|]. split; [exact Herr|].
  split; [unfold outcome; now rewrite Hs, Herr, Hfatal|].
  split; [lia|].
  rewrite Htim2, Htim.
  destruct (Z.ltb_spec (0 + Z.of_nat (Z.to_nat (n - 1)))
              (maxRetries (retryPolicy o))) as [?|?]; [reflexivity|lia].
Qed.

Lemma runFlow_empty_capture_is_fatal_witness :
  isRetryableError "Screenshot blob is null - capture failed" = false /\
  exists o' w' front r,
    runFlow emptyOnThird getInstance startOfRun = Returns (o', w', false) /\
    context o' = (context getInstance ++ front ++ [r])%list /\
    Z.of_nat (length front) = 3 - 1 /\
    Forall (fun x => outcome x = RetryableFailure) front /\
    attempt r = 3 /\ success r = false /\
    error r = Some "Screenshot blob is null - capture failed" /\
    outcome r = FatalFailure /\
    totalAttempts (metrics o') = totalAttempts (metrics getInstance) + 3 /\
    timers w' =
      (timers startOfRun ++
       map (waitAfter (retryPolicy getInstance) emptyOnThird) front)%list.
Proof.
  eapply (runFlow_empty_capture_is_fatal emptyOnThird getInstance
            startOfRun 3).
  - vm_compute. split; discriminate.
  - intros k Hk. exists (ErrorObj "network error").
    assert (k = 1 \/ k = 2) as [-> | ->] by lia; split; vm_compute; reflexivity.
  - vm_compute. reflexivity.
  - vm_compute. reflexivity.
  - reflexivity.
Defined.

(** The capture device is missing, [captureWithSteps] resolves without a
    blob, and of a budget of three attempts [runFlow] uses one: the
    description it throws is not classified as retryable, the record is a
    fatal failure and no retry timer is armed.  The simple orchestrator,
    on the same input, makes all three attempts. *)
Lemma empty_capture_counterexample :
  let result := runFlow (fun _ => emptyCapture) getInstance startOfRun in
  let o' := instanceAfter getInstance result in
  let w' := worldAfter startOfRun result in
  (exists d c, capture emptyCapture = Settles d (Resolved c) /\ blob c = None) /\
  maxRetries (retryPolicy getInstance) = 3 /\
  (exists r,
     result = Returns (o', w', false) /\
     context o' = [r] /\
     error r = Some "Screenshot blob is null - capture failed" /\
     isRetryableError "Screenshot blob is null - capture failed" <> true /\
     outcome r <> RetryableFailure) /\
  timers w' = [] /\
  (exists o1 w1,
     Orchestrator.runFlow (fun _ => emptyCapture) Orchestrator.getInstance
                          startOfRun = Returns (o1, w1) /\
     map Orchestrator.success (Orchestrator.context o1) = [false; false; false] /\
     timers w1 = [JsNumber.Finite 1000; JsNumber.Finite 2000]).
Proof.
  cbv zeta. split; [eexists _, _; split; reflexivity|].
  split; [reflexivity|].
  split; [eexists; repeat split; try reflexivity; vm_compute; discriminate|].
  split; [reflexivity|].
  eexists _, _. repeat split; reflexivity.
Qed.
End EmptyCapture.

(** ** The trace of an attempt whose cache put failed *)

Section CacheTrace.
Import OrchestratorV2 V2Facts Samples.

(** Whatever the cache store did, the trace of an attempt that went
    through carries the line that says the screenshot was cached. *)
Lemma success_trace_has_cached_line o a st :
  verdict o a = Resolved st ->
  In "Step 6: Screenshot cached successfully" st.
Proof.
  unfold verdict, pipeline.
  destruct (withTimeout (capture a) _ _) as [d [c|e]]; [|discriminate].
  destruct (blob c); [|discriminate].
  destruct (withTimeout (displayMedia a) _ _) as [d' [[s|]|e]];
    try discriminate.
  cbn [cloneAndMimic]. destruct (clone a) as [d'' [s'|e]];
    cbn [snd]; [|discriminate].
  intros [= <-]. apply in_or_app. left. apply in_or_app. right. now left.
Qed.

(** C7 (the code at the failing input). The cache store throws on
    [put]; the attempt succeeds, nothing is in the cache, the console
    has the cache error and no "Cached screenshot at" line, and yet the
    steps of the success record contain "Step 6: Screenshot cached
    successfully", exactly as they do when the put goes through. *)
Theorem runFlow_trace_says_cached_when_put_failed :
  let failed := runFlow (fun _ => cacheBroken) getInstance startOfRun in
  let stored := runFlow (fun _ => cooperative) getInstance startOfRun in
  cache cacheBroken = CacheThrows 2 (ErrorObj "QuotaExceededError") /\
  (exists o' w' r,
     failed = Returns (o', w', true) /\
     context o' = [r] /\ success r = true /\
     In "Step 6: Screenshot cached successfully" (steps r) /\
     cachePuts w' = [] /\
     In (ErrorCacheNonFatal (ErrorObj "QuotaExceededError")) (console w') /\
     ~ In (LogCached (cacheKey r)) (console w')) /\
  map steps (context (instanceAfter getInstance failed)) =
  map steps (context (instanceAfter getInstance stored)).
Proof.
  cbv zeta. split; [reflexivity|]. split; [|reflexivity].
  eexists _, _, _. split; [reflexivity|]. split; [reflexivity|].
  split; [reflexivity|].
  split; [apply (success_trace_has_cached_line getInstance cacheBroken);
          reflexivity|].
  split; [reflexivity|].
  split; [cbn; tauto|].
  cbn. intros [H|[H|[H|[]]]]; discriminate.
Qed.
End CacheTrace.

(** ** Cache keys within a run *)

(** ** Cache keys within a run *)

Section CacheKeys.
Import OrchestratorV2 V2Facts V2Steps Samples.


End CacheKeys.

Section CacheKeysExamples.
Import OrchestratorV2 Samples.


End CacheKeysExamples.

(** ** The read accessors *)

Section Accessors.
Import OrchestratorV2 OrchestratorV2Heap JsHeap.

Lemma spread_is_new {R} (a : positive) (h : JsHeap.heap R) :
  arrays h !! (spread a h).1 = None.
Proof.
  unfold spread; cbn [fst]. apply not_elem_of_dom, is_fresh.
Qed.

Lemma spread_elsewhere {R} (a b : positive) (h : JsHeap.heap R) :
  b <> (spread a h).1 ->
  arrays (spread a h).2 !! b = arrays h !! b.
Proof. intros Hne. unfold spread; cbn. now rewrite lookup_insert_ne. Qed.

Lemma spread_elements {R} (a : positive) (h : JsHeap.heap R) :
  elements (spread a h).2 (spread a h).1 = elements h a.
Proof. unfold elements, spread; cbn. now rewrite lookup_insert_eq. Qed.

Lemma elements_elsewhere {R} (h h' : JsHeap.heap R) (a : positive) :
  arrays h' !! a = arrays h !! a -> objects h' = objects h ->
  elements h' a = elements h a.
Proof. unfold elements. now intros -> ->. Qed.

Lemma allocated_not_new {R} (a b : positive) (h : JsHeap.heap R) :
  is_Some (arrays h !! b) -> b <> (spread a h).1.
Proof.
  intros [l Hl] ->. rewrite spread_is_new in Hl. discriminate.
Qed.

(** C10. [getMetrics] and [getLastCacheKey] hand back the instance and
    the heap unchanged.  [getContext] leaves the instance, every array
    already on the heap and every record unchanged, so history, metrics,
    retry policy and operation timeout are as before; the array it
    returns is a new one with the elements of the history, and however
    the caller changes the contents of that array, the three accessors
    return afterwards what they returned before. *)
Theorem accessors_read_only (i : instance) (h : OrchestratorV2Heap.heap) :
  is_Some (arrays h !! contextRef i) ->
  (getMetrics i h).1.2 = i /\ (getMetrics i h).2 = h /\
  (getLastCacheKey i h).1.2 = i /\ (getLastCacheKey i h).2 = h /\
  let '(copy, i', h') := getContext i h in
  i' = i /\ view i' h' = view i h /\
  arrays h !! copy = None /\
  (forall a, a <> copy -> arrays h' !! a = arrays h !! a) /\
  objects h' = objects h /\
  elements h' copy = context (view i h) /\
  forall contents : list positive,
    let h'' := mutateArray copy contents h' in
    view i h'' = view i h /\
    (getMetrics i h'').1.1 = (getMetrics i h).1.1 /\
    (getLastCacheKey i h'').1.1 = (getLastCacheKey i h).1.1 /\
    let '(copy', _, h''') := getContext i h'' in
    elements h''' copy' = context (view i h).
Proof.
  intros Halloc.
  do 4 (split; [reflexivity|]).
  unfold getContext, spread.
  set (copy := fresh (dom (arrays h))).
  set (h' := {| arrays := <[copy := _]> (arrays h); objects := objects h |}).
  assert (Hnew : arrays h !! copy = None)
    by exact (spread_is_new (contextRef i) h).
  assert (Hel : elements h' copy = elements h (contextRef i))
    by exact (spread_elements (contextRef i) h).
  assert (Hother : forall b, b <> copy -> arrays h' !! b = arrays h !! b)
    by exact (fun b => spread_elsewhere (contextRef i) b h).
  assert (Hne : contextRef i <> copy)
    by exact (allocated_not_new (contextRef i) _ h Halloc).
  assert (Hview : view i h' = view i h).
  { unfold view. f_equal. apply elements_elsewhere; auto. }
  split; [reflexivity|]. split; [exact Hview|]. split; [exact Hnew|].
  split; [exact Hother|]. split; [reflexivity|]. split; [exact Hel|].
  intros contents. set (h'' := mutateArray copy contents h').
  assert (Hview' : view i h'' = view i h).
  { rewrite <- Hview. unfold view. f_equal.
    apply elements_elsewhere; [|reflexivity].
    unfold h'', mutateArray; cbn [arrays]. now rewrite lookup_insert_ne. }
  split; [exact Hview'|].
  unfold getMetrics, getLastCacheKey; cbn [fst snd]. rewrite Hview'.
  split; [reflexivity|]. split; [reflexivity|].
  change (elements (spread (contextRef i) h'').2 (spread (contextRef i) h'').1
          = context (view i h)).
  rewrite (spread_elements (contextRef i) h'').
  change (elements h'' (contextRef i)) with (context (view i h'')).
  now rewrite Hview'.
Qed.

Lemma accessors_read_only_witness :
  let i := HeapSamples.owner in
  let h := HeapSamples.twoAttempts in
  (getMetrics i h).1.2 = i /\ (getMetrics i h).2 = h /\
  (getLastCacheKey i h).1.2 = i /\ (getLastCacheKey i h).2 = h /\
  let '(copy, i', h') := getContext i h in
  i' = i /\ view i' h' = view i h /\
  arrays h !! copy = None /\
  (forall a, a <> copy -> arrays h' !! a = arrays h !! a) /\
  objects h' = objects h /\
  elements h' copy = context (view i h) /\
  forall contents : list positive,
    let h'' := mutateArray copy contents h' in
    view i h'' = view i h /\
    (getMetrics i h'').1.1 = (getMetrics i h).1.1 /\
    (getLastCacheKey i h'').1.1 = (getLastCacheKey i h).1.1 /\
    let '(copy', _, h''') := getContext i h'' in
    elements h''' copy' = context (view i h).
Proof.
  apply (accessors_read_only HeapSamples.owner HeapSamples.twoAttempts).
  eexists. reflexivity.
Defined.

(** The copy is shallow: the new array refers to the records of the
    history, and an assignment to a field of one of them shows in what
    the accessors return. *)
Lemma getContext_shares_the_records :
  let i := HeapSamples.owner in
  let h := HeapSamples.twoAttempts in
  let '(copy, _, h') := getContext i h in
  arrays h' !! copy = Some [10%positive; 11%positive] /\
  (getLastCacheKey i h').1.1 = Some (keyAt 1700000000512) /\
  (getLastCacheKey i
     (mutateObject 11 (HeapSamples.markFailed HeapSamples.succeededRecord) h')).1.1
  = None.
Proof. vm_compute. repeat split; reflexivity. Qed.
End Accessors.

(** ** The two orchestrators side by side *)

Section Variants.
Import OrchestratorV2 V2Facts V2Steps.

Local Opaque isRetryableError calculateDelay JsString.ofZ.

(** On a comparable pipeline the two loops take the same step: both
    attempts succeed, or both fail with the same description and both
    wait exactly when budget remains. *)
Lemma iterations_agree (a : attemptScript) (k : Z)
    (o1 : Orchestrator.t) (w1 : world) (o2 : t) (w2 : world) :
  comparable a = true ->
  Orchestrator.maxRetries o1 = maxRetries (retryPolicy o2) ->
  exists o1' w1' o2' w2' s r1 r2,
    Orchestrator.iteration a k o1 w1 = Returns (o1', w1', s) /\
    iteration a k o2 w2 = (o2', w2', s, false) /\
    Orchestrator.context o1' = (Orchestrator.context o1 ++ [r1])%list /\
    context o2' = (context o2 ++ [r2])%list /\
    simpleOutcome r1 = (k, s) /\ configurableOutcome r2 = (k, s) /\
    Orchestrator.maxRetries o1' = Orchestrator.maxRetries o1 /\
    retryPolicy o2' = retryPolicy o2 /\
    operationTimeout o2' = operationTimeout o2 /\
    if negb s && (k <? maxRetries (retryPolicy o2)) then
      timers w1' =
        (timers w1 ++ [JsNumber.Finite (inject_Z (1000 * k))])%list /\
      timers w2' =
        (timers w2 ++ [calculateDelay (retryPolicy o2) k (random a)])%list
    else timers w1' = timers w1 /\ timers w2' = timers w2.
Proof.
  intros Hcmp Hmax. unfold comparable in Hcmp.
  apply andb_prop in Hcmp as [Hcmp Hclone].
  apply andb_prop in Hcmp as [Hcap Hmedia].
  unfold Orchestrator.iteration, iteration, Orchestrator.pipeline, pipeline.
  cbn [setMetrics operationTimeout retryPolicy
       Orchestrator.pushContext pushContext Orchestrator.maxRetries].
  rewrite <- Hmax.
  destruct (capture a) as [d [c|e]|]; cbn [settlesBefore] in Hcap;
    [| |discriminate]; apply andb_prop in Hcap as [Hd Hcap];
    cbn [withTimeout]; rewrite Hd; cbn [presentOrRetryable] in Hcap.
  - destruct (blob c) as [b|]; [|discriminate].
    destruct (displayMedia a) as [d' [[s|]|e]|]; cbn [settlesBefore] in Hmedia;
      try discriminate; apply andb_prop in Hmedia as [Hd' Hmedia];
      cbn [withTimeout]; rewrite Hd'; cbn [presentOrRetryable isSome] in Hmedia;
      try discriminate.
    + cbn [cloneAndMimic].
      destruct (clone a) as [d'' [s'|e]]; cbn [snd presentOrRetryable] in Hclone.
      * destruct (cache a); cbn;
          eexists _, _, _, _, true, _, _; repeat split; reflexivity.
      * rewrite Hclone. cbn [andb negb].
        destruct (k <? Orchestrator.maxRetries o1) eqn:Hk;
          destruct (cache a); cbn;
          eexists _, _, _, _, false, _, _; repeat split; reflexivity.
    + rewrite Hmedia. cbn [andb negb].
      destruct (k <? Orchestrator.maxRetries o1) eqn:Hk;
        destruct (cache a); cbn;
        eexists _, _, _, _, false, _, _; repeat split; reflexivity.
  - rewrite Hcap. cbn [andb negb].
    destruct (k <? Orchestrator.maxRetries o1) eqn:Hk; cbn;
      eexists _, _, _, _, false, _, _; repeat split; reflexivity.
Qed.

Lemma simple_attemptLoop_done fuel script k o w :
  Orchestrator.attemptLoop fuel script k true o w = Returns (o, w, true).
Proof. destruct fuel; reflexivity. Qed.

Lemma attemptLoop_done fuel script k o w :
  attemptLoop fuel script k true o w = Returns (o, w, k, true).
Proof. destruct fuel; reflexivity. Qed.

(** The two loops side by side. *)
Lemma loops_agree (script : Z -> attemptScript) (fuel : nat) :
  forall (k : Z) (o1 : Orchestrator.t) (w1 : world) (o2 : t) (w2 : world),
    Orchestrator.maxRetries o1 = maxRetries (retryPolicy o2) ->
    (forall j, comparable (script j) = true) ->
    (Z.to_nat (maxRetries (retryPolicy o2) - k) <= fuel)%nat ->
    exists o1' w1' o2' w2' k' s new1 new2 waits,
      Orchestrator.attemptLoop fuel script k false o1 w1 =
        Returns (o1', w1', s) /\
      attemptLoop fuel script k false o2 w2 = Returns (o2', w2', k', s) /\
      Orchestrator.context o1' = (Orchestrator.context o1 ++ new1)%list /\
      context o2' = (context o2 ++ new2)%list /\
      map simpleOutcome new1 = map configurableOutcome new2 /\
      Orchestrator.maxRetries o1' = Orchestrator.maxRetries o1 /\
      timers w1' =
        (timers w1 ++
         map (fun j => JsNumber.Finite (inject_Z (1000 * j))) waits)%list /\
      timers w2' =
        (timers w2 ++
         map (fun j => calculateDelay (retryPolicy o2) j (random (script j)))
             waits)%list.
Proof.
  induction fuel as [|fuel IH]; intros k o1 w1 o2 w2 Hmax Hcmp Hfuel;
    cbn [Orchestrator.attemptLoop attemptLoop negb andb]; rewrite Hmax.
  - destruct (Z.ltb_spec k (maxRetries (retryPolicy o2))); [lia|].
    eexists _, _, _, _, _, _, [], [], [].
    rewrite !app_nil_r. repeat split; first [reflexivity | exact Hmax].
  - destruct (Z.ltb_spec k (maxRetries (retryPolicy o2))) as [Hlt|Hge].
    + destruct (iterations_agree (script (k + 1)) (k + 1) o1 w1 o2 w2
                  (Hcmp _) Hmax)
        as (o1' & w1' & o2' & w2' & s & r1 & r2 & Hit1 & Hit2 & Hc1 & Hc2 &
            Hr1 & Hr2 & Hm1 & Hp2 & Ht2 & Hwait).
      rewrite Hit1, Hit2.
      destruct s.
      * rewrite simple_attemptLoop_done, attemptLoop_done.
        cbn [negb andb] in Hwait. destruct Hwait as [Hw1 Hw2].
        eexists _, _, _, _, _, _, [r1], [r2], [].
        cbn [map]. rewrite !app_nil_r, Hr1, Hr2.
        repeat split; try reflexivity; try assumption; congruence.
      * destruct (IH (k + 1) o1' w1' o2' w2') as
          (o1'' & w1'' & o2'' & w2'' & k' & s' & new1 & new2 & waits &
           Hl1 & Hl2 & Hc1' & Hc2' & Hout & Hm1' & Hw1' & Hw2').
        { congruence. }
        { exact Hcmp. }
        { rewrite Hp2. lia. }
        rewrite Hl1, Hl2. rewrite Hp2 in Hw2'.
        cbn [negb andb] in Hwait.
        destruct (k + 1 <? maxRetries (retryPolicy o2));
          destruct Hwait as [Hw1 Hw2].
        -- eexists _, _, _, _, _, _, (r1 :: new1), (r2 :: new2),
             ((k + 1) :: waits).
           cbn [map]. rewrite Hr1, Hr2, Hout, Hc1', Hc2', Hc1, Hc2.
           rewrite Hw1', Hw2', Hw1, Hw2, <- !app_assoc.
           repeat split; try reflexivity. congruence.
        -- eexists _, _, _, _, _, _, (r1 :: new1), (r2 :: new2), waits.
           cbn [map]. rewrite Hr1, Hr2, Hout, Hc1', Hc2', Hc1, Hc2.
           rewrite Hw1', Hw2', Hw1, Hw2, <- !app_assoc.
           repeat split; try reflexivity. congruence.
    + eexists _, _, _, _, _, _, [], [], [].
      rewrite !app_nil_r. repeat split; first [reflexivity | exact Hmax].
Qed.

(** C9 (as amended). On pipelines in which capture and display request
    settle before the timers of their timeout guards fire, with a blob
    and a stream, and in which every rejection has a description
    classified as retryable, the simple orchestrator and the configurable
    one, given the same [maxRetries], make the same number of attempts
    with the same outcome attempt by attempt, and arm a retry timer after
    the same attempts.  The delays are not the same: [1000 * k] ms after
    attempt [k] in the simple one, [calculateDelay k] in the configurable
    one, whatever its multiplier. *)
Theorem variants_agree_on_comparable_pipelines
    (script : Z -> attemptScript)
    (o1 : Orchestrator.t) (w1 : world) (o2 : t) (w2 : world) :
  Orchestrator.maxRetries o1 = maxRetries (retryPolicy o2) ->
  (forall k, comparable (script k) = true) ->
  exists o1' w1' o2' w2' s new1 new2 waits,
    Orchestrator.runFlow script o1 w1 = Returns (o1', w1') /\
    runFlow script o2 w2 = Returns (o2', w2', s) /\
    Orchestrator.context o1' = (Orchestrator.context o1 ++ new1)%list /\
    context o2' = (context o2 ++ new2)%list /\
    map simpleOutcome new1 = map configurableOutcome new2 /\
    timers w1' =
      (timers w1 ++
       map (fun k => JsNumber.Finite (inject_Z (1000 * k))) waits)%list /\
    timers w2' =
      (timers w2 ++
       map (fun k => calculateDelay (retryPolicy o2) k (random (script k)))
           waits)%list.
Proof.
  intros Hmax Hcmp.
  unfold Orchestrator.runFlow, runFlow, Orchestrator.runFlowWithin,
    runFlowWithin.
  rewrite Hmax.
  destruct (loops_agree script (Z.to_nat (maxRetries (retryPolicy o2)))
              0 o1 w1 o2 w2 Hmax Hcmp) as
    (o1' & w1' & o2' & w2' & k' & s & new1 & new2 & waits &
     Hl1 & Hl2 & Hc1 & Hc2 & Hout & _ & Hw1 & Hw2); [lia|].
  rewrite Hl1, Hl2.
  eexists _, _, _, _, s, new1, new2, waits.
  split; [reflexivity|]. split; [reflexivity|].
  cbn [setMetrics context]. repeat split; try assumption.
  - destruct s; [exact Hw1|]. exact Hw1.
  - destruct s; [exact Hw2|]. exact Hw2.
Qed.
End Variants.

Section VariantsExamples.
Import OrchestratorV2 Samples.

Lemma variants_agree_on_comparable_pipelines_witness :
  exists o1' w1' o2' w2' s new1 new2 waits,
    Orchestrator.runFlow flaky Orchestrator.getInstance startOfRun =
      Returns (o1', w1') /\
    runFlow flaky getInstance startOfRun = Returns (o2', w2', s) /\
    Orchestrator.context o1' =
      (Orchestrator.context Orchestrator.getInstance ++ new1)%list /\
    context o2' = (context getInstance ++ new2)%list /\
    map simpleOutcome new1 = map configurableOutcome new2 /\
    timers w1' =
      (timers startOfRun ++
       map (fun k => JsNumber.Finite (inject_Z (1000 * k))) waits)%list /\
    timers w2' =
      (timers startOfRun ++
       map (fun k => calculateDelay (retryPolicy getInstance) k
                       (random (flaky k))) waits)%list.
Proof.
  apply (variants_agree_on_comparable_pipelines flaky Orchestrator.getInstance
           startOfRun getInstance startOfRun).
  - reflexivity.
  - intros k. unfold flaky. destruct (k <=? 2); vm_compute; reflexivity.
Defined.

(** The two loops apart, the configurable one under the policy with
    multiplier 1: a rejection that matches no retryable marker is
    retried by the simple loop only; with the jitter at zero the waits
    are 1000 ms each against 1000 ms and 2000 ms; and a capture that
    never settles leaves the simple run pending while the configurable
    one times out. *)
Lemma variants_counterexample :
  (backoffMultiplier (retryPolicy withFixedDelay) == 1)%Q /\
  Orchestrator.maxRetries Orchestrator.getInstance =
    maxRetries (retryPolicy withFixedDelay) /\
  (exists o1' w1' o2' w2',
     Orchestrator.runFlow (fun _ => permissionDenied)
       Orchestrator.getInstance startOfRun = Returns (o1', w1') /\
     runFlow (fun _ => permissionDenied) withFixedDelay startOfRun =
       Returns (o2', w2', false) /\
     map simpleOutcome (Orchestrator.context o1') =
       [(1, false); (2, false); (3, false)] /\
     map configurableOutcome (context o2') = [(1, false)] /\
     map simpleOutcome (Orchestrator.context o1') <>
       map configurableOutcome (context o2')) /\
  (exists o1' w1' o2' w2',
     Orchestrator.runFlow (fun _ => networkDown)
       Orchestrator.getInstance startOfRun = Returns (o1', w1') /\
     runFlow (fun _ => networkDown) withFixedDelay startOfRun =
       Returns (o2', w2', false) /\
     random networkDown = 1 # 2 /\
     timers w1' = [JsNumber.Finite 1000; JsNumber.Finite 2000] /\
     Forall2 JsNumber.same (timers w2')
             [JsNumber.Finite 1000; JsNumber.Finite 1000] /\
     ~ Forall2 JsNumber.same (timers w1') (timers w2')) /\
  (Orchestrator.runFlow (fun _ => captureStalls)
     Orchestrator.getInstance startOfRun = NeverSettles /\
   exists o2' w2',
     runFlow (fun _ => captureStalls) withFixedDelay startOfRun =
       Returns (o2', w2', false)).
Proof.
  split; [reflexivity|]. split; [reflexivity|].
  split; [|split].
  - eexists _, _, _, _. split; [vm_compute; reflexivity|].
    split; [vm_compute; reflexivity|].
    repeat split; try reflexivity. discriminate.
  - eexists _, _, _, _. split; [vm_compute; reflexivity|].
    split; [vm_compute; reflexivity|].
    split; [reflexivity|]. split; [reflexivity|].
    split.
    + repeat constructor; vm_compute; reflexivity.
    + intros H. apply Forall2_cons_1 in H as [_ H].
      apply Forall2_cons_1 in H as [H _].
      vm_compute in H. discriminate.
  - split; [vm_compute; reflexivity|].
    eexists _, _. vm_compute. reflexivity.
Qed.
End VariantsExamples.

(** ** Scenarios *)

Section Scenarios.
Import OrchestratorV2 Samples.

(** The end-to-end scenario: default policy, the capture fails with
    "network error" on attempts 1 and 2 and goes through on attempt 3.
    Three records, two retryable failures and a success; the run returns
    [true] and the last successful cache key is that of attempt 3. *)
Example end_to_end_scenario :
  exists o' w' r1 r2 r3,
    runFlow flaky getInstance startOfRun = Returns (o', w', true) /\
    context o' = [r1; r2; r3] /\
    map outcome (context o') = [RetryableFailure; RetryableFailure; Success] /\
    map attempt (context o') = [1; 2; 3] /\
    getLastCacheKey o' = Some (cacheKey r3) /\
    length (timers w') = 2%nat.
Proof.
  eexists _, _, _, _, _. split; [vm_compute; reflexivity|].
  split; [reflexivity|]. repeat split; reflexivity.
Qed.

(** A timeout of the guard is always classified as retryable: with the
    prompt never answered, every attempt of the default budget is used. *)
Example timeouts_are_retried :
  exists o' w',
    runFlow (fun _ => captureStalls) getInstance startOfRun =
      Returns (o', w', false) /\
    map error (context o') =
      [Some "Operation timeout after 30000ms";
       Some "Operation timeout after 30000ms";
       Some "Operation timeout after 30000ms"] /\
    map durationMs (context o') = [30000; 30000; 30000].
Proof.
  eexists _, _. split; [vm_compute; reflexivity|]. split; reflexivity.
Qed.
End Scenarios.

(** * Further properties of the code *)

(** ** The classifier of failure descriptions *)

Section Classifier.
Import OrchestratorV2 JsString.

Lemma append_String (c : ascii) (a b : string) :
  String c a +:+ b = String c (a +:+ b).
Proof. reflexivity. Qed.

Lemma append_empty (b : string) : "" +:+ b = b.
Proof. reflexivity. Qed.

Lemma toLowerCase_app (a b : string) :
  toLowerCase (a +:+ b) = toLowerCase a +:+ toLowerCase b.
Proof.
  induction a as [|c a IH]; [reflexivity|].
  rewrite append_String. cbn [toLowerCase].
  rewrite append_String. now rewrite IH.
Qed.

Lemma includes_unfold (s pat : string) :
  includes s pat =
  String.prefix pat s ||
  match s with EmptyString => false | String _ s' => includes s' pat end.
Proof. destruct s; reflexivity. Qed.

Lemma prefix_app (p post : string) : String.prefix p (p +:+ post) = true.
Proof.
  induction p as [|c p IH]; [rewrite append_empty; now destruct post|].
  rewrite append_String. cbn [String.prefix].
  destruct (ascii_dec c c); [exact IH | congruence].
Qed.

Lemma prefix_split (p s : string) :
  String.prefix p s = true -> exists post, s = p +:+ post.
Proof.
  revert s. induction p as [|c p IH]; intros s H.
  - exists s. reflexivity.
  - destruct s as [|c' s]; [discriminate|]. cbn [String.prefix] in H.
    destruct (ascii_dec c c') as [<-|]; [|discriminate].
    destruct (IH s H) as [post ->]. exists post. reflexivity.
Qed.

Lemma includes_app (pre p post : string) :
  includes (pre +:+ p +:+ post) p = true.
Proof.
  induction pre as [|c pre IH].
  - rewrite append_empty, includes_unfold, prefix_app. reflexivity.
  - rewrite append_String. cbn [includes]. rewrite IH. apply orb_true_r.
Qed.

Lemma includes_split (s p : string) :
  includes s p = true -> exists pre post, s = pre +:+ p +:+ post.
Proof.
  induction s as [|c s IH]; cbn [includes]; intros H.
  - rewrite orb_false_r in H. apply prefix_split in H as [post ->].
    exists "", post. reflexivity.
  - apply orb_true_iff in H as [H|H].
    + apply prefix_split in H as [post ->]. exists "", post. reflexivity.
    + destruct (IH H) as (pre & post & ->).
      exists (String c pre), post. reflexivity.
Qed.

Lemma toLowerCase_split (s a b : string) :
  toLowerCase s = a +:+ b ->
  exists s1 s2, s = s1 +:+ s2 /\ toLowerCase s1 = a /\ toLowerCase s2 = b.
Proof.
  revert s. induction a as [|c a IH]; intros s H.
  - exists "", s. repeat split. exact H.
  - destruct s as [|c' s]; [discriminate|].
    rewrite append_String in H. cbn [toLowerCase] in H.
    injection H as Hc H.
    destruct (IH s H) as (s1 & s2 & -> & <- & <-).
    exists (String c' s1), s2. repeat split.
    cbn [toLowerCase]. now rewrite Hc.
Qed.

(** A description within the Latin-1 range, as all strings of the model
    are, is classified as retryable exactly when some part of it is one
    of the five markers, letter case aside: anywhere in the text, with
    any prefix and suffix around it. *)
Theorem isRetryableError_iff_marker_inside (errorMsg : string) :
  isRetryableError errorMsg = true <->
  exists pre part post marker,
    errorMsg = pre +:+ part +:+ post /\
    In marker retryablePatterns /\
    toLowerCase part = toLowerCase marker.
Proof.
  unfold isRetryableError. rewrite existsb_exists. split.
  - intros (marker & Hin & Hinc).
    apply includes_split in Hinc as (pre' & post' & Hsplit).
    apply toLowerCase_split in Hsplit as (pre & rest & -> & _ & Hrest).
    apply toLowerCase_split in Hrest as (part & post & -> & Hpart & _).
    exists pre, part, post, marker. auto.
  - intros (pre & part & post & marker & -> & Hin & Hpart).
    exists marker. split; [exact Hin|].
    rewrite !toLowerCase_app, Hpart. apply includes_app.
Qed.
End Classifier.

(** ** The anatomy of a run *)

Section Anatomy.
Import OrchestratorV2 V2Facts V2Steps.

Lemma totalDuration_app l1 l2 :
  totalDuration (l1 ++ l2) = totalDuration l1 + totalDuration l2.
Proof.
  induction l1 as [|r l1 IH]; [reflexivity|].
  cbn [app totalDuration fold_right] in *. fold (totalDuration (l1 ++ l2)).
  fold (totalDuration l1). lia.
Qed.

Lemma withinRun_later script started reached reached' r :
  reached <= reached' ->
  withinRun script started reached r ->
  withinRun script started reached' r.
Proof.
  unfold withinRun. intros ? (? & ? & ? & ?).
  repeat split; first [assumption | lia].
Qed.

(** The record an iteration appends, and the time it accounts for: the
    attempt starts with the first clock reading of the iteration and its
    duration ends before the iteration does. *)
Lemma iteration_times a k o w :
  let '(o', w', s, stop) := iteration a k o w in
  exists r,
    context o' = (context o ++ [r])%list /\
    0 <= durationMs r /\
    now w + durationMs r <= now w' /\
    totalTimeMs (metrics o') = totalTimeMs (metrics o).
Proof.
  unfold iteration.
  set (o1 := setMetrics _ o).
  set (key := "/screenshot-" +:+ _).
  set (w1 := consoleWrite _ _).
  pose proof (pipeline_now o1 a key w1) as Hn.
  change (now w1) with (now w + Z.of_nat (timestampLag a) +
                        Z.of_nat (keyLag a)) in Hn.
  destruct (pipeline o1 a key w1) as [w2 [st|e]]; cbn [fst] in Hn.
  - eexists. cbn.
    repeat split; try reflexivity; cbn [durationMs]; lia.
  - cbn [pushContext setMetrics retryPolicy o1].
    destruct (isRetryableError (errorMessage e)); cbn [andb negb].
    + destruct (k <? maxRetries (retryPolicy o)).
      * eexists. cbn.
        repeat split; try reflexivity; cbn [durationMs]; lia.
      * eexists. cbn.
        repeat split; try reflexivity; cbn [durationMs]; lia.
    + eexists. cbn.
      repeat split; try reflexivity; cbn [durationMs]; lia.
Qed.

(** Everything one iteration does to the instance and to the world. *)
Lemma iteration_full a k o w o' w' s stop :
  iteration a k o w = (o', w', s, stop) ->
  exists r,
    context o' = (context o ++ [r])%list /\
    attempt r = k /\
    timestamp r = now w + Z.of_nat (timestampLag a) /\
    cacheKey r = keyAt (timestamp r + Z.of_nat (keyLag a)) /\
    match verdict o a with
    | Resolved st => success r = true /\ steps r = st /\ error r = None
    | Rejected e =>
        success r = false /\ steps r = ["Error: " +:+ errorMessage e] /\
        error r = Some (errorMessage e)
    end /\
    retryPolicy o' = retryPolicy o /\
    operationTimeout o' = operationTimeout o /\
    totalAttempts (metrics o') = totalAttempts (metrics o) + 1 /\
    successfulAttempts (metrics o') =
      successfulAttempts (metrics o) + (if s then 1 else 0) /\
    totalTimeMs (metrics o') = totalTimeMs (metrics o) /\
    0 <= durationMs r /\
    now w + durationMs r <= now w' /\
    outcome r =
      (if s then Success
       else if stop then FatalFailure else RetryableFailure) /\
    (s = true -> stop = false) /\
    timers w' =
      (if negb s && negb stop && (k <? maxRetries (retryPolicy o))
       then (timers w ++ [calculateDelay (retryPolicy o) k (random a)])%list
       else timers w).
Proof.
  intros Hit.
  pose proof (iteration_config _ _ _ _ _ _ _ _ Hit) as [Hp Ht].
  pose proof (iteration_times a k o w) as Htimes. rewrite Hit in Htimes.
  destruct Htimes as (r' & Hctx' & Hd0 & Hd2 & Htt).
  apply iteration_spec in Hit
    as (r & Hctx & Hatt & Hts & Hck & Htot & _ & Hv).
  assert (r' = r) as ->.
  { rewrite Hctx in Hctx'. apply app_inj_tail in Hctx' as [_ ?]. congruence. }
  exists r. do 4 (split; [assumption|]).
  destruct (verdict o a) as [st|e].
  - destruct Hv as (-> & -> & Hs & Hst & Herr & Hsuc & Htim).
    cbn [negb andb]. repeat split; try assumption; try lia.
    unfold outcome. now rewrite Hs.
  - cbv zeta in Hv.
    destruct Hv as (-> & -> & Hs & Hst & Herr & Hsuc & Htim).
    cbn [negb andb]. split; [auto|]. do 3 (split; [assumption|]).
    split; [lia|]. repeat (split; [assumption|]).
    split.
    { unfold outcome. rewrite Hs, Herr.
      destruct (isRetryableError (errorMessage e)); reflexivity. }
    split; [discriminate|].
    destruct (isRetryableError (errorMessage e)); cbn [negb andb] in *.
    + destruct (k <? maxRetries (retryPolicy o)); [apply Htim | exact Htim].
    + exact Htim.
Qed.

Lemma snoc_cases {A} (l : list A) :
  l = [] \/ exists front x, l = (front ++ [x])%list.
Proof.
  destruct l as [|x l] using rev_ind; [now left | right; eauto].
Qed.

(** The loop, from its first iteration to its exit, in one summary: the
    instance is the one the run leaves but for [totalTimeMs]. *)
Lemma attemptLoop_summary script fuel o w o' w' k s :
  attemptLoop fuel script 0 false o w = Returns (o', w', k, s) ->
  totalTimeMs (metrics o') = totalTimeMs (metrics o) /\
  exists new,
    Z.of_nat (length new) = k /\ runSummary script o w o' w' s new.
Proof.
  pose (I := fun (k : Z) (o1 : t) (w1 : world) =>
    totalTimeMs (metrics o1) = totalTimeMs (metrics o) /\
    exists new,
      Z.of_nat (length new) = k /\
      context o1 = (context o ++ new)%list /\
      retryPolicy o1 = retryPolicy o /\
      operationTimeout o1 = operationTimeout o /\
      k <= Z.max 0 (maxRetries (retryPolicy o)) /\
      map attempt new = map Z.of_nat (seq 1 (length new)) /\
      totalAttempts (metrics o1) = totalAttempts (metrics o) + k /\
      successfulAttempts (metrics o1) = successfulAttempts (metrics o) /\
      Forall (fun x => outcome x = RetryableFailure) new /\
      Forall (recordsVerdict o script) new /\
      now w <= now w1 /\
      Forall (withinRun script (now w) (now w1)) new /\
      totalDuration new <= now w1 - now w /\
      timers w1 =
        (timers w ++
         map (waitAfter (retryPolicy o) script)
             (if k <? maxRetries (retryPolicy o) then new
              else removelast new))%list).
  pose (Post := fun (r : t * world * Z * bool) =>
    let '(o1, w1, k, s) := r in
    totalTimeMs (metrics o1) = totalTimeMs (metrics o) /\
    exists new,
      Z.of_nat (length new) = k /\ runSummary script o w o1 w1 s new).
  intros Hloop.
  assert (HI0 : I 0 o w).
  { split; [reflexivity|]. exists []. rewrite app_nil_r.
    cbn [length map seq totalDuration fold_right removelast].
    destruct (0 <? maxRetries (retryPolicy o));
      cbn [map]; rewrite ?app_nil_r; repeat split; try constructor; try lia. }
  refine (attemptLoop_rule I Post script _ _ _ _ _ _ _ HI0 Hloop).
  - (* the loop is left because the budget is used up *)
    intros k1 o1 w1 (Htt & new & Hlen & Hctx & Hp & Hto & Hk & Hatt & Htot &
                     Hsuc & Hall & Hrec & Hnow & Hwithin & Hdur & Htim) Hge.
    rewrite Hp in Hge.
    split; [exact Htt|]. exists new. split; [exact Hlen|].
    destruct (Z.ltb_spec k1 (maxRetries (retryPolicy o))); [lia|].
    unfold runSummary. cbv zeta.
    repeat (split; [first [assumption | lia]|]).
    split; [|repeat split; assumption].
    destruct (snoc_cases new) as [->|(front & r & ->)].
    + left. cbn [length] in Hlen. repeat split; lia.
    + right. exists front, r. apply Forall_app in Hall as [Hfront Hr].
      apply Forall_cons_iff in Hr as [Hr _].
      split; [reflexivity|]. split; [exact Hfront|].
      right. right. repeat split; try assumption.
      rewrite length_app in *. cbn [length] in *. lia.
  - (* one more iteration *)
    intros k1 o1 w1 o2 w2 s1 stop
           (Htt & new & Hlen & Hctx & Hp & Hto & Hk & Hatt & Htot &
            Hsuc & Hall & Hrec & Hnow & Hwithin & Hdur & Htim)
           Hlt Hit.
    rewrite Hp in Hlt.
    apply iteration_full in Hit
      as (r & Hctx2 & Hr & Hts & Hck & Hv & Hp2 & Hto2 & Htot2 & Hsuc2 & Htt2 &
          Hd0 & Hd2 & Hout & Hss & Htim2).
    rewrite (verdict_operationTimeout o o1) in Hv by exact Hto.
    rewrite Hp, Hto in *.
    destruct (Z.ltb_spec k1 (maxRetries (retryPolicy o))); [|lia].
    assert (Hlen2 : Z.of_nat (length (new ++ [r])) = k1 + 1)
      by (rewrite length_app; cbn [length]; lia).
    assert (Hctx' : context o2 = (context o ++ (new ++ [r]))%list)
      by (rewrite Hctx2, Hctx, <- app_assoc; reflexivity).
    assert (Hatt' : map attempt (new ++ [r]) =
                    map Z.of_nat (seq 1 (length (new ++ [r])))).
    { rewrite length_app. cbn [length]. rewrite Nat.add_1_r, seq_S, !map_app.
      cbn [map]. rewrite Hatt, Hr. do 2 f_equal. lia. }
    assert (Hnow2 : now w <= now w2) by lia.
    assert (Hwithin' :
      Forall (withinRun script (now w) (now w2)) (new ++ [r])).
    { apply Forall_app. split.
      - eapply Forall_impl; [exact Hwithin|]. cbn beta. intros x.
        apply withinRun_later. lia.
      - constructor; [|constructor]. unfold withinRun, keyInstant, attemptStart.
        rewrite Hr. split; [exact Hck|]. rewrite Hts. lia. }
    assert (Hrec' : Forall (recordsVerdict o script) (new ++ [r])).
    { apply Forall_app. split; [exact Hrec|]. constructor; [|constructor].
      unfold recordsVerdict. rewrite Hr. exact Hv. }
    assert (Hdur' : totalDuration (new ++ [r]) <= now w2 - now w).
    { rewrite totalDuration_app. cbn [totalDuration fold_right]. lia. }
    destruct (stop || s1) eqn:Hend.
    + (* success or break *)
      split; [congruence|]. exists (new ++ [r])%list. split; [exact Hlen2|].
      unfold runSummary. cbv zeta.
      split; [exact Hctx'|]. split; [congruence|]. split; [congruence|].
      split; [lia|]. split; [exact Hatt'|]. split; [lia|].
      split; [rewrite Hsuc2, Hsuc; reflexivity|].
      split.
      { right. exists new, r. split; [reflexivity|]. split; [exact Hall|].
        destruct s1; [left; auto|].
        destruct stop; [right; left; auto | discriminate]. }
      split; [exact Hrec'|].
      split; [exact Hnow2|]. split; [exact Hwithin'|].
      split; [exact Hdur'|].
      rewrite removelast_last, Htim2, Htim.
      destruct s1; [cbn [negb andb] in *; reflexivity|].
      destruct stop; [|discriminate].
      cbn [negb andb] in *. reflexivity.
    + apply orb_false_iff in Hend as [-> ->]. cbn [negb andb] in Htim2.
      split; [congruence|]. exists (new ++ [r])%list.
      split; [exact Hlen2|]. split; [exact Hctx'|].
      split; [congruence|]. split; [congruence|]. split; [lia|].
      split; [exact Hatt'|]. split; [lia|].
      split; [rewrite Hsuc2, Hsuc; lia|].
      split; [apply Forall_app; split; [exact Hall|];
              constructor; [exact Hout|constructor]|].
      split; [exact Hrec'|].
      split; [exact Hnow2|]. split; [exact Hwithin'|].
      split; [exact Hdur'|].
      rewrite Htim2, Htim.
      destruct (k1 + 1 <? maxRetries (retryPolicy o)).
      * rewrite map_app, app_assoc. cbn [map]. unfold waitAfter at 3.
        rewrite Hr. reflexivity.
      * rewrite removelast_last. reflexivity.
Qed.
End Anatomy.

(** ** What a run leaves behind *)

Section RunSummary.
Import OrchestratorV2 V2Facts V2Steps.

(** [runFlow] returns, and what it leaves is summarised by [runSummary];
    [totalTimeMs] is the time the run took. *)
Lemma runFlow_summary script o w :
  exists o' w' s new,
    runFlow script o w = Returns (o', w', s) /\
    runSummary script o w o' w' s new /\
    totalTimeMs (metrics o') = now w' - now w.
Proof.
  unfold runFlow, runFlowWithin.
  destruct (attemptLoop_returns script
              (Z.to_nat (maxRetries (retryPolicy o))) 0 false o w)
    as [[[[o1 w1] k1] s1] Hloop]; [lia|].
  rewrite Hloop.
  apply attemptLoop_summary in Hloop as (_ & new & _ & Hsum).
  eexists _, _, s1, new. split; [reflexivity|].
  unfold runSummary in *. cbv zeta in *.
  cbn [setMetrics context retryPolicy operationTimeout metrics totalAttempts
       successfulAttempts totalTimeMs].
  destruct Hsum as (H1 & H2 & H3 & H4 & H5 & H6 & H7 & H8 & H9 & H10 & H11 &
                    H12 & H13).
  destruct s1; cbn [consoleWrite now timers];
    (split; [|reflexivity]); repeat split; assumption.
Qed.

Lemma outcome_Success r : outcome r = Success <-> success r = true.
Proof.
  unfold outcome. destruct (success r); [tauto|].
  destruct (error r) as [msg|]; [destruct (isRetryableError msg)|];
    split; discriminate.
Qed.

Lemma not_Success_failed r : outcome r <> Success -> success r = false.
Proof.
  intros H. destruct (success r) eqn:Hs; [|reflexivity].
  exfalso. apply H. now apply outcome_Success.
Qed.

Lemma successes_app l1 l2 : successes (l1 ++ l2) = successes l1 + successes l2.
Proof.
  unfold successes. rewrite filter_app, length_app. lia.
Qed.

Lemma successes_failures l :
  Forall (fun x => outcome x = RetryableFailure) l -> successes l = 0.
Proof.
  unfold successes. induction 1 as [|r l Hr _ IH]; [reflexivity|].
  rewrite filter_cons.
  destruct (decide (success r = true)) as [Hs|_]; [|exact IH].
  apply outcome_Success in Hs. congruence.
Qed.

Lemma successes_ending maxRetries s new :
  runEnding maxRetries s new -> successes new = if s then 1 else 0.
Proof.
  intros [(-> & -> & _)|(front & r & -> & Hfront & Hlast)]; [reflexivity|].
  rewrite successes_app, (successes_failures front Hfront).
  unfold successes. cbn [filter]. rewrite filter_cons, filter_nil.
  destruct Hlast as [(-> & Hr)|[(-> & Hr)|(-> & Hr & _)]].
  - apply outcome_Success in Hr.
    destruct (decide (success r = true)); [reflexivity | contradiction].
  - destruct (decide (success r = true)) as [Hs|]; [|reflexivity].
    apply outcome_Success in Hs. congruence.
  - destruct (decide (success r = true)) as [Hs|]; [|reflexivity].
    apply outcome_Success in Hs. congruence.
Qed.
End RunSummary.

(** ** Properties of every run *)

Section EveryRun.
Import OrchestratorV2 V2Facts V2Steps Samples.

(** Whatever the capture and the request for the display do, also when
    they never settle (the cache store and the stream clone, which no
    timeout guards, are taken to settle), [runFlow] returns; it only
    appends to the history, at most [maxRetries] records numbered from 1,
    counts each of them in [totalAttempts], and leaves the retry policy
    and the operation timeout as they were. *)
Theorem runFlow_appends_within_budget
    (script : Z -> attemptScript) (o : t) (w : world) :
  exists o' w' s new,
    runFlow script o w = Returns (o', w', s) /\
    context o' = (context o ++ new)%list /\
    Z.of_nat (length new) <= Z.max 0 (maxRetries (retryPolicy o)) /\
    map attempt new = map Z.of_nat (seq 1 (length new)) /\
    totalAttempts (metrics o') =
      totalAttempts (metrics o) + Z.of_nat (length new) /\
    retryPolicy o' = retryPolicy o /\
    operationTimeout o' = operationTimeout o.
Proof.
  destruct (runFlow_summary script o w) as (o' & w' & s & new & Hrun & Hsum & _).
  exists o', w', s, new. unfold runSummary in Hsum. cbv zeta in Hsum.
  destruct Hsum as (Hctx & Hp & Hto & Hlen & Hatt & Htot & _).
  repeat split; assumption.
Qed.

(** A run ends in one of three ways: with a success, with a fatal
    failure, or with the budget used up.  Every record before the last
    is a retryable failure, and the run returns [true] exactly when its
    last record is a success. *)
Theorem runFlow_ends_in_one_of_three_ways
    (script : Z -> attemptScript) (o : t) (w : world) :
  exists o' w' s new,
    runFlow script o w = Returns (o', w', s) /\
    context o' = (context o ++ new)%list /\
    runEnding (maxRetries (retryPolicy o)) s new /\
    (s = true <-> exists r, last new = Some r /\ success r = true).
Proof.
  destruct (runFlow_summary script o w) as (o' & w' & s & new & Hrun & Hsum & _).
  exists o', w', s, new. unfold runSummary in Hsum. cbv zeta in Hsum.
  destruct Hsum as (Hctx & _ & _ & _ & _ & _ & _ & Hend & _).
  repeat (split; [assumption|]).
  destruct Hend as [(-> & -> & _)|(front & r & -> & Hfront & Hlast)].
  - split; [discriminate|]. intros (r & Hr & _). discriminate.
  - rewrite last_snoc. split.
    + intros ->. exists r. split; [reflexivity|].
      destruct Hlast as [(_ & Hr)|[(Hs & _)|(Hs & _)]]; try discriminate.
      now apply outcome_Success.
    + intros (r' & [= <-] & Hs).
      destruct Hlast as [(-> & _)|[(_ & Hr)|(_ & Hr & _)]]; [reflexivity| |];
        apply outcome_Success in Hs; congruence.
Qed.

(** Every record says how its attempt ended: a success carries the trace
    of the collaborators, a failure the description of what was thrown;
    and the cache key is derived from the clock reading that follows the
    one of the timestamp. *)
Theorem runFlow_records_what_happened
    (script : Z -> attemptScript) (o : t) (w : world) :
  exists o' w' s new,
    runFlow script o w = Returns (o', w', s) /\
    context o' = (context o ++ new)%list /\
    Forall (fun r =>
              recordsVerdict o script r /\
              cacheKey r =
                keyAt (timestamp r + Z.of_nat (keyLag (script (attempt r)))))
           new.
Proof.
  destruct (runFlow_summary script o w) as (o' & w' & s & new & Hrun & Hsum & _).
  exists o', w', s, new. unfold runSummary in Hsum. cbv zeta in Hsum.
  destruct Hsum as (Hctx & _ & _ & _ & _ & _ & _ & _ & Hrec & _ & Hwithin & _).
  repeat (split; [assumption|]).
  rewrite Forall_forall in *. intros r Hin. split; [auto|].
  apply Hwithin in Hin as (Hkey & _). exact Hkey.
Qed.

End EveryRun.

(** ** Counters, last cache key and clearing *)

Section Ledger.
Import OrchestratorV2 V2Facts V2Steps Samples.

(** The counters of the metrics agree with the history on a new instance
    and after [clearContext], and a run keeps them in agreement:
    [totalAttempts] is the number of records and [successfulAttempts] the
    number of successful ones. *)
Theorem runFlow_keeps_counters_in_step
    (script : Z -> attemptScript) (o : t) (w : world) :
  countersMatchHistory o ->
  countersMatchHistory getInstance /\
  countersMatchHistory (clearContext o) /\
  exists o' w' s,
    runFlow script o w = Returns (o', w', s) /\
    countersMatchHistory o'.
Proof.
  intros [Htot Hsuc].
  split; [split; reflexivity|]. split; [split; reflexivity|].
  destruct (runFlow_summary script o w) as (o' & w' & s & new & Hrun & Hsum & _).
  exists o', w', s. split; [exact Hrun|].
  unfold runSummary in Hsum. cbv zeta in Hsum.
  destruct Hsum as (Hctx & _ & _ & _ & _ & Htot' & Hsuc' & Hend & _).
  unfold countersMatchHistory.
  rewrite Hctx, length_app, successes_app, Htot', Hsuc', Htot, Hsuc.
  rewrite (successes_ending _ _ _ Hend). split; lia.
Qed.

Lemma runFlow_keeps_counters_in_step_witness :
  countersMatchHistory getInstance /\
  countersMatchHistory (clearContext getInstance) /\
  exists o' w' s,
    runFlow flaky getInstance startOfRun = Returns (o', w', s) /\
    countersMatchHistory o'.
Proof.
  apply (runFlow_keeps_counters_in_step flaky getInstance startOfRun).
  split; reflexivity.
Defined.

Lemma successes_le_length l : 0 <= successes l <= Z.of_nat (length l).
Proof.
  unfold successes. split; [lia|].
  apply inj_le. induction l as [|r l IH]; [reflexivity|].
  rewrite filter_cons. destruct (decide (success r = true)); cbn [length]; lia.
Qed.

(** When the counters agree with a history that is not empty, the
    success rate is a number between 0 and 100. *)
Theorem successRate_is_a_percentage (o : t) :
  countersMatchHistory o ->
  context o <> [] ->
  exists q, successRate (getMetrics o) = JsNumber.Finite q /\
            (0 <= q)%Q /\ (q <= 100)%Q.
Proof.
  intros [Htot Hsuc] Hne.
  pose proof (successes_le_length (context o)) as [Hs0 Hs1].
  assert (Hpos : 0 < totalAttempts (metrics o)).
  { rewrite Htot. destruct (context o); [contradiction|cbn [length]; lia]. }
  unfold getMetrics, JsNumber.div. cbn [successRate JsNumber.mul].
  destruct (Z.eqb_spec (totalAttempts (metrics o)) 0); [lia|].
  cbn [JsNumber.mul]. eexists. split; [reflexivity|].
  rewrite Hsuc, Htot in *.
  set (a := inject_Z (successes (context o))).
  set (b := inject_Z (Z.of_nat (length (context o)))).
  assert (Ha : (0 <= a)%Q) by (unfold a; rewrite <- (Zle_Qle 0); exact Hs0).
  assert (Hab : (a <= b)%Q) by (unfold a, b; rewrite <- Zle_Qle; exact Hs1).
  assert (Hb : (0 < b)%Q) by (unfold b; rewrite <- (Zlt_Qlt 0); exact Hpos).
  assert (H0 : (0 <= a / b)%Q)
    by (apply Qle_shift_div_l; [exact Hb | lra]).
  assert (H1 : (a / b <= 1)%Q)
    by (apply Qle_shift_div_r; [exact Hb | lra]).
  split; lra.
Qed.

Lemma successRate_is_a_percentage_witness :
  let o := instanceAfter getInstance (runFlow flaky getInstance startOfRun) in
  exists q, successRate (getMetrics o) = JsNumber.Finite q /\
            (0 <= q)%Q /\ (q <= 100)%Q.
Proof.
  apply (successRate_is_a_percentage
           (instanceAfter getInstance (runFlow flaky getInstance startOfRun))).
  - split; reflexivity.
  - vm_compute. discriminate.
Defined.


End Ledger.

(** ** Success after retries, and the last successful cache key *)

Section SuccessAfterRetries.
Import OrchestratorV2 V2Facts V2Steps Samples.

(** [getLastCacheKey] is the key of the last successful record. *)
Lemma getLastCacheKey_last o :
  getLastCacheKey o =
  cacheKey <$> last (filter (fun c => success c = true) (context o)).
Proof.
  unfold getLastCacheKey.
  destruct (filter _ (context o)) as [|r l]; [reflexivity|].
  rewrite bool_decide_eq_true_2 by (cbn [length]; lia). reflexivity.
Qed.

Lemma getLastCacheKey_snoc o l r :
  context o = (l ++ [r])%list ->
  getLastCacheKey o =
  if success r then Some (cacheKey r)
  else cacheKey <$> last (filter (fun c => success c = true) l).
Proof.
  intros Hctx. rewrite getLastCacheKey_last, Hctx, filter_app.
  rewrite filter_cons, filter_nil.
  destruct (success r) eqn:Hs.
  - rewrite decide_True by reflexivity. now rewrite last_snoc.
  - rewrite decide_False by discriminate. now rewrite app_nil_r.
Qed.

(** When the attempts before the [n]-th fail with retryable descriptions
    and the [n]-th goes through, within the budget, [runFlow] returns
    [true] after exactly [n] attempts: [n - 1] retryable failures, each
    followed by its backoff wait, then the success, whose cache key
    [getLastCacheKey] returns. *)
Theorem runFlow_succeeds_on_attempt
    (script : Z -> attemptScript) (o : t) (w : world)
    (n : Z) (st : list string) :
  1 <= n <= maxRetries (retryPolicy o) ->
  (forall k, 1 <= k < n ->
     exists e, verdict o (script k) = Rejected e /\
               isRetryableError (errorMessage e) = true) ->
  verdict o (script n) = Resolved st ->
  exists o' w' front r,
    runFlow script o w = Returns (o', w', true) /\
    context o' = (context o ++ front ++ [r])%list /\
    Z.of_nat (length front) = n - 1 /\
    Forall (fun x => outcome x = RetryableFailure) front /\
    attempt r = n /\ success r = true /\ steps r = st /\
    getLastCacheKey o' = Some (cacheKey r) /\
    successfulAttempts (metrics o') = successfulAttempts (metrics o) + 1 /\
    timers w' =
      (timers w ++ map (waitAfter (retryPolicy o) script) front)%list.
Proof.
  intros Hn Hfail Hok.
  pose (I := fun (k : Z) (o1 : t) (w1 : world) =>
    0 <= k < n /\
    retryPolicy o1 = retryPolicy o /\
    operationTimeout o1 = operationTimeout o /\
    successfulAttempts (metrics o1) = successfulAttempts (metrics o) /\
    exists front,
      context o1 = (context o ++ front)%list /\
      Z.of_nat (length front) = k /\
      Forall (fun x => outcome x = RetryableFailure) front /\
      timers w1 =
        (timers w ++ map (waitAfter (retryPolicy o) script) front)%list).
  pose (Post := fun (res : t * world * Z * bool) =>
    let '(o1, w1, k, s) := res in
    s = true /\
    successfulAttempts (metrics o1) = successfulAttempts (metrics o) + 1 /\
    exists front r,
      context o1 = (context o ++ front ++ [r])%list /\
      Z.of_nat (length front) = n - 1 /\
      Forall (fun x => outcome x = RetryableFailure) front /\
      attempt r = n /\ success r = true /\ steps r = st /\
      timers w1 =
        (timers w ++ map (waitAfter (retryPolicy o) script) front)%list).
  assert (HI0 : I 0 o w).
  { unfold I. repeat split; try lia. exists []. rewrite !app_nil_r.
    repeat split. constructor. }
  unfold runFlow, runFlowWithin.
  destruct (attemptLoop_returns script
              (Z.to_nat (maxRetries (retryPolicy o))) 0 false o w)
    as [[[[o1 w1] k1] s1] Hloop]; [lia|].
  rewrite Hloop.
  assert (HP : Post (o1, w1, k1, s1)).
  { refine (attemptLoop_rule I Post script _ _ _ _ _ _ _ HI0 Hloop).
    - intros k o2 w2 (Hk & Hp & _) Hge. rewrite Hp in Hge. lia.
    - intros k o2 w2 o3 w3 s stop
             (Hk & Hp & Hto & Hsuc & front & Hctx & Hlen & Hall & Htim)
             Hlt Hit.
      apply iteration_full in Hit
        as (r & Hctx3 & Hr & _ & _ & Hv & Hp3 & Hto3 & _ & Hsuc3 & _ & _ &
            _ & Hout & Hss & Htim3).
      rewrite (verdict_operationTimeout o o2) in Hv by exact Hto.
      rewrite Hp in *.
      destruct (Z.eq_dec (k + 1) n) as [Heq|Hne].
      + (* the attempt that goes through *)
        rewrite Heq, Hok in Hv. destruct Hv as (Hs & Hst & _).
        assert (s = true) as ->.
        { destruct s; [reflexivity|]. exfalso.
          assert (outcome r = Success) by (now apply outcome_Success).
          destruct stop; congruence. }
        rewrite (Hss eq_refl) in *. cbn [orb negb andb] in *.
        split; [reflexivity|]. split; [lia|].
        exists front, r. rewrite Hctx3, Hctx, <- app_assoc.
        repeat split; try assumption; try lia. congruence.
      + (* a retryable failure before it *)
        destruct (Hfail (k + 1)) as (e & He & Hre); [lia|].
        rewrite He in Hv. destruct Hv as (Hs & _ & Herr).
        assert (Hrf : outcome r = RetryableFailure)
          by (unfold outcome; now rewrite Hs, Herr, Hre).
        assert (s = false) as ->.
        { destruct s; [|reflexivity]. congruence. }
        assert (stop = false) as ->.
        { destruct stop; [|reflexivity]. congruence. }
        cbn [orb negb andb] in *.
        destruct (Z.ltb_spec (k + 1) (maxRetries (retryPolicy o))); [|lia].
        unfold I. split; [lia|]. split; [congruence|]. split; [congruence|].
        split; [lia|].
        exists (front ++ [r])%list.
        assert (Hw : waitAfter (retryPolicy o) script r =
                     calculateDelay (retryPolicy o) (k + 1)
                                    (random (script (k + 1))))
          by (unfold waitAfter; rewrite Hr; reflexivity).
        rewrite Hctx3, Hctx, <- app_assoc, length_app, map_app, Htim3, Htim.
        cbn [length map]. rewrite Hw, <- app_assoc.
        repeat split; try lia.
        apply Forall_app. split; [exact Hall|].
        constructor; [exact Hrf|constructor]. }
  destruct HP as (-> & Hsuc & front & r & Hctx & Hlen & Hall & Hr & Hs & Hst &
                  Htim).
  eexists _, _, front, r. split; [reflexivity|].
  cbn [setMetrics context metrics successfulAttempts].
  repeat split; try assumption.
  erewrite getLastCacheKey_snoc.
  - rewrite Hs. reflexivity.
  - cbn [setMetrics context]. rewrite Hctx, app_assoc. reflexivity.
Qed.

Lemma runFlow_succeeds_on_attempt_witness :
  exists o' w' front r,
    runFlow flaky getInstance startOfRun = Returns (o', w', true) /\
    context o' = (context getInstance ++ front ++ [r])%list /\
    Z.of_nat (length front) = 3 - 1 /\
    Forall (fun x => outcome x = RetryableFailure) front /\
    attempt r = 3 /\ success r = true /\
    steps r =
      ["Step 1: Request screen capture permission";
       "Step 2: Capture video track from stream";
       "Step 3: Grab frame from video track";
       "Step 4: Draw frame onto canvas with verification marker";
       "Step 5: Convert canvas to Blob for storage";
       "Step 6: Screenshot cached successfully";
       "Step 7: Stream cloned and action listeners attached"] /\
    getLastCacheKey o' = Some (cacheKey r) /\
    successfulAttempts (metrics o') =
      successfulAttempts (metrics getInstance) + 1 /\
    timers w' =
      (timers startOfRun ++
       map (waitAfter (retryPolicy getInstance) flaky) front)%list.
Proof.
  apply (runFlow_succeeds_on_attempt flaky getInstance startOfRun 3).
  - vm_compute. split; discriminate.
  - intros k Hk. exists (ErrorObj "network error").
    assert (k = 1 \/ k = 2) as [-> | ->] by lia; split; vm_compute; reflexivity.
  - vm_compute. reflexivity.
Defined.
End SuccessAfterRetries.

Section LastKeyAndClearing.
Import OrchestratorV2 V2Facts V2Steps Samples.

Lemma no_success_among_failures l :
  Forall (fun x => outcome x <> Success) l ->
  filter (fun c => success c = true) l = [].
Proof.
  induction 1 as [|r l Hr _ IH]; [reflexivity|].
  rewrite filter_cons, IH.
  destruct (decide (success r = true)) as [Hs|]; [|reflexivity].
  apply outcome_Success in Hs. contradiction.
Qed.

(** [getLastCacheKey] after a run: the key of the run's last attempt
    when the run returned [true], derived from the clock reading that
    follows the one of its timestamp, and what it was before the run
    when the run returned [false]. *)
Theorem getLastCacheKey_after_run
    (script : Z -> attemptScript) (o : t) (w : world) :
  exists o' w' s new,
    runFlow script o w = Returns (o', w', s) /\
    context o' = (context o ++ new)%list /\
    getLastCacheKey o' =
      (if s then cacheKey <$> last new else getLastCacheKey o) /\
    (s = true ->
     exists r, last new = Some r /\
               cacheKey r =
                 keyAt (timestamp r + Z.of_nat (keyLag (script (attempt r))))).
Proof.
  destruct (runFlow_summary script o w) as (o' & w' & s & new & Hrun & Hsum & _).
  exists o', w', s, new. unfold runSummary in Hsum. cbv zeta in Hsum.
  destruct Hsum as (Hctx & _ & _ & _ & _ & _ & _ & Hend & _ & _ & Hwithin & _).
  repeat (split; [assumption|]).
  destruct Hend as [(-> & -> & _)|(front & r & -> & Hfront & Hlast)].
  - split; [|discriminate].
    rewrite !getLastCacheKey_last, Hctx, app_nil_r. reflexivity.
  - apply Forall_app in Hwithin as [_ Hr].
    apply Forall_cons_iff in Hr as [(Hkey & _) _].
    rewrite last_snoc.
    destruct Hlast as [(-> & Hr)|[(-> & Hr)|(-> & Hr & _)]].
    + split; [|intros _; exists r; auto].
      apply outcome_Success in Hr.
      rewrite (getLastCacheKey_snoc o' (context o ++ front) r)
        by (rewrite Hctx, app_assoc; reflexivity).
      now rewrite Hr.
    + split; [|discriminate].
      rewrite !getLastCacheKey_last, Hctx, filter_app.
      rewrite (no_success_among_failures (front ++ [r])), app_nil_r;
        [reflexivity|].
      apply Forall_app. split.
      * eapply Forall_impl; [exact Hfront|]. cbn beta. congruence.
      * constructor; [congruence|constructor].
    + split; [|discriminate].
      rewrite !getLastCacheKey_last, Hctx, filter_app.
      rewrite (no_success_among_failures (front ++ [r])), app_nil_r;
        [reflexivity|].
      apply Forall_app. split.
      * eapply Forall_impl; [exact Hfront|]. cbn beta. congruence.
      * constructor; [congruence|constructor].
Qed.

(** [clearContext] forgets a run altogether: clearing after the run
    gives the instance that clearing before it gives, with an empty
    history, no last cache key, and the retry policy and the operation
    timeout that were configured. *)
Theorem clearContext_forgets_the_run
    (script : Z -> attemptScript) (o : t) (w : world) :
  exists o' w' s,
    runFlow script o w = Returns (o', w', s) /\
    clearContext o' = clearContext o /\
    getContext (clearContext o') = [] /\
    getLastCacheKey (clearContext o') = None /\
    retryPolicy (clearContext o') = retryPolicy o /\
    operationTimeout (clearContext o') = operationTimeout o.
Proof.
  destruct (runFlow_summary script o w) as (o' & w' & s & new & Hrun & Hsum & _).
  exists o', w', s. unfold runSummary in Hsum. cbv zeta in Hsum.
  destruct Hsum as (_ & Hp & Hto & _).
  split; [exact Hrun|]. unfold clearContext. rewrite Hp, Hto.
  repeat split; reflexivity.
Qed.

(** [setRetryPolicy] overrides each field it is given and keeps each
    field it is not given, and touches nothing but the policy; setting
    nothing leaves the instance as it is; and two calls in a row amount
    to one call with the second partial policy spread over the first. *)
Theorem setRetryPolicy_composes
    (first second : PartialRetryPolicy) (o : t) :
  setRetryPolicy second (setRetryPolicy first o) =
    setRetryPolicy (spreadPartial first second) o /\
  setRetryPolicy nothingToSet o = o /\
  context (setRetryPolicy first o) = context o /\
  metrics (setRetryPolicy first o) = metrics o /\
  operationTimeout (setRetryPolicy first o) = operationTimeout o /\
  let old := retryPolicy o in
  let new := retryPolicy (setRetryPolicy first o) in
  maxRetries new =
    match maxRetries_opt first with Some n => n | None => maxRetries old end /\
  initialDelayMs new =
    match initialDelayMs_opt first with
    | Some d => d | None => initialDelayMs old
    end /\
  maxDelayMs new =
    match maxDelayMs_opt first with Some d => d | None => maxDelayMs old end /\
  backoffMultiplier new =
    match backoffMultiplier_opt first with
    | Some m => m | None => backoffMultiplier old
    end.
Proof.
  split.
  - destruct first as [[m1|] [i1|] [x1|] [b1|]],
             second as [[m2|] [i2|] [x2|] [b2|]]; reflexivity.
  - split; [destruct o as [c [m i x b] t0 mt]; reflexivity|].
    cbv zeta. repeat split.
Qed.
End LastKeyAndClearing.

(** ** The exponential part of the backoff *)

Section ExponentialDelay.
Import OrchestratorV2 JsNumber Samples.
Local Open Scope Q_scope.

(** With [0 < initialDelayMs <= maxDelayMs], a multiplier of at least
    1 and [1.2 * maxDelayMs] a finite double, the exponential part of the
    delay is a finite number that never decreases from one attempt to a
    later one and never exceeds [maxDelayMs]; once it has reached
    [maxDelayMs] it stays there, also when the power overflows; and with
    [Math.random()] at one half the jitter is zero. *)
Theorem exponentialDelay_monotone_until_cap (p : RetryPolicy) (i j : Z) :
  0 < initialDelayMs p -> initialDelayMs p <= maxDelayMs p ->
  1 <= backoffMultiplier p ->
  (12 # 10) * maxDelayMs p < overflowThreshold ->
  (1 <= i)%Z -> (i <= j)%Z ->
  exists earlier later,
    exponentialDelay p i = Finite earlier /\
    exponentialDelay p j = Finite later /\
    0 < earlier /\ earlier <= later /\ later <= maxDelayMs p /\
    (earlier == maxDelayMs p -> later == maxDelayMs p) /\
    (overflowThreshold <= backoffMultiplier p ^ (j - 1) ->
     later == maxDelayMs p) /\
    same (calculateDelay p i (1 # 2)) (Finite earlier).
Proof.
  intros Hinit Hmax Hmult Hrep Hi Hij.
  assert (Hpow : backoffMultiplier p ^ (i - 1) <= backoffMultiplier p ^ (j - 1))
    by (apply Qpower_le_compat_l; [lia | exact Hmult]).
  assert (Hpos : 0 < backoffMultiplier p ^ (i - 1))
    by (apply Qpower_0_lt; lra).
  destruct (exponentialDelay_finite p i)
    as (earlier & Hearlier & He0 & He1 & Hemin & Heover); try lra.
  destruct (exponentialDelay_finite p j)
    as (later & Hlater & Hl0 & Hl1 & Hlmin & Hlover); try lra.
  destruct (calculateDelay_finite p i (1 # 2) earlier Hearlier)
    as (delay & Hdelay & Hd); try lra.
  assert (Hle : earlier <= later).
  { destruct (Qlt_le_dec (backoffMultiplier p ^ (j - 1)) overflowThreshold)
      as [Hfits|Hover].
    - rewrite (Hlmin Hfits), (Hemin ltac:(lra)).
      apply Q.min_le_compat_r. nra.
    - rewrite (Hlover Hover). exact He1. }
  exists earlier, later.
  split; [exact Hearlier|]. split; [exact Hlater|].
  split; [exact He0|]. split; [exact Hle|]. split; [exact Hl1|].
  split; [intros Hcap; lra|]. split; [exact Hlover|].
  rewrite Hdelay. cbn [same]. rewrite Hd. ring.
Qed.

Lemma exponentialDelay_monotone_until_cap_witness :
  let p := retryPolicy getInstance in
  exists earlier later,
    exponentialDelay p 5 = Finite earlier /\
    exponentialDelay p 1026 = Finite later /\
    0 < earlier /\ earlier <= later /\ later <= maxDelayMs p /\
    (earlier == maxDelayMs p -> later == maxDelayMs p) /\
    (overflowThreshold <= backoffMultiplier p ^ (1026 - 1) ->
     later == maxDelayMs p) /\
    same (calculateDelay p 5 (1 # 2)) (Finite earlier).
Proof.
  apply (exponentialDelay_monotone_until_cap (retryPolicy getInstance) 5 1026);
    try (vm_compute; congruence); lia.
Defined.
End ExponentialDelay.

(** ** The capture provider *)

Section CaptureProvider.
Import ScreenshotModule OrchestratorV2 Samples.


(** [captureSimple] never rejects, and it resolves to a blob exactly when
    the prompt hands over a stream with a video track, the frame is
    grabbed, the canvas has a 2D context and [toBlob] calls back with a
    blob; the time it takes is the sum of the three waits. *)
Theorem captureSimple_blob_iff_every_stage (b : browser) (d : nat) (x : Blob) :
  (forall after e, captureSimple b <> Settles after (Rejected e)) /\
  (captureSimple b = Settles d (Resolved (Some x)) <->
   exists d1 t d2 f d3,
     getDisplayMedia b = Settles d1 (Resolved (Some t)) /\
     grabFrame b = Settles d2 (Resolved f) /\
     getContext2d b = true /\
     toBlob b = ToBlobCallsBack d3 (Some x) /\
     d = (d1 + d2 + d3)%nat).
Proof.
  unfold captureSimple, captureWithSteps.
  destruct (getDisplayMedia b) as [d1 [[t|]|e]|]; cbn [app];
    [destruct (grabFrame b) as [d2 [f|e]|];
     [destruct (getContext2d b);
      [destruct (toBlob b) as [e|d3 [y|]|]|]| |]| | |];
    cbn [blob caught]; (split; [intros after e'; discriminate|]);
    split; try discriminate;
    try (intros (d1' & t' & d2' & f' & d3' & H1 & H2 & H3 & H4 & H5);
         discriminate).
  - intros [= <- <-]. eexists _, _, _, _, _. repeat split; reflexivity.
  - intros (d1' & t' & d2' & f' & d3' & [= <- <-] & [= <- <-] & _ &
            [= <- <-] & ->). reflexivity.
Qed.

(** When the capture prompt of [ScreenshotModule] is rejected before the
    timer of the timeout guard fires, what [OrchestratorV2] throws is the
    fixed description of an empty artifact, whatever the rejection said:
    the attempt is a fatal failure even when the rejection's own
    description is retryable. *)
Theorem capture_rejection_never_reaches_classifier
    (o : OrchestratorV2.t) (a : attemptScript) (b : browser)
    (d : nat) (e : thrown) :
  capture a = captureWithSteps b ->
  getDisplayMedia b = Settles d (Rejected e) ->
  operationFirst d (captureGuard a) = true ->
  verdict o a =
    Rejected (ErrorObj "Screenshot blob is null - capture failed") /\
  isRetryableError "Screenshot blob is null - capture failed" = false.
Proof.
  intros Hcap Hprompt Hd. split; [|vm_compute; reflexivity].
  apply (empty_capture_verdict o a d
           (caught ["Step 1: Request screen capture permission"] e)).
  - rewrite Hcap. unfold captureWithSteps. rewrite Hprompt. reflexivity.
  - exact Hd.
  - reflexivity.
Qed.

Lemma capture_rejection_never_reaches_classifier_witness :
  isRetryableError "NotFoundError: Requested device not found" = true /\
  verdict getInstance emptyCapture =
    Rejected (ErrorObj "Screenshot blob is null - capture failed") /\
  isRetryableError "Screenshot blob is null - capture failed" = false.
Proof.
  split; [vm_compute; reflexivity|].
  apply (capture_rejection_never_reaches_classifier getInstance emptyCapture
           noDevice 3
           (ErrorObj "NotFoundError: Requested device not found")).
  - reflexivity.
  - reflexivity.
  - vm_compute. reflexivity.
Defined.
(** A tainted canvas: [toBlob] throws, [captureWithSteps] is rejected
    with what was thrown, and [captureSimple], which has a [catch] of
    its own, resolves to [null]. *)
Example tainted_canvas_rejects :
  captureWithSteps taintedCanvas =
    Settles 940
      (Rejected
         (ErrorObj "SecurityError: Tainted canvases may not be exported")) /\
  captureSimple taintedCanvas = Settles 940 (Resolved None).
Proof. split; reflexivity. Qed.
End CaptureProvider.

(** ** The simple orchestrator *)

Section SimpleOrchestrator.
Import Samples.

Lemma simple_cacheScreenshot_timers store key b w :
  timers (Orchestrator.cacheScreenshot store key b w) = timers w.
Proof. destruct store; reflexivity. Qed.

(** The [try] block of the simple orchestrator ends as [simpleVerdict]
    says and arms no timer. *)
Lemma simple_pipeline_verdict a key w :
  match Orchestrator.pipeline a key w with
  | Returns (w', v) => simpleVerdict a = Returns v /\ timers w' = timers w
  | NeverSettles => simpleVerdict a = NeverSettles
  | OutOfFuel => False
  end.
Proof.
  unfold simpleVerdict, Orchestrator.pipeline.
  destruct (capture a) as [d [c|e]|]; [|split; reflexivity|reflexivity].
  destruct (blob c) as [b|]; [|split; reflexivity].
  destruct (displayMedia a) as [d' [s|e]|]; [| |reflexivity].
  - destruct (cloneAndMimic a s) as [d'' [s'|e]];
      (split; [reflexivity|]); cbn [timers elapse consoleWrite];
      now rewrite simple_cacheScreenshot_timers.
  - split; [reflexivity|]. cbn [timers elapse].
    now rewrite simple_cacheScreenshot_timers.
Qed.

(** One iteration of the simple loop on an attempt that fails. *)
Lemma simple_iteration_failure a k o w e :
  simpleVerdict a = Returns (Rejected e) ->
  exists o' w' r,
    Orchestrator.iteration a k o w = Returns (o', w', false) /\
    Orchestrator.context o' = (Orchestrator.context o ++ [r])%list /\
    Orchestrator.maxRetries o' = Orchestrator.maxRetries o /\
    Orchestrator.attempt r = k /\
    Orchestrator.success r = false /\
    Orchestrator.steps r = ["Error: " +:+ errorMessage e] /\
    Orchestrator.cacheKey r =
      keyAt (Orchestrator.timestamp r + Z.of_nat (keyLag a)) /\
    timers w' =
      (if k <? Orchestrator.maxRetries o
       then (timers w ++ [JsNumber.Finite (inject_Z (1000 * k))])%list else timers w).
Proof.
  intros Hv. unfold Orchestrator.iteration.
  set (w1 := elapse _ _).
  set (key := "/screenshot-" +:+ _).
  pose proof (simple_pipeline_verdict a key w1) as Hp.
  destruct (Orchestrator.pipeline a key w1) as [[w2 v]| |];
    [|congruence|contradiction].
  destruct Hp as [Hv' Ht]. rewrite Hv in Hv'. injection Hv' as <-.
  cbn [Orchestrator.pushContext Orchestrator.maxRetries].
  destruct (k <? Orchestrator.maxRetries o);
    eexists _, _, _; (split; [reflexivity|]); cbn;
    repeat split; try reflexivity; now rewrite Ht.
Qed.

(** A stretch of failing attempts within the budget: the loop goes
    through them one by one, whatever the failures say. *)
Lemma simple_loop_through_failures (script : Z -> attemptScript) (n : nat) :
  forall (k : Z) (o : Orchestrator.t) (w : world),
    0 <= k ->
    k + Z.of_nat n <= Orchestrator.maxRetries o ->
    (forall j, k < j <= k + Z.of_nat n ->
       exists e, simpleVerdict (script j) = Returns (Rejected e)) ->
    exists o' w' new,
      (forall fuel,
          Orchestrator.attemptLoop (n + fuel) script k false o w =
          Orchestrator.attemptLoop fuel script (k + Z.of_nat n) false o' w') /\
      Orchestrator.context o' = (Orchestrator.context o ++ new)%list /\
      Orchestrator.maxRetries o' = Orchestrator.maxRetries o /\
      length new = n /\
      map Orchestrator.attempt new =
        map (fun i => k + Z.of_nat i) (seq 1 n) /\
      Forall (fun r => Orchestrator.success r = false /\
                       Orchestrator.cacheKey r =
                         keyAt (simpleKeyInstant script r)) new /\
      timers w' =
        (timers w ++
         map simpleWaitAfter
             (if k + Z.of_nat n <? Orchestrator.maxRetries o then new
              else removelast new))%list.
Proof.
  induction n as [|n IH]; intros k o w Hk Hmax Hfail.
  - exists o, w, []. rewrite Z.add_0_r, app_nil_r.
    repeat split; try reflexivity; try constructor.
    destruct (k <? Orchestrator.maxRetries o); cbn; now rewrite app_nil_r.
  - destruct (Hfail (k + 1)) as (e & He); [lia|].
    destruct (simple_iteration_failure (script (k + 1)) (k + 1) o w e He)
      as (o1 & w1 & r & Hit & Hctx & Hm & Hatt & Hs & _ & Hkey & Htim).
    assert (Hkey' : Orchestrator.cacheKey r = keyAt (simpleKeyInstant script r))
      by (unfold simpleKeyInstant; rewrite Hatt; exact Hkey).
    destruct (IH (k + 1) o1 w1) as
      (o' & w' & new & Hloop & Hctx' & Hm' & Hlen & Hatts & Hall & Htim');
      [lia | rewrite Hm; lia | intros j Hj; apply Hfail; lia |].
    exists o', w', (r :: new). split.
    { intros fuel. cbn [Nat.add Orchestrator.attemptLoop negb andb].
      destruct (Z.ltb_spec k (Orchestrator.maxRetries o)); [|lia].
      rewrite Hit, Hloop. f_equal. lia. }
    rewrite Hctx', Hctx, <- app_assoc, Hm', Hm. cbn [app length map].
    rewrite Hlen, Hatt, Hatts.
    split; [reflexivity|]. split; [reflexivity|]. split; [reflexivity|].
    split.
    { change (seq 1 (S n)) with (1%nat :: seq 2 n). cbn [map].
      f_equal. rewrite <- (seq_shift n 1), map_map.
      apply map_ext. intros i. lia. }
    split; [constructor; [split; [exact Hs | exact Hkey'] | exact Hall]|].
    rewrite Htim', Htim, Hm.
    replace (k + 1 + Z.of_nat n) with (k + Z.of_nat (S n)) by lia.
    destruct (Z.ltb_spec (k + Z.of_nat (S n)) (Orchestrator.maxRetries o))
      as [Hlt|Hge].
    + destruct (Z.ltb_spec (k + 1) (Orchestrator.maxRetries o)); [|lia].
      rewrite <- app_assoc. cbn [map app]. unfold simpleWaitAfter at 2.
      rewrite Hatt. reflexivity.
    + destruct new as [|r' new].
      * cbn [removelast map]. cbn [length] in Hlen. subst n.
        destruct (Z.ltb_spec (k + 1) (Orchestrator.maxRetries o)); [lia|].
        reflexivity.
      * cbn [length] in Hlen.
        destruct (Z.ltb_spec (k + 1) (Orchestrator.maxRetries o)); [|lia].
        change (removelast (r :: r' :: new))
          with (r :: removelast (r' :: new)).
        rewrite <- app_assoc. cbn [map app]. unfold simpleWaitAfter at 2.
        rewrite Hatt. reflexivity.
Qed.

(** One iteration of the simple loop on an attempt that goes through. *)
Lemma simple_iteration_success a k o w st :
  simpleVerdict a = Returns (Resolved st) ->
  exists o' w' r,
    Orchestrator.iteration a k o w = Returns (o', w', true) /\
    Orchestrator.context o' = (Orchestrator.context o ++ [r])%list /\
    Orchestrator.maxRetries o' = Orchestrator.maxRetries o /\
    Orchestrator.attempt r = k /\
    Orchestrator.success r = true /\
    Orchestrator.steps r = st /\
    Orchestrator.cacheKey r =
      keyAt (Orchestrator.timestamp r + Z.of_nat (keyLag a)) /\
    timers w' = timers w.
Proof.
  intros Hv. unfold Orchestrator.iteration.
  set (w1 := elapse _ _).
  set (key := "/screenshot-" +:+ _).
  pose proof (simple_pipeline_verdict a key w1) as Hp.
  destruct (Orchestrator.pipeline a key w1) as [[w2 v]| |];
    [|congruence|contradiction].
  destruct Hp as [Hv' Ht]. rewrite Hv in Hv'. injection Hv' as <-.
  eexists _, _, _. split; [reflexivity|]. cbn.
  repeat split; try reflexivity. exact Ht.
Qed.

Lemma simple_iteration_pending a k o w :
  simpleVerdict a = NeverSettles ->
  Orchestrator.iteration a k o w = NeverSettles.
Proof.
  intros Hv. unfold Orchestrator.iteration.
  set (w1 := elapse _ _).
  set (key := "/screenshot-" +:+ _).
  pose proof (simple_pipeline_verdict a key w1) as Hp.
  destruct (Orchestrator.pipeline a key w1) as [[w2 v]| |];
    [destruct Hp; congruence|reflexivity|contradiction].
Qed.

(** The [try] block stays pending exactly when the capture never settles
    or, after a capture with a blob, the request for the display never
    settles. *)
Lemma simpleVerdict_pending_iff a :
  simpleVerdict a = NeverSettles <->
  capture a = Hangs \/
  exists d c b, capture a = Settles d (Resolved c) /\ blob c = Some b /\
                displayMedia a = Hangs.
Proof.
  unfold simpleVerdict, Orchestrator.pipeline.
  destruct (capture a) as [d [c|e]|].
  - destruct (blob c) as [b|] eqn:Hb.
    + destruct (displayMedia a) as [d' [s|e]|].
      * destruct (cloneAndMimic a s) as [d'' [s'|e]]; split;
          try discriminate;
          intros [H|(? & ? & ? & _ & _ & H)]; discriminate.
      * split; [discriminate|].
        intros [H|(? & ? & ? & _ & _ & H)]; discriminate.
      * split; [|reflexivity]. intros _. right. now exists d, c, b.
    + split; [discriminate|].
      intros [H|(? & c' & ? & H & Hb' & _)]; [discriminate|].
      injection H as _ <-. congruence.
  - split; [discriminate|].
    intros [H|(? & ? & ? & H & _)]; discriminate.
  - split; [now left|reflexivity].
Qed.

(** The simple loop, given fuel for the attempts that remain, either
    returns or stays pending at the first attempt that does not settle,
    every attempt before it having failed. *)
Lemma simple_loop_returns_or_pending (script : Z -> attemptScript) :
  forall (fuel : nat) (k : Z) (s : bool) (o : Orchestrator.t) (w : world),
    Orchestrator.maxRetries o - k <= Z.of_nat fuel ->
    (exists r, Orchestrator.attemptLoop fuel script k s o w = Returns r) \/
    (Orchestrator.attemptLoop fuel script k s o w = NeverSettles /\
     exists n, k < n <= Orchestrator.maxRetries o /\
       (forall j, k < j < n ->
          exists e, simpleVerdict (script j) = Returns (Rejected e)) /\
       simpleVerdict (script n) = NeverSettles).
Proof.
  induction fuel as [|fuel IH]; intros k s o w Hfuel.
  - left. cbn [Orchestrator.attemptLoop].
    destruct (Z.ltb_spec k (Orchestrator.maxRetries o)); [lia|].
    rewrite andb_false_r. eauto.
  - cbn [Orchestrator.attemptLoop]. destruct s; cbn [negb andb]; [eauto|].
    destruct (Z.ltb_spec k (Orchestrator.maxRetries o)); [|eauto].
    destruct (simpleVerdict (script (k + 1))) as [[st|e]| |] eqn:Hv.
    + destruct (simple_iteration_success _ (k + 1) o w st Hv)
        as (o1 & w1 & r & -> & _ & Hm & _).
      left. destruct fuel; cbn [Orchestrator.attemptLoop negb andb]; eauto.
    + destruct (simple_iteration_failure _ (k + 1) o w e Hv)
        as (o1 & w1 & r & -> & _ & Hm & _).
      destruct (IH (k + 1) false o1 w1) as [Hret|(Hp & n & Hn & Hbefore & Hn')];
        [rewrite Hm; lia | now left |].
      right. split; [exact Hp|]. exists n. rewrite Hm in Hn.
      split; [lia|]. split; [|exact Hn'].
      intros j Hj. destruct (Z.eq_dec j (k + 1)) as [->|Hne]; [eauto|].
      apply Hbefore. lia.
    + right. rewrite (simple_iteration_pending _ (k + 1) o w Hv).
      split; [reflexivity|]. exists (k + 1).
      split; [lia|]. split; [intros j Hj; lia | exact Hv].
    + exfalso. unfold simpleVerdict in Hv.
      pose proof (simple_pipeline_verdict (script (k + 1)) EmptyString epoch)
        as Hp.
      destruct (Orchestrator.pipeline _ _ _) as [[? ?]| |];
        [discriminate|discriminate|contradiction].
Qed.

Lemma simple_getLastCacheKey_last o :
  Orchestrator.getLastCacheKey o =
  Orchestrator.cacheKey <$>
    last (filter (fun c => Orchestrator.success c = true)
                 (Orchestrator.context o)).
Proof.
  unfold Orchestrator.getLastCacheKey.
  destruct (filter _ (Orchestrator.context o)) as [|r l]; [reflexivity|].
  rewrite bool_decide_eq_true_2 by (cbn [length]; lia). reflexivity.
Qed.

Lemma simple_no_success_among_failures
    (Q : Orchestrator.OrchestratorContext -> Prop)
    (l : list Orchestrator.OrchestratorContext) :
  Forall (fun r => Orchestrator.success r = false /\ Q r) l ->
  filter (fun c => Orchestrator.success c = true) l = [].
Proof.
  induction 1 as [|r l [Hr _] _ IH]; [reflexivity|].
  rewrite filter_cons, decide_False by congruence. exact IH.
Qed.

(** The simple orchestrator retries every failure, whatever its
    description: when each attempt of the budget fails, [runFlow] returns
    after exactly [maxRetries] attempts numbered from 1, all recorded as
    failures; it has waited [1000 * k] ms after attempt [k] for every
    attempt but the last, the last successful cache key is the one from
    before the run, and the last line on the console reports the
    failure. *)
Theorem simple_runFlow_retries_every_failure
    (script : Z -> attemptScript) (o : Orchestrator.t) (w : world) :
  (forall j, 1 <= j <= Orchestrator.maxRetries o ->
     exists e, simpleVerdict (script j) = Returns (Rejected e)) ->
  exists o' w' new,
    Orchestrator.runFlow script o w = Returns (o', w') /\
    Orchestrator.context o' = (Orchestrator.context o ++ new)%list /\
    map Orchestrator.attempt new =
      map Z.of_nat (seq 1 (Z.to_nat (Orchestrator.maxRetries o))) /\
    Forall (fun r => Orchestrator.success r = false /\
                     Orchestrator.cacheKey r =
                       keyAt (simpleKeyInstant script r)) new /\
    timers w' = (timers w ++ map simpleWaitAfter (removelast new))%list /\
    Orchestrator.getLastCacheKey o' = Orchestrator.getLastCacheKey o /\
    last (console w') =
      Some (ErrorFailedAfterSimple (Orchestrator.maxRetries o)).
Proof.
  intros Hfail.
  unfold Orchestrator.runFlow, Orchestrator.runFlowWithin.
  destruct (Z.le_gt_cases 0 (Orchestrator.maxRetries o)) as [Hpos|Hneg].
  - destruct (simple_loop_through_failures script
                (Z.to_nat (Orchestrator.maxRetries o)) 0 o w)
      as (o' & w' & new & Hloop & Hctx & Hm & Hlen & Hatts & Hall & Htim);
      [lia | lia | intros j Hj; apply Hfail; lia |].
    specialize (Hloop 0%nat). rewrite Nat.add_0_r in Hloop.
    rewrite Hloop. cbn [Orchestrator.attemptLoop negb andb].
    destruct (Z.ltb_spec (0 + Z.of_nat (Z.to_nat (Orchestrator.maxRetries o)))
                (Orchestrator.maxRetries o')); [lia|].
    eexists _, _, new. split; [reflexivity|].
    split; [exact Hctx|]. split; [exact Hatts|]. split; [exact Hall|].
    split.
    { cbn [consoleWrite timers]. rewrite Htim.
      destruct (Z.ltb_spec (0 + Z.of_nat (Z.to_nat (Orchestrator.maxRetries o)))
                  (Orchestrator.maxRetries o)); [lia|reflexivity]. }
    split.
    { rewrite !simple_getLastCacheKey_last, Hctx, filter_app.
      rewrite (simple_no_success_among_failures _ new Hall).
      now rewrite app_nil_r. }
    cbn [consoleWrite console]. now rewrite last_snoc, Hm.
  - replace (Z.to_nat (Orchestrator.maxRetries o)) with 0%nat by lia.
    cbn [Orchestrator.attemptLoop negb andb].
    destruct (Z.ltb_spec 0 (Orchestrator.maxRetries o)); [lia|].
    eexists _, _, []. split; [reflexivity|]. rewrite !app_nil_r.
    repeat split; try reflexivity; try constructor.
    cbn [consoleWrite console]. now rewrite last_snoc.
Qed.

Lemma simple_runFlow_retries_every_failure_witness :
  exists o' w' new,
    Orchestrator.runFlow (fun _ => permissionDenied)
      Orchestrator.getInstance startOfRun = Returns (o', w') /\
    Orchestrator.context o' =
      (Orchestrator.context Orchestrator.getInstance ++ new)%list /\
    map Orchestrator.attempt new = [1; 2; 3] /\
    Forall (fun r => Orchestrator.success r = false /\
                     Orchestrator.cacheKey r =
                       keyAt (simpleKeyInstant (fun _ => permissionDenied) r)) new /\
    timers w' = (timers startOfRun ++
                 map simpleWaitAfter (removelast new))%list /\
    Orchestrator.getLastCacheKey o' =
      Orchestrator.getLastCacheKey Orchestrator.getInstance /\
    last (console w') = Some (ErrorFailedAfterSimple 3).
Proof.
  apply (simple_runFlow_retries_every_failure (fun _ => permissionDenied)
           Orchestrator.getInstance startOfRun).
  intros j _. exists (ErrorObj "Permission denied"). reflexivity.
Defined.

(** A run of the simple orchestrator stays pending for ever exactly when,
    within the budget and after attempts that all failed, an attempt's
    capture never settles or, after a capture with a blob, its request
    for the display never settles (the cache store is taken to settle);
    in every other case the run returns. *)
Theorem simple_runFlow_pending_iff
    (script : Z -> attemptScript) (o : Orchestrator.t) (w : world) :
  (Orchestrator.runFlow script o w = NeverSettles <->
   exists n, 1 <= n <= Orchestrator.maxRetries o /\
     (forall j, 1 <= j < n ->
        exists e, simpleVerdict (script j) = Returns (Rejected e)) /\
     (capture (script n) = Hangs \/
      exists d c b, capture (script n) = Settles d (Resolved c) /\
                    blob c = Some b /\ displayMedia (script n) = Hangs)) /\
  (Orchestrator.runFlow script o w <> NeverSettles ->
   exists r, Orchestrator.runFlow script o w = Returns r).
Proof.
  unfold Orchestrator.runFlow, Orchestrator.runFlowWithin.
  destruct (simple_loop_returns_or_pending script
              (Z.to_nat (Orchestrator.maxRetries o)) 0 false o w)
    as [[[[o1 w1] s] Hret]|(Hp & n & Hn & Hbefore & Hn')]; [lia| |].
  - rewrite Hret. split; [|eauto]. split; [discriminate|].
    intros (n & Hn & Hbefore & Hn'). exfalso.
    apply simpleVerdict_pending_iff in Hn'.
    destruct (simple_loop_through_failures script (Z.to_nat (n - 1)) 0 o w)
      as (o' & w' & new & Hloop & _ & Hm & _);
      [lia | lia | intros j Hj; apply Hbefore; lia |].
    specialize (Hloop (Z.to_nat (Orchestrator.maxRetries o - (n - 1)))).
    replace (Z.to_nat (n - 1) +
             Z.to_nat (Orchestrator.maxRetries o - (n - 1)))%nat
      with (Z.to_nat (Orchestrator.maxRetries o)) in Hloop by lia.
    rewrite Hret in Hloop.
    destruct (Z.to_nat (Orchestrator.maxRetries o - (n - 1))) as [|f] eqn:Hf;
      [lia|].
    cbn [Orchestrator.attemptLoop negb andb] in Hloop.
    destruct (Z.ltb_spec (0 + Z.of_nat (Z.to_nat (n - 1)))
                (Orchestrator.maxRetries o')); [|lia].
    replace (0 + Z.of_nat (Z.to_nat (n - 1)) + 1) with n in Hloop by lia.
    rewrite (simple_iteration_pending _ n o' w' Hn') in Hloop.
    discriminate.
  - rewrite Hp. split; [|congruence]. split; [|reflexivity].
    intros _. exists n. split; [lia|].
    split; [intros j Hj; apply Hbefore; lia|].
    now apply simpleVerdict_pending_iff.
Qed.

Lemma simple_getLastCacheKey_snoc o l r :
  Orchestrator.context o = (l ++ [r])%list ->
  Orchestrator.success r = true ->
  Orchestrator.getLastCacheKey o = Some (Orchestrator.cacheKey r).
Proof.
  intros Hctx Hs. rewrite simple_getLastCacheKey_last, Hctx, filter_app.
  rewrite filter_cons, filter_nil, decide_True by exact Hs.
  now rewrite last_snoc.
Qed.

(** When the attempts before the [n]-th fail, in whatever way, and the
    [n]-th goes through, within the budget, the simple [runFlow] returns
    after exactly [n] attempts: [n - 1] failures, each followed by a wait
    of [1000 * k] ms, then the success with the steps of the capture,
    whose cache key [getLastCacheKey] returns.  No further timer is
    armed. *)
Theorem simple_runFlow_succeeds_on_attempt
    (script : Z -> attemptScript) (o : Orchestrator.t) (w : world)
    (n : Z) (st : list string) :
  1 <= n <= Orchestrator.maxRetries o ->
  (forall j, 1 <= j < n ->
     exists e, simpleVerdict (script j) = Returns (Rejected e)) ->
  simpleVerdict (script n) = Returns (Resolved st) ->
  exists o' w' failed r,
    Orchestrator.runFlow script o w = Returns (o', w') /\
    Orchestrator.context o' =
      (Orchestrator.context o ++ failed ++ [r])%list /\
    map Orchestrator.attempt failed =
      map Z.of_nat (seq 1 (Z.to_nat (n - 1))) /\
    Forall (fun x => Orchestrator.success x = false /\
                     Orchestrator.cacheKey x =
                       keyAt (simpleKeyInstant script x)) failed /\
    Orchestrator.attempt r = n /\
    Orchestrator.success r = true /\
    Orchestrator.steps r = st /\
    Orchestrator.cacheKey r = keyAt (simpleKeyInstant script r) /\
    Orchestrator.getLastCacheKey o' = Some (Orchestrator.cacheKey r) /\
    timers w' = (timers w ++ map simpleWaitAfter failed)%list.
Proof.
  intros Hn Hbefore Hv.
  unfold Orchestrator.runFlow, Orchestrator.runFlowWithin.
  destruct (simple_loop_through_failures script (Z.to_nat (n - 1)) 0 o w)
    as (o1 & w1 & failed & Hloop & Hctx & Hm & _ & Hatts & Hall & Htim);
    [lia | lia | intros j Hj; apply Hbefore; lia |].
  specialize (Hloop (Z.to_nat (Orchestrator.maxRetries o - (n - 1)))).
  replace (Z.to_nat (n - 1) +
           Z.to_nat (Orchestrator.maxRetries o - (n - 1)))%nat
    with (Z.to_nat (Orchestrator.maxRetries o)) in Hloop by lia.
  rewrite Hloop.
  destruct (Z.to_nat (Orchestrator.maxRetries o - (n - 1))) as [|f] eqn:Hf;
    [lia|].
  cbn [Orchestrator.attemptLoop negb andb].
  destruct (Z.ltb_spec (0 + Z.of_nat (Z.to_nat (n - 1)))
              (Orchestrator.maxRetries o1)); [|lia].
  replace (0 + Z.of_nat (Z.to_nat (n - 1)) + 1) with n by lia.
  destruct (simple_iteration_success _ n o1 w1 st Hv)
    as (o2 & w2 & r & -> & Hctx2 & Hm2 & Hatt & Hs & Hst & Hkey0 & Htim2).
  assert (Hkey : Orchestrator.cacheKey r = keyAt (simpleKeyInstant script r))
    by (unfold simpleKeyInstant; rewrite Hatt; exact Hkey0).
  replace (Orchestrator.attemptLoop f script n true o2 w2)
    with (Returns (A := Orchestrator.t * world * bool) (o2, w2, true))
    by (destruct f; reflexivity).
  exists o2, w2, failed, r. split; [reflexivity|].
  assert (Hctx' : Orchestrator.context o2 =
                  ((Orchestrator.context o ++ failed) ++ [r])%list)
    by (now rewrite Hctx2, Hctx).
  split; [now rewrite Hctx', app_assoc|].
  split; [exact Hatts|]. split; [exact Hall|].
  repeat (split; [assumption|]).
  split; [exact (simple_getLastCacheKey_snoc o2 _ r Hctx' Hs)|].
  rewrite Htim2, Htim.
  destruct (Z.ltb_spec (0 + Z.of_nat (Z.to_nat (n - 1)))
              (Orchestrator.maxRetries o)); [reflexivity|lia].
Qed.

Lemma simple_runFlow_succeeds_on_attempt_witness :
  exists o' w' failed r,
    Orchestrator.runFlow flaky Orchestrator.getInstance startOfRun =
      Returns (o', w') /\
    Orchestrator.context o' =
      (Orchestrator.context Orchestrator.getInstance ++ failed ++ [r])%list /\
    map Orchestrator.attempt failed = [1; 2] /\
    Forall (fun x => Orchestrator.success x = false /\
                     Orchestrator.cacheKey x =
                       keyAt (simpleKeyInstant flaky x)) failed /\
    Orchestrator.attempt r = 3 /\
    Orchestrator.success r = true /\
    Orchestrator.steps r = ScreenshotModule.fiveSteps /\
    Orchestrator.cacheKey r = keyAt (simpleKeyInstant flaky r) /\
    Orchestrator.getLastCacheKey o' = Some (Orchestrator.cacheKey r) /\
    timers w' = (timers startOfRun ++ map simpleWaitAfter failed)%list.
Proof.
  apply (simple_runFlow_succeeds_on_attempt flaky Orchestrator.getInstance
           startOfRun 3 ScreenshotModule.fiveSteps).
  - cbn. lia.
  - intros j Hj. exists (ErrorObj "network error").
    assert (Hj' : j = 1 \/ j = 2) by lia.
    destruct Hj' as [->| ->]; reflexivity.
  - reflexivity.
Defined.
End SimpleOrchestrator.

(** ** The stream collaborator: handlers and the action log *)

Section CloneStreamFacts.
Import CloneStreamModule.

(** A key the handlers do not react to, or a page without a focused
    element: the handlers change nothing. *)
Lemma dispatchKeydown_idle (h : nat) key m p :
  (if triggers key then activeElement p else None) = None ->
  dispatchKeydown h key m p = (m, p).
Proof.
  intros Hidle. induction h as [|h IH]; [reflexivity|].
  cbn [dispatchKeydown]. unfold keydownHandler. fold (triggers key).
  destruct (triggers key); [|exact IH].
  rewrite Hidle. exact IH.
Qed.

(** Every registered handler logs one click on the focused element and
    clicks it. *)
Lemma dispatchKeydown_clicks (h : nat) key a :
  triggers key = true ->
  forall m p,
    activeElement p = Some a ->
    exists m' p',
      dispatchKeydown h key m p = (m', p') /\
      actionLogs m' = (actionLogs m ++ repeat (clickLog key a p) h)%list /\
      clicks p' = (clicks p ++ repeat a h)%list /\
      now p' = now p /\
      activeElement p' = activeElement p /\
      querySelector p' = querySelector p /\
      keydownHandlers p' = keydownHandlers p.
Proof.
  intros Hkey. induction h as [|h IH]; intros m p Ha.
  - exists m, p. cbn [repeat]. rewrite !app_nil_r. repeat split.
  - cbn [dispatchKeydown]. unfold keydownHandler. fold (triggers key).
    rewrite Hkey, Ha. cbn [logAction].
    match goal with
    | |- context [dispatchKeydown h key ?m1 ?p1] =>
        destruct (IH m1 p1 Ha)
          as (m' & p' & -> & Hlogs & Hclicks & Hnow & Hact & Hsel & Hh)
    end.
    exists m', p'. split; [reflexivity|].
    rewrite Hlogs, Hclicks, Hnow, Hact, Hsel, Hh.
    cbn [actionLogs clicks click consoleWrite now activeElement
         querySelector keydownHandlers repeat].
    rewrite <- !app_assoc. repeat split. exact Ha.
Qed.

Lemma afterClones_page cloned :
  forall p,
    keydownHandlers (afterClones cloned p) =
      (keydownHandlers p + registrations cloned)%nat /\
    now (afterClones cloned p) = now p /\
    activeElement (afterClones cloned p) = activeElement p /\
    querySelector (afterClones cloned p) = querySelector p /\
    clicks (afterClones cloned p) = clicks p /\
    console (afterClones cloned p) = console p.
Proof.
  unfold afterClones, registrations.
  induction cloned as [|[s|e] cloned IH]; intros p; cbn [fold_left].
  - cbn. rewrite Nat.add_0_r. repeat split.
  - destruct (IH (snd (cloneAndMimic (Resolved s) p)))
      as (-> & -> & -> & -> & -> & ->).
    cbn. repeat split. lia.
  - destruct (IH (snd (cloneAndMimic (Rejected e) p)))
      as (-> & -> & -> & -> & -> & ->).
    cbn. repeat split.
Qed.

(** [mimicKeyPress] registers and removes no handler.  When the selector
    is not a valid one, [querySelector] throws: the call is rejected
    with what was thrown, and it logs, writes and clicks nothing.
    Without a target it resolves, logs no action and warns.  With a
    target it resolves and appends one [mimic_keypress] entry for the
    target, after one [keyboard_click] entry per registered handler when
    the key is Enter or a space and an element has the focus; the clicks
    go to the focused element, once per registered handler, not to the
    target. *)
Theorem mimicKeyPress_logs_and_clicks
    (key : string) (targetSelector : option string) (m : t) (p : page) :
  let '(settles, m', p') := mimicKeyPress key targetSelector m p in
  keydownHandlers p' = keydownHandlers p /\
  match targetOf targetSelector p with
  | Rejected e =>
      settles = Rejected e /\ m' = m /\ p' = p /\
      exists selector, targetSelector = Some selector /\
                       querySelector p selector = Rejected e
  | Resolved None =>
      settles = Resolved tt /\
      getActionLogs m' = getActionLogs m /\
      clicks p' = clicks p /\
      console p' = (console p ++ [WarnNoTarget key])%list
  | Resolved (Some el) =>
      settles = Resolved tt /\
      match (if triggers key then activeElement p else None) with
      | Some focused =>
          getActionLogs m' =
            (getActionLogs m ++
             repeat (clickLog key focused p) (keydownHandlers p) ++
             [pressLog key el p])%list /\
          clicks p' = (clicks p ++ repeat focused (keydownHandlers p))%list
      | None =>
          getActionLogs m' = (getActionLogs m ++ [pressLog key el p])%list /\
          clicks p' = clicks p
      end
  end.
Proof.
  unfold mimicKeyPress.
  destruct (targetOf targetSelector p) as [[el|]|e] eqn:Htarget.
  - destruct (if triggers key then activeElement p else None)
      as [focused|] eqn:Hreact.
    + destruct (triggers key) eqn:Hkey; [|discriminate].
      destruct (dispatchKeydown_clicks (keydownHandlers p) key focused Hkey
                  m p Hreact)
        as (m1 & p1 & -> & Hlogs & Hclicks & Hnow & _ & _ & Hh).
      cbn. unfold getActionLogs, pressLog.
      rewrite Hlogs, Hclicks, Hnow, Hh, <- app_assoc. repeat split.
    + rewrite (dispatchKeydown_idle _ key m p Hreact). cbn. repeat split.
  - cbn. repeat split.
  - split; [reflexivity|]. repeat split.
    unfold targetOf in Htarget.
    destruct targetSelector as [[|c selector]|]; try discriminate.
    eexists. split; [reflexivity | exact Htarget].
Qed.

(** Handlers are registered and never removed: after any series of
    calls of [cloneAndMimic] on a page with a focused element, and even
    after [clearLogs], one Enter or space key press on a target that is
    found resolves, clicks the focused element once for every handler on
    the page, that is once more for every call whose [stream.clone()]
    returned, and logs as many [keyboard_click] entries before its own
    [mimic_keypress] entry. *)
Theorem keypress_clicks_once_per_clone
    (cloned : list (settled MediaStream)) (key : string)
    (targetSelector : option string) (m : t) (p : page)
    (focused el : element) :
  triggers key = true ->
  activeElement p = Some focused ->
  targetOf targetSelector p = Resolved (Some el) ->
  let n := (keydownHandlers p + registrations cloned)%nat in
  exists m' p',
    mimicKeyPress key targetSelector (clearLogs m) (afterClones cloned p) =
      (Resolved tt, m', p') /\
    getActionLogs m' =
      (repeat (clickLog key focused p) n ++ [pressLog key el p])%list /\
    clicks p' = (clicks p ++ repeat focused n)%list /\
    keydownHandlers p' = n.
Proof.
  intros Hkey Hfocus Htarget. cbn zeta.
  destruct (afterClones_page cloned p)
    as (Hh & Hnow & Hact & Hsel & Hclicks & _).
  assert (Htarget' : targetOf targetSelector (afterClones cloned p) =
                     Resolved (Some el)).
  { unfold targetOf in *. rewrite Hact, Hsel. exact Htarget. }
  unfold mimicKeyPress. rewrite Htarget'.
  destruct (dispatchKeydown_clicks (keydownHandlers (afterClones cloned p))
              key focused Hkey (clearLogs m) (afterClones cloned p))
    as (m1 & p1 & -> & Hlogs & Hclicks' & Hnow' & _ & _ & Hh');
    [now rewrite Hact|].
  eexists _, _. split; [reflexivity|].
  cbn. unfold getActionLogs, clickLog, pressLog.
  rewrite Hlogs, Hclicks', Hnow', Hh', Hh, Hclicks, Hnow.
  cbn [actionLogs clearLogs app].
  unfold clickLog. rewrite Hnow. repeat split.
Qed.

Lemma keypress_clicks_once_per_clone_witness :
  let cloned := [Resolved (mkMediaStream 2);
                 Rejected (ErrorObj "InvalidStateError");
                 Resolved (mkMediaStream 3)] in
  exists m' p',
    mimicKeyPress "Enter" (Some "#name") (clearLogs getInstance)
                  (afterClones cloned pageWithButton) =
      (Resolved tt, m', p') /\
    getActionLogs m' =
      (repeat (clickLog "Enter" (mkElement "BUTTON" "") pageWithButton) 2 ++
       [pressLog "Enter" (mkElement "INPUT" "name") pageWithButton])%list /\
    clicks p' =
      (clicks pageWithButton ++ repeat (mkElement "BUTTON" "") 2)%list /\
    keydownHandlers p' = 2%nat.
Proof.
  apply (keypress_clicks_once_per_clone
           [Resolved (mkMediaStream 2);
            Rejected (ErrorObj "InvalidStateError");
            Resolved (mkMediaStream 3)]
           "Enter" (Some "#name") getInstance pageWithButton
           (mkElement "BUTTON" "") (mkElement "INPUT" "name"));
    reflexivity.
Defined.
End CloneStreamFacts.

(** ** What a run leaves in the cache *)

Section CacheContents.
Import OrchestratorV2.

Lemma cacheMatch_app key (l1 l2 : list (string * Blob)) :
  cacheMatch key (l1 ++ l2) =
  match cacheMatch key l1 with
  | Some b => Some b
  | None => cacheMatch key l2
  end.
Proof.
  unfold cacheMatch. induction l1 as [|[k b] l1 IH]; [reflexivity|].
  cbn [app List.find fst]. destruct (String.eqb k key); [reflexivity|exact IH].
Qed.

Lemma cacheMatch_withoutKey key key' (entries : list (string * Blob)) :
  cacheMatch key' (withoutKey key entries) =
  if String.eqb key key' then None else cacheMatch key' entries.
Proof.
  unfold cacheMatch, withoutKey.
  induction entries as [|[k b] entries IH].
  - cbn. now destruct (String.eqb key key').
  - cbn [List.filter List.find fst].
    destruct (String.eqb_spec k key) as [->|Hne]; cbn [negb].
    + rewrite IH. destruct (String.eqb_spec key key') as [->|Hne'];
        [reflexivity|].
      destruct (String.eqb_spec key key'); [contradiction|reflexivity].
    + cbn [List.find fst]. destruct (String.eqb_spec k key') as [->|Hne'].
      * destruct (String.eqb_spec key key'); [congruence|reflexivity].
      * exact IH.
Qed.

(** What [cache.match] finds after a put: the blob that was put under
    the key, and under any other key what it found before. *)
Lemma cacheMatch_putEntry key b key' (entries : list (string * Blob)) :
  cacheMatch key' (putEntry key b entries) =
  if String.eqb key key' then Some b else cacheMatch key' entries.
Proof.
  unfold putEntry. rewrite cacheMatch_app, cacheMatch_withoutKey.
  destruct (String.eqb key key') eqn:Heq.
  - unfold cacheMatch. cbn. now rewrite Heq.
  - destruct (cacheMatch key' entries); [reflexivity|].
    unfold cacheMatch. cbn. now rewrite Heq.
Qed.

Lemma putAll_app puts1 puts2 entries :
  putAll (puts1 ++ puts2) entries = putAll puts2 (putAll puts1 entries).
Proof. unfold putAll. apply fold_left_app. Qed.

(** After a series of puts [cache.match] finds the blob of the last put
    under the key, and what it found before when there is none. *)
Lemma cacheMatch_putAll key puts :
  forall entries,
    cacheMatch key (putAll puts entries) =
    match cacheMatch key (rev puts) with
    | Some b => Some b
    | None => cacheMatch key entries
    end.
Proof.
  induction puts as [|[k b] puts IH]; intros entries; [reflexivity|].
  change (putAll ((k, b) :: puts) entries)
    with (putAll puts (putEntry k b entries)).
  rewrite IH, cacheMatch_putEntry. cbn [rev]. rewrite cacheMatch_app.
  destruct (cacheMatch key (rev puts)); [reflexivity|].
  unfold cacheMatch at 2. cbn [List.find fst].
  destruct (String.eqb k key); reflexivity.
Qed.

Lemma withoutKey_keys key (entries : list (string * Blob)) :
  NoDup (map fst entries) ->
  NoDup (map fst (withoutKey key entries)) /\
  ~ In key (map fst (withoutKey key entries)).
Proof.
  unfold withoutKey. induction entries as [|[k b] entries IH]; intros Hnd.
  - split; [constructor | intros []].
  - cbn [map fst] in Hnd. apply NoDup_cons in Hnd as [Hk Hnd].
    destruct (IH Hnd) as [IH1 IH2].
    cbn [List.filter fst].
    destruct (String.eqb_spec k key) as [->|Hne]; cbn [negb];
      [split; assumption|].
    cbn [map fst]. split.
    + apply NoDup_cons. split; [|exact IH1].
      intros Hin. apply Hk. apply list_elem_of_In.
      apply list_elem_of_In in Hin.
      apply in_map_iff in Hin as (entry & <- & Hin).
      apply filter_In in Hin as [Hin _]. apply in_map. exact Hin.
    + intros [Heq|Hin]; [congruence | contradiction].
Qed.

(** The store keeps one entry for each key. *)
Lemma putEntry_keys key b (entries : list (string * Blob)) :
  NoDup (map fst entries) -> NoDup (map fst (putEntry key b entries)).
Proof.
  intros Hnd. destruct (withoutKey_keys key entries Hnd) as [H1 H2].
  unfold putEntry. rewrite map_app. cbn [map fst].
  apply NoDup_app. split; [exact H1|]. split; [|apply NoDup_singleton].
  intros k Hin Hin'. apply list_elem_of_In in Hin, Hin'.
  destruct Hin' as [<-|[]]. contradiction.
Qed.

Lemma putAll_keys puts :
  forall entries,
    NoDup (map fst entries) -> NoDup (map fst (putAll puts entries)).
Proof.
  induction puts as [|[k b] puts IH]; intros entries Hnd; [exact Hnd|].
  change (putAll ((k, b) :: puts) entries)
    with (putAll puts (putEntry k b entries)).
  apply IH, putEntry_keys, Hnd.
Qed.

Lemma pipeline_cachePuts o a key w :
  cachePuts (fst (pipeline o a key w)) =
  putAll (cachedBy o a key) (cachePuts w).
Proof.
  unfold pipeline, cachedBy.
  destruct (withTimeout (capture a) (operationTimeout o) (captureGuard a))
    as [d [c|e]]; [|reflexivity].
  destruct (blob c) as [b|]; [|reflexivity].
  assert (Hcache :
            cachePuts (cacheScreenshot (cache a) key b (elapse d w)) =
            putAll match cache a with CachePuts _ => [(key, b)] | _ => [] end
                   (cachePuts w)).
  { destruct (cache a); reflexivity. }
  destruct (withTimeout (displayMedia a) (operationTimeout o) (displayGuard a))
    as [d' [[s|]|e]]; try exact Hcache.
  destruct (cloneAndMimic a (Some s)) as [d'' [s'|e]]; exact Hcache.
Qed.

Lemma iteration_cachePuts a k o w o' w' s stop :
  iteration a k o w = (o', w', s, stop) ->
  exists r,
    context o' = (context o ++ [r])%list /\
    attempt r = k /\
    operationTimeout o' = operationTimeout o /\
    cachePuts w' = putAll (cachedBy o a (cacheKey r)) (cachePuts w).
Proof.
  unfold iteration.
  set (o1 := setMetrics _ o). set (key := "/screenshot-" +:+ _).
  set (w1 := consoleWrite _ _).
  pose proof (pipeline_cachePuts o1 a key w1) as Hp.
  change (cachedBy o1 a key) with (cachedBy o a key) in Hp.
  change (cachePuts w1) with (cachePuts w) in Hp.
  destruct (pipeline o1 a key w1) as [w2 [steps|e]]; cbn [fst] in Hp.
  - intros [= <- <- _ _]. eexists. cbn. repeat split. exact Hp.
  - cbn [pushContext setMetrics retryPolicy operationTimeout].
    destruct (isRetryableError _ && _);
      [intros [= <- <- _ _]; eexists; cbn; repeat split; exact Hp|].
    destruct (negb _); intros [= <- <- _ _]; eexists; cbn; repeat split;
      exact Hp.
Qed.

(** After a run the cache store is what the puts of the run make of the
    store before it.  In the order of the attempts, every attempt whose
    capture handed over a blob before the timer of its guard fired, while
    the store took it, put the blob under the cache key of its record,
    whether the attempt then went through or failed at a later step; a
    put replaces the entry stored under the same key, so that the store
    keeps one entry for each key.  Nothing else is written:
    [cache.match] finds the blob of the last such attempt with that key,
    and what it found before the run when there is none. *)
Theorem runFlow_cache_contents
    (script : Z -> attemptScript) (o : t) (w : world) :
  exists o' w' s new,
    runFlow script o w = Returns (o', w', s) /\
    context o' = (context o ++ new)%list /\
    let written :=
      flat_map (fun r => cachedBy o (script (attempt r)) (cacheKey r)) new in
    cachePuts w' = putAll written (cachePuts w) /\
    (NoDup (map fst (cachePuts w)) -> NoDup (map fst (cachePuts w'))) /\
    forall key,
      cacheMatch key (cachePuts w') =
      match cacheMatch key (rev written) with
      | Some b => Some b
      | None => cacheMatch key (cachePuts w)
      end.
Proof.
  destruct (V2Facts.runFlow_returns script o w) as [[[o' w'] s] Hrun].
  exists o', w', s. rewrite Hrun.
  unfold runFlow, runFlowWithin in Hrun.
  destruct (attemptLoop _ script 0 false o w)
    as [[[[o1 w1] k] s1]| |] eqn:Hloop; try discriminate.
  injection Hrun as <- <- <-.
  pose (I := fun (_ : Z) (o1 : t) (w1 : world) =>
    operationTimeout o1 = operationTimeout o /\
    exists new,
      context o1 = (context o ++ new)%list /\
      cachePuts w1 =
        putAll (flat_map (fun r => cachedBy o (script (attempt r)) (cacheKey r))
                         new)
               (cachePuts w)).
  assert (H : I k o1 w1).
  { refine (V2Facts.attemptLoop_rule I
              (fun r => I (snd (fst r)) (fst (fst (fst r)))
                          (snd (fst (fst r))))
              script _ _ _ 0 o w _ _ Hloop).
    - intros k0 o0 w0 HI _. exact HI.
    - intros k0 o0 w0 o2 w2 s2 stop (Ht & new & Hctx & Hputs) _ Hit.
      apply iteration_cachePuts in Hit as (r & Hctx' & Hatt & Ht' & Hputs').
      assert (HI : I (k0 + 1) o2 w2).
      { split; [congruence|]. exists (new ++ [r])%list.
        split; [now rewrite Hctx', Hctx, app_assoc|].
        rewrite Hputs', Hputs, flat_map_app, putAll_app. cbn [flat_map].
        rewrite app_nil_r, Hatt. unfold cachedBy. now rewrite Ht. }
      destruct (stop || s2); exact HI.
    - split; [reflexivity|]. exists []. split; [now rewrite app_nil_r|reflexivity]. }
  destruct H as (_ & new & Hctx & Hputs).
  exists new. split; [reflexivity|]. split; [exact Hctx|].
  assert (Hputs' :
    cachePuts (if s1 then w1
               else consoleWrite
                      (ErrorFailedAfter k (maxRetries (retryPolicy o1))
                                        (now w1 - now w)) w1) =
    cachePuts w1) by (destruct s1; reflexivity).
  cbv zeta.
  cbn [setMetrics metrics totalTimeMs retryPolicy] in *.
  rewrite Hputs', Hputs.
  split; [reflexivity|]. split; [apply putAll_keys|].
  intros key. apply cacheMatch_putAll.
Qed.
End CacheContents.

